(** * traiNNer-redux: [traiNNer/utils/color_util.py]

    A shallow embedding of the colour conversion utilities and the
    properties established about them.

    - The NumPy half ([rgb2ycbcr], [bgr2ycbcr], [ycbcr2rgb], [ycbcr2bgr] and
      the two range converters) is pure apart from one in-place division; it
      is embedded in an exception monad over array values.
    - The PyTorch half is embedded in a state-and-exception monad over a
      store of tensor storages, because views ([permute], slicing) share
      storage with their base and [pixelformat2rgb_pt] writes through a
      slice.
    - Samples are IEEE 754 values ([spec_float] of the standard library):
      binary32 for [np.float32] and torch tensors, binary64 for
      [np.float64] and for Python's own floats.  Sums of products
      ([np.dot], [matmul]) add from left to right, one rounding per
      operation.
    - [torch.pow] is the one operation IEEE 754 does not pin down.  The
      model has a reference power, rounded once; PyTorch's kernels agree
      with it on short tensors and are within a few units in the last
      place elsewhere.  The theorems about the tensor functions are
      therefore stated for the samples for which [torch.where] selects the
      other branch, or up to a tolerance that covers the difference; the
      lemmas that go through the reference power describe the model and
      serve to derive those.

    The definitions come first, in the order of the source; the facts
    about them follow. *)

From Stdlib Require Import ZArith QArith Qabs String Ascii List Lia Bool.
From Stdlib Require Import Floats.SpecFloat DecimalString.
From stdpp Require Import base tactics option list.

Local Open Scope Z_scope.

(* ===================================================================== *)
(** * IEEE 754 samples *)
(* ===================================================================== *)

Module Fp.

Abbreviation float := spec_float.

#[global] Instance float_eq_dec : EqDecision spec_float.
Proof. solve_decision. Defined.

(** One IEEE format: the precision and the exponent of infinity. *)
Record format := Format { prec : Z; emax : Z }.

Definition binary16 := Format 11 16.
Definition binary32 := Format 24 128.
Definition binary64 := Format 53 1024.

Definition add (f : format) := SFadd (prec f) (emax f).
Definition sub (f : format) := SFsub (prec f) (emax f).
Definition mul (f : format) := SFmul (prec f) (emax f).
Definition div (f : format) := SFdiv (prec f) (emax f).
Definition leb : float -> float -> bool := SFleb.
Definition ltb : float -> float -> bool := SFltb.

(** An integer, rounded to nearest-even into the format. *)
Definition of_Z (f : format) (z : Z) : float :=
  binary_normalize (prec f) (emax f) z 0 false.

(** A value of any format rounded into format [f] (C's conversion between
    floating types; exact when [f] is the wider one). *)
Definition cast (f : format) (x : float) : float :=
  match x with
  | S754_finite s m e => binary_round (prec f) (emax f) s m e
  | _ => x
  end.

(** The Python float written [n/d] in the source, either as a decimal
    literal ([65.481] is [lit 65481 1000]) or as a quotient of two integer
    literals ([216 / 24389]).  Division is correctly rounded, so this is
    the double nearest to the exact quotient. *)
Definition lit (n d : Z) : float :=
  div binary64 (of_Z binary64 n) (of_Z binary64 d).

(** The same Python float as PyTorch uses it next to a float32 tensor. *)
Definition lit32 (n d : Z) : float := cast binary32 (lit n d).

(** Round to an integral value, ties to even ([np.round], decimals 0). *)
Definition rint (f : format) (x : float) : float :=
  match x with
  | S754_finite s m e =>
      if 0 <=? e then x
      else
        let d := 2 ^ (- e) in
        let q := Z.pos m / d in
        let r := Z.pos m mod d in
        let q' := match 2 * r ?= d with
                  | Lt => q
                  | Gt => q + 1
                  | Eq => if Z.even q then q else q + 1
                  end in
        binary_normalize (prec f) (emax f) (if s then - q' else q') 0 s
  | _ => x
  end.

(** Truncation toward zero (C's conversion to an integer type); the
    values that have no integer part convert to 0 here. *)
Definition trunc (x : float) : Z :=
  match x with
  | S754_finite s m e =>
      let a := if 0 <=? e then Z.pos m * 2 ^ e else Z.pos m / 2 ^ (- e) in
      if s then - a else a
  | _ => 0
  end.

(** The exact rational value of a finite sample (0 otherwise); used only
    to state tolerances. *)
Definition to_Q (x : float) : Q :=
  match x with
  | S754_finite s m e =>
      let n := if s then Z.neg m else Z.pos m in
      if 0 <=? e then Qmake (n * 2 ^ e) 1
      else Qmake n (Z.to_pos (2 ^ (- e)))
  | _ => 0%Q
  end.

Definition is_finite (x : float) : bool :=
  match x with
  | S754_finite _ _ _ | S754_zero _ => true
  | _ => false
  end.

(** [x] is within [eps] of the rational [q]. *)
Definition close_to (eps q : Q) (x : float) : bool :=
  is_finite x && Qle_bool (Qabs (to_Q x - q)) eps.

(** ** [pow]

    A reference power: the IEEE special cases of C's Annex F and, for a
    positive finite base, [exp (y * ln x)] evaluated in fixed point with
    [fbits] fractional bits and then rounded once into the format [f].
    The exponent [y] is a value of any format; the base is one of [f].

    This is what [torch.pow (x, c)] returns for a float32 tensor and a
    Python float [c] when the sample goes through the scalar kernel, which
    raises it to the double [c] in binary64 and rounds the result to
    binary32.  Long contiguous runs go through a vectorised kernel that
    takes [c] rounded to binary32 and is accurate to one unit in the last
    place, so its result can differ from the reference one in the last
    few bits. *)

Definition fbits : Z := 160.
Definition fone : Z := 2 ^ fbits.
Definition fmul (a b : Z) : Z := Z.shiftr (a * b) fbits.
Definition fdiv (a b : Z) : Z := Z.shiftl a fbits / b.

(** [z + z^3/3 + z^5/5 + ...], [n] terms; [zp] is the current odd power. *)
Fixpoint atanh_terms (n : nat) (k zp z2 : Z) : Z :=
  match n with
  | O => 0
  | S n' => zp / k + atanh_terms n' (k + 2) (fmul zp z2) z2
  end.

(** [ln g] for a fixed-point [g] in [1, 2], as [2 * atanh ((g-1)/(g+1))]. *)
Definition ln_mant (g : Z) : Z :=
  let z := fdiv (g - fone) (g + fone) in
  2 * atanh_terms 60 1 z (fmul z z).

Definition ln2 : Z := ln_mant (2 * fone).

(** [ln (m * 2^e)]. *)
Definition ln_pos (m : positive) (e : Z) : Z :=
  let d := Z.pos (digits2_pos m) in
  let g := Z.shiftl (Z.pos m) (fbits - (d - 1)) in
  ln_mant g + (e + d - 1) * ln2.

(** [1 + r + r^2/2! + ...], [n] terms. *)
Fixpoint exp_terms (n : nat) (k t r : Z) : Z :=
  match n with
  | O => 0
  | S n' => t + exp_terms n' (k + 1) (fmul t r / k) r
  end.

(** [exp t] as a mantissa and a binary exponent. *)
Definition exp_fix (t : Z) : Z * Z :=
  let n := (2 * t + ln2) / (2 * ln2) in
  let r := t - n * ln2 in
  (exp_terms 60 1 fone r, n - fbits).

Definition is_int (x : float) : bool :=
  match x with
  | S754_zero _ => true
  | S754_finite _ m e => (0 <=? e) || (Z.pos m mod 2 ^ (- e) =? 0)
  | _ => false
  end.

Definition is_odd_int (x : float) : bool := is_int x && Z.odd (trunc x).

Definition sign (x : float) : bool :=
  match x with
  | S754_zero s | S754_infinity s | S754_finite s _ _ => s
  | S754_nan => false
  end.

Definition pow_pos (f : format) (m : positive) (e : Z) (y : float) : float :=
  match y with
  | S754_finite sy my ey =>
      let l := ln_pos m e * (if sy then Z.neg my else Z.pos my) in
      let t := if 0 <=? ey then l * 2 ^ ey else Z.shiftr l (- ey) in
      let '(mz, ez) := exp_fix t in
      binary_normalize (prec f) (emax f) mz ez false
  | _ => S754_nan
  end.

Definition pow_cases (f : format) (one x y : float) : float :=
  match x, y with
  | S754_nan, _ | _, S754_nan => S754_nan
  | _, S754_zero _ => one
  | S754_zero sx, _ =>
      let s := sx && is_odd_int y in
      if sign y then S754_infinity s else S754_zero s
  | S754_infinity sx, _ =>
      let s := sx && is_odd_int y in
      if sign y then S754_zero s else S754_infinity s
  | S754_finite _ m e, S754_infinity sy =>
      match SFcompare (S754_finite false m e) one with
      | Some Eq => one
      | Some Lt => if sy then S754_infinity false else S754_zero false
      | _ => if sy then S754_zero false else S754_infinity false
      end
  | S754_finite false m e, _ => pow_pos f m e y
  | S754_finite true m e, _ =>
      if is_int y then
        let r := pow_pos f m e y in
        if is_odd_int y then SFopp r else r
      else S754_nan
  end.

Definition is_zero (x : float) : bool :=
  match x with S754_zero _ => true | _ => false end.

(** [pow (x, 0)] and [pow (1, y)] are 1 even when the other argument is
    not a number. *)
Definition pow (f : format) (x y : float) : float :=
  let one := of_Z f 1 in
  if is_zero y || SFeqb x one then one else pow_cases f one x y.

End Fp.

Abbreviation float := spec_float.
Abbreviation f32 := Fp.binary32.
Abbreviation f64 := Fp.binary64.

(* ===================================================================== *)
(** * N-dimensional arrays: a shape and the samples in row-major order *)
(* ===================================================================== *)

Module Nd.
Local Open Scope nat_scope.

Record array (A : Type) := Arr { shape : list nat; data : list A }.
Arguments Arr {A} _ _.
Arguments shape {A} _.
Arguments data {A} _.

(** Number of samples of a shape. *)
Definition size (sh : list nat) : nat := fold_right Nat.mul 1 sh.

(** Flat position of a multi-index, and back. *)
Fixpoint ravel (sh idx : list nat) : nat :=
  match sh, idx with
  | _ :: sh', i :: idx' => i * size sh' + ravel sh' idx'
  | _, _ => 0
  end.

Fixpoint unravel (sh : list nat) (k : nat) : list nat :=
  match sh with
  | [] => []
  | _ :: sh' => k / size sh' :: unravel sh' (k mod size sh')
  end.

Definition in_bounds (sh idx : list nat) : Prop := Forall2 lt idx sh.

Definition wf {A} (a : array A) : Prop := length (data a) = size (shape a).

(** The array of the given shape whose sample at [idx] is [f idx]. *)
Definition init {A} (sh : list nat) (f : list nat -> A) : array A :=
  Arr sh (map (fun k => f (unravel sh k)) (seq 0 (size sh))).

Definition get {A} (d : A) (a : array A) (idx : list nat) : A :=
  nth (ravel (shape a) idx) (data a) d.

Definition amap {A B} (f : A -> B) (a : array A) : array B :=
  Arr (shape a) (map f (data a)).

(** The positions [0 .. size sh - 1] laid out in shape [sh]: the view of a
    freshly allocated, contiguous tensor. *)
Definition iota (sh : list nat) : array nat := Arr sh (seq 0 (size sh)).

(** ** Reshuffles.  Each takes a default sample [d], read where an index
    falls outside the source; no call below reads there. *)

(** [a.permute(dims)]: axis [i] of the result is axis [dims[i]] of [a]. *)
Fixpoint index_of (j : nat) (dims : list nat) : nat :=
  match dims with
  | [] => 0
  | x :: dims' => if x =? j then 0 else S (index_of j dims')
  end.

Definition permute {A} (d : A) (dims : list nat) (a : array A) : array A :=
  init (map (fun j => nth j (shape a) 0) dims)
       (fun idx => get d a (map (fun j => nth (index_of j dims) idx 0)
                                (seq 0 (length dims)))).

Definition is_permutation (dims : list nat) : bool :=
  forallb (fun j => existsb (Nat.eqb j) dims) (seq 0 (length dims)).

(** [a[..., lo:hi, ...]] on axis [ax]; Python clips both bounds. *)
Definition slice {A} (d : A) (ax lo hi : nat) (a : array A) : array A :=
  init (alter (fun n => Nat.min hi n - Nat.min lo n) ax (shape a))
       (fun idx => get d a (alter (fun i => i + lo) ax idx)).

(** [a[..., i, ...]] on axis [ax]: the axis disappears. *)
Definition select {A} (d : A) (ax i : nat) (a : array A) : array A :=
  init (delete ax (shape a))
       (fun idx => get d a (take ax idx ++ i :: drop ax idx)).

(** A new axis of length 1 at position [ax]; the samples stay in place. *)
Definition unsqueeze {A} (ax : nat) (a : array A) : array A :=
  Arr (take ax (shape a) ++ 1 :: drop ax (shape a)) (data a).

Definition reshape {A} (sh : list nat) (a : array A) : array A :=
  Arr sh (data a).

(** ** Broadcasting *)

Fixpoint broadcast_rev (a b : list nat) : option (list nat) :=
  match a, b with
  | [], l | l, [] => Some l
  | x :: a', y :: b' =>
      match broadcast_rev a' b' with
      | Some r =>
          if x =? y then Some (x :: r)
          else if x =? 1 then Some (y :: r)
          else if y =? 1 then Some (x :: r)
          else None
      | None => None
      end
  end.

Definition broadcast_shapes (a b : list nat) : option (list nat) :=
  match broadcast_rev (rev a) (rev b) with
  | Some r => Some (rev r)
  | None => None
  end.

(** The index into an array of shape [sh] that an index into the broadcast
    shape reads: leading axes dropped, axes of length 1 pinned to 0. *)
Definition bidx (sh idx : list nat) : list nat :=
  zip_with (fun n i => if n =? 1 then 0 else i) sh
           (drop (length idx - length sh) idx).

Definition broadcast_to {A} (d : A) (sh : list nat) (a : array A) : array A :=
  init sh (fun idx => get d a (bidx (shape a) idx)).

Definition zip2 {A B C} (da : A) (db : B) (f : A -> B -> C)
    (a : array A) (b : array B) : option (array C) :=
  match broadcast_shapes (shape a) (shape b) with
  | Some sh =>
      Some (init sh (fun idx => f (get da a (bidx (shape a) idx))
                                  (get db b (bidx (shape b) idx))))
  | None => None
  end.

(** ** Concatenation along an axis *)

Definition same_but (ax : nat) (sa sb : list nat) : bool :=
  (length sa =? length sb) && (ax <? length sa) &&
  forallb (fun k => (k =? ax) || (nth k sa 0 =? nth k sb 0))
          (seq 0 (length sa)).

Definition cat2 {A} (d : A) (ax : nat) (a b : array A) : option (array A) :=
  if same_but ax (shape a) (shape b) then
    let na := nth ax (shape a) 0 in
    Some (init (alter (fun n => n + nth ax (shape b) 0) ax (shape a))
               (fun idx => if nth ax idx 0 <? na then get d a idx
                           else get d b (alter (fun i => i - na) ax idx)))
  else None.

Fixpoint cat_from {A} (d : A) (ax : nat) (acc : array A) (l : list (array A))
    : option (array A) :=
  match l with
  | [] => Some acc
  | b :: l' =>
      match cat2 d ax acc b with
      | Some acc' => cat_from d ax acc' l'
      | None => None
      end
  end.

Definition cat {A} (d : A) (ax : nat) (l : list (array A)) : option (array A) :=
  match l with
  | [] => None
  | a :: l' => cat_from d ax a l'
  end.

End Nd.

(* ===================================================================== *)
(** * Python exceptions *)
(* ===================================================================== *)

(** The exception classes the module can raise, with their message: a
    constructor is the class of the exception object, [type(e)].
    [UFuncTypeError] is NumPy's subclass of [TypeError] for a ufunc whose
    result cannot be stored in the output array; [assert] raises
    [AssertionError] with its optional message; a bare
    [raise NotImplementedError] carries no argument.  Messages of errors
    raised inside NumPy and PyTorch are abbreviated. *)
Inductive exc :=
| TypeError (msg : string)
| UFuncTypeError (msg : string)
| ValueError (msg : string)
| IndexError (msg : string)
| RuntimeError (msg : string)
| AssertionError (msg : option string)
| NotImplementedError (arg : option string).

(** [isinstance(e, TypeError)], what [except TypeError] catches: the class
    itself and its subclass. *)
Definition is_TypeError (e : exc) : bool :=
  match e with
  | TypeError _ | UFuncTypeError _ => true
  | _ => false
  end.

Definition show_nat (n : nat) : string :=
  NilEmpty.string_of_uint (Nat.to_uint n).

(** [", ".join(l)]. *)
Fixpoint join_comma (l : list string) : string :=
  match l with
  | [] => EmptyString
  | [x] => x
  | x :: l' => String.append x (String.append ", " (join_comma l'))
  end.

(* ===================================================================== *)
(** * NumPy arrays *)
(* ===================================================================== *)

Module Np.

(** The real numeric dtypes. *)
Inductive dtype :=
| bool_ | uint8 | int8 | uint16 | int16 | int32 | int64
| float16 | float32 | float64.

Definition dtype_eqb (a b : dtype) : bool :=
  match a, b with
  | bool_, bool_ | uint8, uint8 | int8, int8 | uint16, uint16
  | int16, int16 | int32, int32 | int64, int64
  | float16, float16 | float32, float32 | float64, float64 => true
  | _, _ => false
  end.

(** [str(dtype)], as an f-string prints it. *)
Definition dtype_name (t : dtype) : string :=
  match t with
  | bool_ => "bool" | uint8 => "uint8" | int8 => "int8"
  | uint16 => "uint16" | int16 => "int16" | int32 => "int32"
  | int64 => "int64" | float16 => "float16" | float32 => "float32"
  | float64 => "float64"
  end.

(** The IEEE format of a floating dtype. *)
Definition float_format (t : dtype) : option Fp.format :=
  match t with
  | float16 => Some Fp.binary16
  | float32 => Some Fp.binary32
  | float64 => Some Fp.binary64
  | _ => None
  end.

(** One sample: an integer (integer and boolean dtypes) or a float. *)
Inductive scalar := SInt (z : Z) | SFloat (x : float).

Record ndarray := NdArray { dtype_of : dtype; arr : Nd.array scalar }.

Definition shape_of (a : ndarray) : list nat := Nd.shape (arr a).

(** Integers of a two's-complement type of [bits] bits. *)
Definition wrap_unsigned (bits z : Z) : Z := z mod 2 ^ bits.
Definition wrap_signed (bits z : Z) : Z :=
  (z + 2 ^ (bits - 1)) mod 2 ^ bits - 2 ^ (bits - 1).

Definition int_of (s : scalar) : Z :=
  match s with SInt z => z | SFloat x => Fp.trunc x end.

(** C's conversion of a float to a signed integer of [bits] bits as x86-64
    performs it: truncation toward zero, and the most negative integer for
    an infinity, a not-a-number or a value that does not fit. *)
Definition to_int (bits : Z) (x : float) : Z :=
  let z := Fp.trunc x in
  if Fp.is_finite x && (- 2 ^ (bits - 1) <=? z) && (z <? 2 ^ (bits - 1))
  then z else - 2 ^ (bits - 1).

(** The integer a sample has on its way to an integer dtype: a float is
    converted to a 32-bit integer, or to a 64-bit one for [int64]. *)
Definition int_via (bits : Z) (s : scalar) : Z :=
  match s with SInt z => z | SFloat x => to_int bits x end.

(** Conversion of one sample to a dtype ([ndarray.astype]).  A float goes
    to an integer dtype by C's conversion; for a value the dtype cannot
    hold C leaves the result open, and it is here what x86-64 gives: the
    narrow dtypes keep the low bits of the 32-bit integer, so a value that
    fits 32 bits wraps and any other converts to 0. *)
Definition convert (t : dtype) (s : scalar) : scalar :=
  match float_format t with
  | Some f =>
      SFloat match s with SInt z => Fp.of_Z f z | SFloat x => Fp.cast f x end
  | None =>
      SInt match t with
           | bool_ => match s with
                      | SInt z => if z =? 0 then 0 else 1
                      | SFloat x => if Fp.is_zero x then 0 else 1
                      end
           | uint8 => wrap_unsigned 8 (int_via 32 s)
           | uint16 => wrap_unsigned 16 (int_via 32 s)
           | int8 => wrap_signed 8 (int_via 32 s)
           | int16 => wrap_signed 16 (int_via 32 s)
           | int32 => wrap_signed 32 (int_via 32 s)
           | _ => wrap_signed 64 (int_via 64 s)
           end
  end.

(** [a.astype(t)]: always a new array. *)
Definition astype (t : dtype) (a : ndarray) : ndarray :=
  NdArray t (Nd.amap (convert t) (arr a)).

(** The sample as a binary64 value (exact for every dtype above). *)
Definition as64 (s : scalar) : float :=
  match s with SInt z => Fp.of_Z f64 z | SFloat x => Fp.cast f64 x end.

Definition as_float (f : Fp.format) (s : scalar) : float :=
  match s with SInt z => Fp.of_Z f z | SFloat x => Fp.cast f x end.

(** [a /= c] with [c] a Python float: in place, so the quotient must fit
    the dtype of [a]; a floating array divides in its own format, an
    integer array refuses.  Returns the array as it is afterwards. *)
Definition idiv (a : ndarray) (c : float) : exc + ndarray :=
  match float_format (dtype_of a) with
  | Some f =>
      inr (NdArray (dtype_of a)
             (Nd.amap (fun s => SFloat (Fp.div f (as_float f s) (Fp.cast f c)))
                      (arr a)))
  | None =>
      inl (UFuncTypeError
             (String.append "Cannot cast ufunc 'divide' output to "
                            (dtype_name (dtype_of a))))
  end.

(** [a.round()]: ties to even on floats, nothing to do on integers. *)
Definition round (a : ndarray) : ndarray :=
  match float_format (dtype_of a) with
  | Some f =>
      NdArray (dtype_of a)
        (Nd.amap (fun s => SFloat (Fp.rint f (as_float f s))) (arr a))
  | None => a
  end.

(** [a * n] with [n] a Python int on a float32 array: stays float32. *)
Definition mul_int32 (a : ndarray) (n : Z) : ndarray :=
  NdArray float32
    (Nd.amap (fun s => SFloat (Fp.mul f32 (as_float f32 s) (Fp.of_Z f32 n)))
             (arr a)).

(** [a + c] and [a * c] with [c] a Python float on a float64 array. *)
Definition add_float64 (a : ndarray) (c : float) : ndarray :=
  NdArray float64
    (Nd.amap (fun s => SFloat (Fp.add f64 (as64 s) c)) (arr a)).

Definition mul_float64 (a : ndarray) (c : float) : ndarray :=
  NdArray float64
    (Nd.amap (fun s => SFloat (Fp.mul f64 (as64 s) c)) (arr a)).

(** Sum of products in binary64, left to right. *)
Definition sum64 (l : list float) : float :=
  match l with
  | [] => S754_zero false
  | x :: l' => fold_left (Fp.add f64) l' x
  end.

Definition dot64 (xs ws : list float) : float :=
  sum64 (zip_with (Fp.mul f64) xs ws).

Definition NaN : scalar := SFloat S754_nan.

(** The samples [a[idx, 0], a[idx, 1], ...] along the last axis. *)
Definition last_axis (a : Nd.array scalar) (n : nat) (idx : list nat)
    : list float :=
  map (fun c => as64 (Nd.get NaN a (idx ++ [c]))) (seq 0 n).

(** [np.dot(a, w)] with [w] a Python list of floats: [w] becomes a 1-D
    float64 array, so the result is float64.  A 0-d [a] scales [w]; else
    the last axis of [a] is contracted with [w]. *)
Definition dot (a : ndarray) (w : list float) : exc + ndarray :=
  match shape_of a with
  | [] =>
      let x := as64 (Nd.get NaN (arr a) []) in
      inr (NdArray float64
             (Nd.Arr [length w] (map (fun c => SFloat (Fp.mul f64 x c)) w)))
  | sh =>
      if Nat.eqb (List.last sh O) (length w) then
        inr (NdArray float64
               (Nd.init (removelast sh)
                  (fun idx => SFloat (dot64 (last_axis (arr a) (length w) idx) w))))
      else inl (ValueError "shapes not aligned")
  end.

(** [np.matmul(a, np.array(m))] with [m] a Python list of rows of floats:
    float64.  A 0-d [a] is refused; else the last axis of [a] is contracted
    with the rows of [m]. *)
Definition matmul (a : ndarray) (m : list (list float)) : exc + ndarray :=
  let cols := length (hd [] m) in
  match shape_of a with
  | [] => inl (ValueError "matmul: Input operand 0 does not have enough dimensions")
  | sh =>
      if Nat.eqb (List.last sh O) (length m) then
        inr (NdArray float64
               (Nd.init (removelast sh ++ [cols])
                  (fun idx =>
                     let j := List.last idx O in
                     SFloat (dot64 (last_axis (arr a) (length m) (removelast idx))
                                   (map (fun row => nth j row (S754_zero false)) m)))))
      else inl (ValueError "matmul: Input operand 1 has a mismatch in its core dimension 0")
  end.

(** [a + v] with [v] a Python list of floats on a float64 array: [v]
    becomes a 1-D float64 array and the two broadcast. *)
Definition add_list64 (a : ndarray) (v : list float) : exc + ndarray :=
  match Nd.zip2 NaN (S754_zero false)
          (fun s c => SFloat (Fp.add f64 (as64 s) c))
          (arr a) (Nd.Arr [length v] v) with
  | Some r => inr (NdArray float64 r)
  | None => inl (ValueError "operands could not be broadcast together")
  end.

(** ** What a Python name can be bound to in this module *)

(** An item of a list display: an int literal, a NumPy scalar or an
    array. *)
Inductive pyitem :=
| PyInt (z : Z)
| PyFloat (x : float)
| PyItemArray (a : ndarray).

Inductive pyobj :=
| PyArray (a : ndarray)
| PyScalar (x : scalar)
| PyList (l : list pyitem).

(** What an arithmetic call hands back: NumPy returns a scalar, not an
    array, where the result has no axis left ([np.dot] of two vectors). *)
Definition unbox (a : ndarray) : pyobj :=
  match shape_of a with
  | [] => PyScalar (Nd.get NaN (arr a) [])
  | _ => PyArray a
  end.

(** The items [*a] unpacks: iteration over the first axis.  The items of a
    1-D array are NumPy scalars, those of a higher one are sub-arrays. *)
Definition iterate (a : ndarray) : exc + list pyitem :=
  match shape_of a with
  | [] => inl (TypeError "iteration over a 0-d array")
  | [n] =>
      inr (map (fun s => match s with
                         | SFloat x => PyFloat x
                         | SInt z => PyInt z
                         end) (Nd.data (arr a)))
  | n :: _ =>
      inr (map (fun i => PyItemArray (NdArray (dtype_of a)
                                        (Nd.select NaN 0 i (arr a))))
               (seq 0 n))
  end.

End Np.

(* ===================================================================== *)
(** * The exception monad of the NumPy functions *)
(* ===================================================================== *)

Definition ebind {A B} (m : exc + A) (k : A -> exc + B) : exc + B :=
  match m with
  | inl e => inl e
  | inr a => k a
  end.

Declare Scope err_scope.
Delimit Scope err_scope with err.
Notation "'let!' x ':=' m 'in' k" := (ebind m (fun x => k))
  (at level 10, x name, m at level 100, k at level 200) : err_scope.

(* ===================================================================== *)
(** * color_util.py, NumPy half *)
(* ===================================================================== *)

Section ColorNp.
Import Np.
Local Open Scope err_scope.
Local Open Scope string_scope.

(** The Python float of a decimal literal with three decimals. *)
Local Notation "n /1000" := (Fp.lit n 1000) (at level 1, format "n /1000").

(** [_convert_input_type_range(img)].  The division is in place, on the
    array [astype] has just made. *)
Definition _convert_input_type_range (img : ndarray) : exc + ndarray :=
  let img_type := dtype_of img in
  let img := astype float32 img in
  if dtype_eqb img_type float32 then inr img
  else if dtype_eqb img_type uint8 then idiv img (Fp.lit 255 1)
  else inl (TypeError
              (String.append
                 "The img type should be np.float32 or np.uint8, but got "
                 (dtype_name img_type))).

(** [_convert_output_type_range(img, dst_type)].  [img /= 255.0] divides
    the caller's array in place: the second component is that array as the
    call leaves it, whether the call returns or raises. *)
Definition _convert_output_type_range (img : ndarray) (dst_type : dtype)
    : (exc + ndarray) * ndarray :=
  if negb (existsb (dtype_eqb dst_type) [uint8; float32]) then
    (inl (TypeError
            (String.append
               "The dst_type should be np.float32 or np.uint8, but got "
               (dtype_name dst_type))), img)
  else if dtype_eqb dst_type uint8 then
    (inr (astype dst_type (round img)), img)
  else
    match idiv img (Fp.lit 255 1) with
    | inr img' => (inr (astype dst_type img'), img')
    | inl e => (inl e, img)
    end.

(** [rgb2ycbcr(img, y_only)].  With [y_only] false, [out_img] is bound to a
    list display (the unpacked rows of the product followed by three ints),
    and the [assert] that follows tests it; with [y_only] true it is what
    [np.dot(...) + 16.0] evaluates to. *)
Definition rgb2ycbcr (img : ndarray) (y_only : bool) : exc + ndarray :=
  let img_type := dtype_of img in
  let! img := _convert_input_type_range img in
  let! out_img :=
    if y_only then
      let! d := dot img [65481/1000; 128553/1000; 24966/1000] in
      inr (unbox (add_float64 d (Fp.lit 16 1)))
    else
      let! m := matmul img
                  [ [65481/1000; (-37797)/1000; 112000/1000];
                    [128553/1000; (-74203)/1000; (-93786)/1000];
                    [24966/1000; 112000/1000; (-18214)/1000] ] in
      let! items := iterate m in
      inr (PyList (items ++ [PyInt 16; PyInt 128; PyInt 128]))
  in
  match out_img with (* assert isinstance(out_img, np.ndarray) *)
  | PyArray out_img => fst (_convert_output_type_range out_img img_type)
  | PyScalar _ | PyList _ => inl (AssertionError None)
  end.

(** [bgr2ycbcr(img, y_only)]. *)
Definition bgr2ycbcr (img : ndarray) (y_only : bool) : exc + ndarray :=
  let img_type := dtype_of img in
  let! img := _convert_input_type_range img in
  let! out_img :=
    if y_only then
      let! d := dot img [24966/1000; 128553/1000; 65481/1000] in
      inr (unbox (add_float64 d (Fp.lit 16 1)))
    else
      let! m := matmul img
                  [ [24966/1000; 112000/1000; (-18214)/1000];
                    [128553/1000; (-74203)/1000; (-93786)/1000];
                    [65481/1000; (-37797)/1000; 112000/1000] ] in
      let! items := iterate m in
      inr (PyList (items ++ [PyInt 16; PyInt 128; PyInt 128]))
  in
  match out_img with (* assert isinstance(out_img, np.ndarray) *)
  | PyArray out_img => fst (_convert_output_type_range out_img img_type)
  | PyScalar _ | PyList _ => inl (AssertionError None)
  end.

Local Notation "n /e8" := (Fp.lit n 100000000) (at level 1, format "n /e8").

(** [ycbcr2rgb(img)]. *)
Definition ycbcr2rgb (img : ndarray) : exc + ndarray :=
  let img_type := dtype_of img in
  let! img := _convert_input_type_range img in
  let img := mul_int32 img 255 in
  let! m := matmul img
              [ [456621/e8; 456621/e8; 456621/e8];
                [Fp.of_Z f64 0; (-153632)/e8; 791071/e8];
                [625893/e8; (-318811)/e8; Fp.of_Z f64 0] ] in
  let! out_img := add_list64 (mul_float64 m (Fp.lit 255 1))
                    [(-222921)/1000; 135576/1000; (-276836)/1000] in
  fst (_convert_output_type_range out_img img_type).

(** [ycbcr2bgr(img)]. *)
Definition ycbcr2bgr (img : ndarray) : exc + ndarray :=
  let img_type := dtype_of img in
  let! img := _convert_input_type_range img in
  let img := mul_int32 img 255 in
  let! m := matmul img
              [ [456621/e8; 456621/e8; 456621/e8];
                [791071/e8; (-153632)/e8; Fp.of_Z f64 0];
                [Fp.of_Z f64 0; (-318811)/e8; 625893/e8] ] in
  let! out_img := add_list64 (mul_float64 m (Fp.lit 255 1))
                    [(-276836)/1000; 135576/1000; (-222921)/1000] in
  fst (_convert_output_type_range out_img img_type).

End ColorNp.

(* ===================================================================== *)
(** * PyTorch tensors over a store *)
(* ===================================================================== *)

Module Torch.
Import Nd.
Local Open Scope string_scope.
Local Open Scope list_scope.
Local Open Scope nat_scope.

Definition zero : float := S754_zero false.

(** Tensors are float32, PyTorch's default and the dtype the module's
    docstrings ask for; [.to(img)] then leaves the module's own constants
    as [torch.tensor] made them.

    A storage is a flat buffer of float32 samples; the store holds every
    storage allocated so far, in order of allocation. *)
Abbreviation storage := (list float).
Abbreviation store := (list storage).

(** A tensor is a view on one storage: [view] has the tensor's shape and
    holds, for each of its samples in row-major order, the position of
    that sample in the storage.  Views made from a tensor ([permute],
    slicing) keep its [base]. *)
Record Tensor := mkTensor { base : nat; view : array nat }.

Definition tshape (x : Tensor) : list nat := shape (view x).
Definition ndim (x : Tensor) : nat := length (tshape x).

(** [x.shape[-k]] for [k <= ndim x]. *)
Definition dim_from_end (x : Tensor) (k : nat) : nat :=
  nth (ndim x - k) (tshape x) 0.

(** [str(x.shape)]. *)
Definition show_size (sh : list nat) : string :=
  String.append "torch.Size(["
    (String.append (join_comma (map show_nat sh)) "])").

(** ** The monad: a store threaded through, or an exception raised *)

Definition M (A : Type) : Type := store -> (exc + A) * store.

Definition ret {A} (a : A) : M A := fun s => (inr a, s).
Definition raise {A} (e : exc) : M A := fun s => (inl e, s).
Definition bind {A B} (m : M A) (k : A -> M B) : M B :=
  fun s => match m s with
           | (inr a, s') => k a s'
           | (inl e, s') => (inl e, s')
           end.

Declare Scope torch_scope.
Delimit Scope torch_scope with torch.
Notation "'let*' x ':=' m 'in' k" := (bind m (fun x => k))
  (at level 10, x name, m at level 100, k at level 200) : torch_scope.
Local Open Scope torch_scope.

Definition cells (s : store) (l : nat) : storage := default [] (s !! l).

(** The samples a tensor denotes in a store. *)
Definition read (s : store) (x : Tensor) : array float :=
  amap (fun p => nth p (cells s (base x)) zero) (view x).

Definition load (x : Tensor) : M (array float) := fun s => (inr (read s x), s).

(** A new storage holding [a], and the contiguous tensor on it. *)
Definition new (a : array float) : M Tensor :=
  fun s => (inr (mkTensor (length s) (iota (shape a))), s ++ [data a]).

Definition of_option {A} (msg : string) (o : option A) : M A :=
  match o with
  | Some a => ret a
  | None => raise (RuntimeError msg)
  end.

(** ** The library calls the module makes *)

(** [torch.tensor(...)] of float32 samples, given with its shape. *)
Definition tensor (sh : list nat) (l : list float) : M Tensor := new (Arr sh l).

(** [x.permute(dims)]: a view. *)
Definition permute (dims : list nat) (x : Tensor) : M Tensor :=
  if (length dims =? ndim x) && is_permutation dims
  then ret (mkTensor (base x) (Nd.permute 0 dims (view x)))
  else raise (RuntimeError "permute: number of dimensions does not match the ordering").

(** [x[:, lo:hi, :, :]] ([hi] absent in [lo:]): a view; four indices need
    four axes. *)
Definition slice_view (lo : nat) (hi : option nat) (v : array nat) : array nat :=
  let n := nth 1 (shape v) 0 in
  slice 0 1 lo (default n hi) v.

Definition getitem_axis1 (lo : nat) (hi : option nat) (x : Tensor) : M Tensor :=
  if ndim x <? 4 then raise (IndexError "too many indices for tensor")
  else ret (mkTensor (base x) (slice_view lo hi (view x))).

(** [x[..., i, :, :]]: a view without the third axis from the end. *)
Definition getitem_axis3_from_end (i : nat) (x : Tensor) : M Tensor :=
  if ndim x <? 3 then raise (IndexError "too many indices for tensor")
  else if dim_from_end x 3 <=? i then raise (IndexError "index out of range")
  else ret (mkTensor (base x) (select 0 (ndim x - 3) i (view x))).

(** [x[..., :, None, None]]: a view with two axes of length 1 appended. *)
Definition getitem_append_two_axes (x : Tensor) : M Tensor :=
  if ndim x <? 1 then raise (IndexError "too many indices for tensor")
  else ret (mkTensor (base x) (reshape (tshape x ++ [1; 1]) (view x))).

(** Leading axes of length 1 are dropped from the value of an indexed
    assignment before it is expanded to the target. *)
Fixpoint strip_ones (sh : list nat) : list nat :=
  match sh with
  | 1 :: sh' => strip_ones sh'
  | _ => sh
  end.

Definition write_all (ps : list nat) (vs : list float) (c : storage) : storage :=
  fold_left (fun c pv => <[fst pv := snd pv]> c) (zip ps vs) c.

(** [x[:, lo:hi, :, :] = v]: writes through the slice into the storage of
    [x]. *)
Definition setitem_axis1 (lo : nat) (hi : option nat) (x v : Tensor) : M unit :=
  if ndim x <? 4 then raise (IndexError "too many indices for tensor")
  else
    let target := slice_view lo hi (view x) in
    let* a := load v in
    let a := reshape (strip_ones (shape a)) a in
    match broadcast_shapes (shape a) (shape target) with
    | Some sh =>
        if decide (sh = shape target) then
          fun s =>
            let c := write_all (data target)
                       (data (broadcast_to zero sh a)) (cells s (base x)) in
            (inr tt, <[base x := c]> s)
        else raise (RuntimeError "expanded size must match the existing size")
    | None => raise (RuntimeError "expanded size must match the existing size")
    end.

(** Arithmetic of a tensor with a Python number: a new tensor. *)
Definition map_t (f : float -> float) (x : Tensor) : M Tensor :=
  let* a := load x in new (amap f a).

Definition add_s (x : Tensor) (c : float) := map_t (fun v => Fp.add f32 v c) x.
Definition sub_s (x : Tensor) (c : float) := map_t (fun v => Fp.sub f32 v c) x.
Definition mul_s (x : Tensor) (c : float) := map_t (fun v => Fp.mul f32 v c) x.
Definition div_s (x : Tensor) (c : float) := map_t (fun v => Fp.div f32 v c) x.

(** [torch.pow(x, c)]: [c] stays the Python float, a binary64 value; the
    samples are those of the reference power (see [Fp.pow] for the kernels
    of PyTorch and how far they are from it). *)
Definition pow_s (x : Tensor) (c : float) := map_t (fun v => Fp.pow f32 v c) x.

(** Arithmetic of two tensors, with broadcasting: a new tensor. *)
Definition zip_t (f : float -> float -> float) (x y : Tensor) : M Tensor :=
  let* a := load x in
  let* b := load y in
  let* r := of_option "shapes cannot be broadcast" (zip2 zero zero f a b) in
  new r.

Definition add := zip_t (Fp.add f32).
Definition sub := zip_t (Fp.sub f32).
Definition mul := zip_t (Fp.mul f32).
Definition div := zip_t (Fp.div f32).

(** [x <= c] and [x > c]: the mask is only ever passed to [torch.where],
    so it is kept as a value. *)
Definition le_s (x : Tensor) (c : float) : M (array bool) :=
  let* a := load x in ret (amap (fun v => Fp.leb v c) a).
Definition gt_s (x : Tensor) (c : float) : M (array bool) :=
  let* a := load x in ret (amap (fun v => Fp.ltb c v) a).

(** [torch.where(cond, x, y)]. *)
Definition where_ (cond : array bool) (x y : Tensor) : M Tensor :=
  let* a := load x in
  let* b := load y in
  let* picked := of_option "shapes cannot be broadcast"
                   (zip2 false zero (fun c v => (c, v)) cond a) in
  let* r := of_option "shapes cannot be broadcast"
              (zip2 (false, zero) zero
                    (fun cv w => if fst cv then snd cv else w) picked b) in
  new r.

(** [min(max(v, lo), hi)], each bound optional; not-a-number stays. *)
Definition clamp1 (lo hi : option float) (v : float) : float :=
  match v with
  | S754_nan => v
  | _ =>
      let v := match lo with
               | Some l => if Fp.ltb v l then l else v
               | None => v
               end in
      match hi with
      | Some h => if Fp.ltb h v then h else v
      | None => v
      end
  end.

Definition clamp (x : Tensor) (lo hi : option float) : M Tensor :=
  map_t (clamp1 lo hi) x.

(** Sum of products in binary32, left to right. *)
Definition sum32 (l : list float) : float :=
  match l with
  | [] => zero
  | v :: l' => fold_left (Fp.add f32) l' v
  end.

Definition dot32 (xs ws : list float) : float :=
  sum32 (zip_with (Fp.mul f32) xs ws).

Definition last_axis (a : array float) (n : nat) (idx : list nat) : list float :=
  map (fun c => get zero a (idx ++ [c])) (seq 0 n).

(** [a @ w] for a vector or a matrix [w] (the module multiplies by its own
    constant weights only): the last axis of [a] is contracted. *)
Definition matmul_arrays (a w : array float) : option (array float) :=
  match shape a, shape w with
  | [], _ => None
  | sa, [k] =>
      if List.last sa 0 =? k
      then Some (init (removelast sa)
                   (fun idx => dot32 (last_axis a k idx) (data w)))
      else None
  | sa, [k; m] =>
      if List.last sa 0 =? k
      then Some (init (removelast sa ++ [m])
                   (fun idx =>
                      dot32 (last_axis a k (removelast idx))
                            (map (fun c => get zero w [c; List.last idx 0])
                                 (seq 0 k))))
      else None
  | _, _ => None
  end.

Definition matmul (x w : Tensor) : M Tensor :=
  let* a := load x in
  let* b := load w in
  let* r := of_option "mat1 and mat2 shapes cannot be multiplied"
              (matmul_arrays a b) in
  new r.

Fixpoint load_all (l : list Tensor) : M (list (array float)) :=
  match l with
  | [] => ret []
  | x :: l' => let* a := load x in let* r := load_all l' in ret (a :: r)
  end.

(** [torch.cat(l, dim=ax)]. *)
Definition cat (ax : nat) (l : list Tensor) : M Tensor :=
  let* arrays := load_all l in
  let* r := of_option "Sizes of tensors must match except in the cat dimension"
              (Nd.cat zero ax arrays) in
  new r.

(** [torch.stack(l, dim=-3)]: the tensors must have one shape; each gets a
    new axis third from the end of the result, along which they are
    concatenated. *)
Definition stack_axis3_from_end (l : list Tensor) : M Tensor :=
  let* arrays := load_all l in
  match arrays with
  | [] => raise (RuntimeError "stack expects a non-empty TensorList")
  | a :: rest =>
      if forallb (fun b => bool_decide (shape b = shape a)) rest then
        if length (shape a) <? 2
        then raise (IndexError "Dimension out of range")
        else
          let ax := length (shape a) - 2 in
          let* r := of_option "Sizes of tensors must match"
                      (Nd.cat zero ax (map (unsqueeze ax) arrays)) in
          new r
      else raise (RuntimeError "stack expects each tensor to be equal size")
  end.

End Torch.

(* ===================================================================== *)
(** * color_util.py, PyTorch half *)
(* ===================================================================== *)

Section ColorPt.
Import Nd Torch.
Local Open Scope string_scope.
Local Open Scope list_scope.
Local Open Scope nat_scope.
Local Open Scope torch_scope.

(** A Python float next to a float32 tensor: [n/d] rounded to binary64 by
    Python, then to binary32 by PyTorch. *)
Local Notation "n /: d" := (Fp.lit32 n%Z d%Z) (at level 1, format "n /: d").
(** A Python int next to a float32 tensor. *)
Local Notation "# n" := (Fp.of_Z f32 n%Z) (at level 1, format "# n").

(** Modelled from the spec: the type alias [PixelFormat] of
    [traiNNer/utils/types.py], which is not part of the sources at hand;
    the spec lists its five tags.  Python does not enforce the alias, so
    the dispatchers below take any string. *)
Definition PixelFormat : list string := ["rgb"; "gray"; "yuv444"; "y"; "uv"].

(** [rgb2ycbcr_pt(img, y_only)].  [bias] is the float32 tensor that
    [.to(img)] makes of the integer one. *)
Definition rgb2ycbcr_pt (img : Tensor) (y_only : bool) : M Tensor :=
  let* out_img :=
    if y_only then
      let* weight := tensor [3; 1] [65481/:1000; 128553/:1000; 24966/:1000] in
      let* p := permute [0; 2; 3; 1] img in
      let* m := matmul p weight in
      let* q := permute [0; 3; 1; 2] m in
      add_s q 16/:1
    else
      let* weight := tensor [3; 3]
                       [65481/:1000; (-37797)/:1000; 112/:1;
                        128553/:1000; (-74203)/:1000; (-93786)/:1000;
                        24966/:1000; 112/:1; (-18214)/:1000] in
      let* bias := tensor [1; 3; 1; 1] [#16; #128; #128] in
      let* p := permute [0; 2; 3; 1] img in
      let* m := matmul p weight in
      let* q := permute [0; 3; 1; 2] m in
      add q bias
  in
  div_s out_img 255/:1.

(** [ycbcr2rgb_pt(img)]. *)
Definition ycbcr2rgb_pt (img : Tensor) : M Tensor :=
  let* img_ycbcr := mul_s img 255/:1 in
  let* y := getitem_axis1 0 (Some 1) img_ycbcr in
  let* cb := getitem_axis1 1 (Some 2) img_ycbcr in
  let* cr := getitem_axis1 2 (Some 3) img_ycbcr in
  (* r = 1.164 * (y - 16) + 1.596 * (cr - 128) *)
  let* y16 := sub_s y #16 in
  let* r1 := mul_s y16 1164/:1000 in
  let* cr128 := sub_s cr #128 in
  let* r2 := mul_s cr128 1596/:1000 in
  let* r := add r1 r2 in
  (* g = 1.164 * (y - 16) - 0.392 * (cb - 128) - 0.813 * (cr - 128) *)
  let* y16 := sub_s y #16 in
  let* g1 := mul_s y16 1164/:1000 in
  let* cb128 := sub_s cb #128 in
  let* g2 := mul_s cb128 392/:1000 in
  let* g12 := sub g1 g2 in
  let* cr128 := sub_s cr #128 in
  let* g3 := mul_s cr128 813/:1000 in
  let* g := sub g12 g3 in
  (* b = 1.164 * (y - 16) + 2.017 * (cb - 128) *)
  let* y16 := sub_s y #16 in
  let* b1 := mul_s y16 1164/:1000 in
  let* cb128 := sub_s cb #128 in
  let* b2 := mul_s cb128 2017/:1000 in
  let* b := add b1 b2 in
  let* rgb := cat 1 [r; g; b] in
  div_s rgb 255/:1.

(** [rgb2pixelformat_pt(img, pixel_format)]. *)
Definition rgb2pixelformat_pt (img : Tensor) (pixel_format : string) : M Tensor :=
  if String.eqb pixel_format "rgb" then ret img
  else if String.eqb pixel_format "gray" then raise (NotImplementedError None)
  else if String.eqb pixel_format "yuv444" then rgb2ycbcr_pt img false
  else if String.eqb pixel_format "y" then
    let* t := rgb2ycbcr_pt img false in
    getitem_axis1 0 (Some 1) t
  else if String.eqb pixel_format "uv" then raise (NotImplementedError None)
  else raise (NotImplementedError (Some pixel_format)).

(** [pixelformat2rgb_pt(img, img_ref_rgb, pixel_format)]. *)
Definition pixelformat2rgb_pt (img : Tensor) (img_ref_rgb : option Tensor)
    (pixel_format : string) : M Tensor :=
  if String.eqb pixel_format "rgb" then ret img
  else if String.eqb pixel_format "gray" then raise (NotImplementedError None)
  else if String.eqb pixel_format "yuv444" then ycbcr2rgb_pt img
  else if String.eqb pixel_format "y" then
    match img_ref_rgb with
    | None => raise (AssertionError (Some "gt is required for luma pixel format"))
    | Some img_ref_rgb =>
        let* img_yuv := rgb2ycbcr_pt img_ref_rgb false in
        let* _ := setitem_axis1 0 (Some 1) img_yuv img in (* replace luma *)
        ycbcr2rgb_pt img_yuv
    end
  else if String.eqb pixel_format "uv" then
    match img_ref_rgb with
    | None => raise (AssertionError (Some "gt is required for chroma pixel format"))
    | Some img_ref_rgb =>
        let* img_yuv := rgb2ycbcr_pt img_ref_rgb false in
        let* _ := setitem_axis1 1 None img_yuv img in (* replace chroma *)
        ycbcr2rgb_pt img_yuv
    end
  else raise (NotImplementedError (Some pixel_format)).

(** The shape pattern of the messages, [c] being the channel count. *)
Definition shape_pattern (c : string) : string :=
  String.append "(" (String.append "*, " (String.append c ", H, W)")).

(** [rgb_to_luma(img)]: RGB to CIELAB L*. *)
Definition rgb_to_luma (img : Tensor) : M Tensor :=
  if (ndim img <? 3)
     || (negb (dim_from_end img 3 =? 3) && negb (dim_from_end img 3 =? 1))
  then
    raise (ValueError
             (String.append "Input size must have a shape of "
             (String.append (shape_pattern "3")
             (String.append " or "
             (String.append (shape_pattern "1")
             (String.append ". Got " (show_size (tshape img))))))))
  else
    let* p := permute [0; 2; 3; 1] img in
    let* out_img := clamp p (Some 1/:1000000000000) (Some #1) in
    let* low := le_s out_img 4045/:100000 in
    let* lin := div_s out_img 1292/:100 in
    let* g0 := add_s out_img 55/:1000 in
    let* g1 := div_s g0 1055/:1000 in
    let* gam := pow_s g1 (Fp.lit 24 10) in
    let* out_img := where_ low lin gam in
    let* out_img :=
      if dim_from_end img 3 =? 3 then
        let* w := tensor [3] [2126/:10000; 7152/:10000; 722/:10000] in
        matmul out_img w
      else ret out_img in
    let* low := le_s out_img 216/:24389 in
    let* k := mul_s out_img 24389/:27 in
    let* seg := mul out_img k in
    let* c0 := pow_s out_img (Fp.lit 1 3) in
    let* c1 := mul_s c0 #116 in
    let* cub := sub_s c1 #16 in
    let* out_img := where_ low seg cub in
    let* d := div_s out_img #100 in
    clamp d (Some #0) (Some #1).

(** [rgb_to_linear_rgb(image)]. *)
Definition rgb_to_linear_rgb (image : Tensor) : M Tensor :=
  if (ndim image <? 3) || negb (dim_from_end image 3 =? 3) then
    raise (ValueError
             (String.append "Input size must have a shape of "
             (String.append (shape_pattern "3")
             (String.append ".Got " (show_size (tshape image))))))
  else
    let* high := gt_s image 4045/:100000 in
    let* g0 := add_s image 55/:1000 in
    let* g1 := div_s g0 1055/:1000 in
    let* gam := pow_s g1 (Fp.lit 24 10) in
    let* lin := div_s image 1292/:100 in
    where_ high gam lin.

(** [rgb_to_xyz(image)]. *)
Definition rgb_to_xyz (image : Tensor) : M Tensor :=
  if (ndim image <? 3) || negb (dim_from_end image 3 =? 3) then
    raise (ValueError
             (String.append "Input size must have a shape of "
             (String.append (shape_pattern "3")
             (String.append ". Got " (show_size (tshape image))))))
  else
    let* r := getitem_axis3_from_end 0 image in
    let* g := getitem_axis3_from_end 1 image in
    let* b := getitem_axis3_from_end 2 image in
    let mix (cr cg cb : float) : M Tensor :=
      let* tr := mul_s r cr in
      let* tg := mul_s g cg in
      let* trg := add tr tg in
      let* tb := mul_s b cb in
      add trg tb in
    let* x := mix 412453/:1000000 357580/:1000000 180423/:1000000 in
    let* y := mix 212671/:1000000 715160/:1000000 72169/:1000000 in
    let* z := mix 19334/:1000000 119193/:1000000 950227/:1000000 in
    stack_axis3_from_end [x; y; z].

(** [linear_rgb_to_lab_norm(lin_rgb)]. *)
Definition linear_rgb_to_lab_norm (lin_rgb : Tensor) : M Tensor :=
  if (ndim lin_rgb <? 3) || negb (dim_from_end lin_rgb 3 =? 3) then
    raise (ValueError
             (String.append "Input size must have a shape of "
             (String.append (shape_pattern "3")
             (String.append ". Got " (show_size (tshape lin_rgb))))))
  else
    let* xyz_im := rgb_to_xyz lin_rgb in
    (* normalize for D65 white point *)
    let* white := tensor [3] [95047/:100000; 1/:1; 108883/:100000] in
    let* xyz_ref_white := getitem_append_two_axes white in
    let* xyz_normalized := div xyz_im xyz_ref_white in
    let threshold := 8856/:1000000 in
    let* clamped := clamp xyz_normalized (Some threshold) None in
    let* power := pow_s clamped (Fp.lit 1 3) in
    let* s0 := mul_s xyz_normalized 7787/:1000 in
    let* scale := add_s s0 4/:29 in
    let* high := gt_s xyz_normalized threshold in
    let* xyz_int := where_ high power scale in
    let* x := getitem_axis3_from_end 0 xyz_int in
    let* y := getitem_axis3_from_end 1 xyz_int in
    let* z := getitem_axis3_from_end 2 xyz_int in
    (* L = ((116.0 * y) - 16.0) / 100 *)
    let* l0 := mul_s y #116 in
    let* l1 := sub_s l0 #16 in
    let* L := div_s l1 #100 in
    (* a = ((500.0 * (x - y)) + 128) / 255 *)
    let* a0 := sub x y in
    let* a1 := mul_s a0 #500 in
    let* a2 := add_s a1 #128 in
    let* a := div_s a2 #255 in
    (* _b = (200.0 * (y - z) + 128) / 255 *)
    let* b0 := sub y z in
    let* b1 := mul_s b0 #200 in
    let* b2 := add_s b1 #128 in
    let* _b := div_s b2 #255 in
    stack_axis3_from_end [L; a; _b].

End ColorPt.

(* ===================================================================== *)
(** * Inputs used as examples *)
(* ===================================================================== *)

Section Examples.
Import Nd Np Torch.
Local Open Scope string_scope.
Local Open Scope list_scope.
Local Open Scope nat_scope.

(** The 1x1 image of the spec's example: pure red, 8-bit. *)
Definition red_pixel : ndarray :=
  NdArray uint8 (Arr [1; 1; 3] [SInt 255; SInt 0; SInt 0]).

(** The integer samples of the array a NumPy call returned. *)
Definition samples (r : exc + ndarray) : exc + list Z :=
  match r with
  | inr a => inr (map int_of (data (arr a)))
  | inl e => inl e
  end.

(** A store with a 1x3x1x2 RGB tensor and a 1x1x1x2 luma tensor. *)
Definition luma_store : store :=
  [ [Fp.of_Z f32 1; Fp.of_Z f32 0; Fp.of_Z f32 0;
     Fp.of_Z f32 1; Fp.of_Z f32 0; Fp.lit32 1 2];
    [Fp.lit32 1 2; Fp.lit32 1 4] ].
Definition luma_ref : Tensor := mkTensor 0 (iota [1; 3; 1; 2]).
Definition luma_img : Tensor := mkTensor 1 (iota [1; 1; 1; 2]).

(** A store with one white pixel, seen as a rank-3 and as a rank-4
    tensor. *)
Definition rank3_store : store :=
  [[Fp.of_Z f32 1; Fp.of_Z f32 1; Fp.of_Z f32 1]].
Definition rank3_white : Tensor := mkTensor 0 (iota [3; 1; 1]).
Definition rank4_white : Tensor := mkTensor 0 (iota [1; 3; 1; 1]).

(** Whether a tensor call returned. *)
Definition returns {A} (r : (exc + A) * store) : bool :=
  match fst r with inr _ => true | inl _ => false end.

(** The samples of the tensor a call returned, in row-major order. *)
Definition samples_of (r : (exc + Tensor) * store) : option (list float) :=
  match r with
  | (inr t, s) => Some (data (read s t))
  | (inl _, _) => None
  end.

(** A batch of one single-pixel image with the given channel samples, in
    a store of its own. *)
Definition pixel (channels : list float) : Tensor * store :=
  (mkTensor 0 (iota [1; length channels; 1; 1]), [channels]).

Definition on_pixel (f : Tensor -> M Tensor) (channels : list float)
    : option (list float) :=
  samples_of (f (fst (pixel channels)) (snd (pixel channels))).

End Examples.

(* ===================================================================== *)
(** * The embedding on small inputs *)
(* ===================================================================== *)

Section SmallInputs.
Import Nd Np Torch.
Local Open Scope string_scope.
Local Open Scope list_scope.
Local Open Scope nat_scope.

(** Python reads [65.481] as the double [0x1.05ec8b439581p+6], and PyTorch
    stores it as the float [8582726 * 2^-17]. *)
Example literal_65_481 :
  Fp.lit 65481 1000 = S754_finite false 4607815737497616 (-46)
  /\ Fp.lit32 65481 1000 = S754_finite false 8582726 (-17).
Proof. by vm_compute. Qed.

(** The reference power on binary32 bases, the exponent being the Python
    float: [8 ** (1 / 3)] and [0.5 ** 2.4]. *)
Example pow_samples :
  Fp.pow f32 (Fp.of_Z f32 8) (Fp.lit 1 3) = Fp.of_Z f32 2
  /\ Fp.pow f32 (Fp.lit32 1 2) (Fp.lit 24 10)
     = S754_finite false 12714752 (-26).
Proof. by vm_compute. Qed.

Example rint_ties_to_even :
  map (fun n => Fp.trunc (Fp.rint f64 (Fp.lit n 2))) [1; 3; 5; 7; -5]%Z
  = [0; 2; 2; 4; -2]%Z.
Proof. by vm_compute. Qed.

(** [permute(0, 2, 3, 1)] of the positions of a 1x3x1x2 tensor. *)
Example permute_nchw_to_nhwc :
  Nd.permute 0 [0; 2; 3; 1] (iota [1; 3; 1; 2])
  = Arr [1; 1; 2; 3] [0; 2; 4; 1; 3; 5].
Proof. by vm_compute. Qed.

(** The luma of 8-bit pure red is 81; the luma of a bare RGB triple is a
    NumPy scalar and fails the [assert]. *)
Example luma_of_red :
  samples (rgb2ycbcr red_pixel true) = inr [81%Z]
  /\ rgb2ycbcr (NdArray uint8 (Arr [3] [SInt 255; SInt 0; SInt 0])) true
     = inl (AssertionError None).
Proof. by vm_compute. Qed.

(** 8-bit YCbCr black and white convert back to RGB black and white. *)
Example ycbcr2rgb_black_and_white :
  samples (ycbcr2rgb (NdArray uint8 (Arr [2; 3]
             (map SInt [16; 128; 128; 235; 128; 128]%Z))))
  = inr [0; 0; 0; 255; 255; 255]%Z.
Proof. by vm_compute. Qed.

(** A dtype other than the two is refused by name. *)
Example int32_is_refused :
  rgb2ycbcr (NdArray int32 (Arr [3] (map SInt [1; 2; 3]%Z))) true
  = inl (TypeError
           "The img type should be np.float32 or np.uint8, but got int32").
Proof. by vm_compute. Qed.

(** The tensor conversion of one red pixel returns a tensor on a storage
    of its own, not the input's. *)
Example rgb2ycbcr_pt_allocates :
  match rgb2ycbcr_pt (fst (pixel [Fp.of_Z f32 1; Fp.of_Z f32 0; Fp.of_Z f32 0]))
          false (snd (pixel [Fp.of_Z f32 1; Fp.of_Z f32 0; Fp.of_Z f32 0])) with
  | (inr t, s) => base t <> 0 /\ base t < length s /\ tshape t = [1; 3; 1; 1]
  | (inl _, _) => False
  end.
Proof. vm_compute. repeat split; lia. Qed.

(** Two channels: the message of [rgb_to_luma], in full. *)
Example two_channels_message :
  fst (rgb_to_luma (mkTensor 0 (iota [1; 2; 4; 4])) [[]])
  = inl (ValueError
           "Input size must have a shape of (*, 3, H, W) or (*, 1, H, W). Got torch.Size([1, 2, 4, 4])").
Proof. by vm_compute. Qed.

End SmallInputs.
(* ===================================================================== *)
(** * Facts about arrays *)
(* ===================================================================== *)

Module NdFacts.
Import Nd.
Local Open Scope nat_scope.

(** ** Index arithmetic *)

Lemma ravel_lt sh idx : in_bounds sh idx -> ravel sh idx < size sh.
Proof.
  intros H. induction H as [|i n idx sh Hi _ IH]; simpl; [lia|].
  nia.
Qed.

Lemma unravel_ravel sh idx :
  in_bounds sh idx -> unravel sh (ravel sh idx) = idx.
Proof.
  intros H. induction H as [|i n idx sh Hi Hr IH]; simpl; [done|].
  pose proof (ravel_lt _ _ Hr) as Hlt.
  assert (Hq : (i * size sh + ravel sh idx) / size sh = i).
  { rewrite Nat.add_comm, Nat.div_add by lia.
    rewrite Nat.div_small; lia. }
  assert (Hm : (i * size sh + ravel sh idx) mod size sh = ravel sh idx).
  { rewrite Nat.add_comm, Nat.Div0.mod_add. apply Nat.mod_small; lia. }
  by rewrite Hq, Hm, IH.
Qed.

Lemma unravel_in_bounds sh k : k < size sh -> in_bounds sh (unravel sh k).
Proof.
  revert k. induction sh as [|n sh IH]; intros k Hk; simpl in *.
  - constructor.
  - assert (size sh <> 0) by (intros E; rewrite E in Hk; lia).
    constructor.
    + apply Nat.Div0.div_lt_upper_bound; lia.
    + apply IH. apply Nat.mod_upper_bound; lia.
Qed.

Lemma ravel_unravel sh k : k < size sh -> ravel sh (unravel sh k) = k.
Proof.
  revert k. induction sh as [|n sh IH]; intros k Hk; simpl in *; [lia|].
  assert (size sh <> 0) by (intros E; rewrite E in Hk; lia).
  rewrite IH by (apply Nat.mod_upper_bound; lia).
  pose proof (Nat.div_mod_eq k (size sh)). lia.
Qed.

Lemma in_bounds_length sh idx : in_bounds sh idx -> length idx = length sh.
Proof. apply Forall2_length. Qed.

(** ** Reading what was built *)

Lemma wf_init {A} sh (f : list nat -> A) : wf (init sh f).
Proof. unfold wf; simpl. by rewrite length_map, length_seq. Qed.

Lemma wf_amap {A B} (f : A -> B) a : wf a -> wf (amap f a).
Proof. unfold wf; simpl. by rewrite length_map. Qed.

Lemma wf_iota sh : wf (iota sh).
Proof. unfold wf; simpl. by rewrite length_seq. Qed.

Lemma get_init {A} (d : A) sh f idx :
  in_bounds sh idx -> get d (init sh f) idx = f idx.
Proof.
  intros H. unfold get, init; simpl.
  pose proof (ravel_lt _ _ H) as Hlt.
  rewrite (nth_indep _ d (f (unravel sh 0)))
    by (by rewrite length_map, length_seq).
  rewrite (map_nth (fun k => f (unravel sh k)) (seq 0 (size sh)) 0).
  rewrite seq_nth by done. simpl. by rewrite unravel_ravel.
Qed.

Lemma get_amap {A B} (f : A -> B) (d : A) (d' : B) a idx :
  wf a -> in_bounds (shape a) idx ->
  get d' (amap f a) idx = f (get d a idx).
Proof.
  intros Hw H. unfold get, amap; simpl.
  pose proof (ravel_lt _ _ H) as Hlt.
  rewrite (nth_indep _ d' (f d)) by (rewrite length_map, Hw; done).
  apply map_nth.
Qed.

Lemma get_iota sh idx : in_bounds sh idx -> get 0 (iota sh) idx = ravel sh idx.
Proof.
  intros H. unfold get, iota; simpl.
  by rewrite seq_nth by (by apply ravel_lt).
Qed.

(** Two well-formed arrays of one shape with the same samples are equal. *)
Lemma array_ext {A} (d : A) (a b : array A) :
  wf a -> wf b -> shape a = shape b ->
  (forall idx, in_bounds (shape a) idx -> get d a idx = get d b idx) ->
  a = b.
Proof.
  destruct a as [sa da], b as [sb db]; unfold wf, get; simpl.
  intros Ha Hb <- H. f_equal.
  apply (nth_ext _ _ d d); [congruence|].
  intros k Hk. rewrite Ha in Hk.
  specialize (H _ (unravel_in_bounds _ _ Hk)).
  by rewrite ravel_unravel in H.
Qed.

Lemma in_bounds_nil : in_bounds [] [].
Proof. constructor. Qed.

Lemma in_bounds_cons n sh i idx :
  i < n -> in_bounds sh idx -> in_bounds (n :: sh) (i :: idx).
Proof. by constructor. Qed.

Lemma in_bounds4' N1 N2 N3 N4 idx :
  in_bounds [N1; N2; N3; N4] idx ->
  exists i1 i2 i3 i4,
    idx = [i1; i2; i3; i4] /\ i1 < N1 /\ i2 < N2 /\ i3 < N3 /\ i4 < N4.
Proof.
  intros Hi. unfold in_bounds in Hi.
  inversion Hi as [|i1 ? l1 ? Hn H1]; subst.
  inversion H1 as [|i2 ? l2 ? Hc H2]; subst.
  inversion H2 as [|i3 ? l3 ? Hh H3]; subst.
  inversion H3 as [|i4 ? l4 ? Hw H4]; subst.
  inversion H4; subst. by exists i1, i2, i3, i4.
Qed.

(** ** Reading through the reshuffles *)

Lemma in_bounds_slice ax lo hi sh idx :
  in_bounds (alter (fun n => Nat.min hi n - Nat.min lo n) ax sh) idx ->
  in_bounds sh (alter (fun i => i + lo) ax idx).
Proof.
  revert ax idx. induction sh as [|n sh IH]; intros ax idx H.
  - destruct ax; inversion H; subst; constructor.
  - destruct ax as [|ax]; inversion H; subst; simpl.
    + constructor; [lia|done].
    + constructor; [done|]. by apply IH.
Qed.

Lemma get_slice {A} (d : A) ax lo hi a idx :
  in_bounds (alter (fun n => Nat.min hi n - Nat.min lo n) ax (shape a)) idx ->
  get d (slice d ax lo hi a) idx = get d a (alter (fun i => i + lo) ax idx).
Proof. intros H. unfold slice. by rewrite get_init. Qed.

(** A slice of the positions, read, is the slice of what is read. *)
Lemma amap_slice {A B} (g : A -> B) (d : A) (d' : B) ax lo hi (v : array A) :
  wf v -> amap g (slice d ax lo hi v) = slice d' ax lo hi (amap g v).
Proof.
  intros Hw. unfold slice, init, amap at 1; simpl. f_equal.
  rewrite map_map. apply map_ext_in. intros k Hk. apply in_seq in Hk.
  symmetry. apply get_amap; [done|].
  apply (in_bounds_slice ax lo hi), unravel_in_bounds. lia.
Qed.

Lemma bidx_same sh idx : in_bounds sh idx -> bidx sh idx = idx.
Proof.
  intros H. unfold bidx. rewrite (Forall2_length _ _ _ H), Nat.sub_diag.
  rewrite drop_0. induction H as [|i n idx sh Hi _ IH]; simpl; [done|].
  rewrite IH. destruct (n =? 1) eqn:E; [|done].
  apply Nat.eqb_eq in E. f_equal. lia.
Qed.

Lemma broadcast_rev_same l : broadcast_rev l l = Some l.
Proof.
  induction l as [|x l IH]; simpl; [done|]. by rewrite IH, Nat.eqb_refl.
Qed.

Lemma broadcast_shapes_same sh : broadcast_shapes sh sh = Some sh.
Proof.
  unfold broadcast_shapes. by rewrite broadcast_rev_same, rev_involutive.
Qed.

(** Two arrays of one shape combine sample by sample. *)
Definition zip_same {A B C} (da : A) (db : B) (f : A -> B -> C)
    (a : array A) (b : array B) : array C :=
  init (shape a) (fun idx => f (get da a (bidx (shape a) idx))
                               (get db b (bidx (shape b) idx))).

Lemma zip2_same_shape {A B C} (da : A) (db : B) (f : A -> B -> C) a b :
  shape a = shape b -> zip2 da db f a b = Some (zip_same da db f a b).
Proof.
  intros E. unfold zip2, zip_same. by rewrite <- E, broadcast_shapes_same.
Qed.

Lemma get_zip_same {A B C} (da : A) (db : B) (dc : C) (f : A -> B -> C) a b idx :
  shape a = shape b -> in_bounds (shape a) idx ->
  get dc (zip_same da db f a b) idx = f (get da a idx) (get db b idx).
Proof.
  intros E H. unfold zip_same. rewrite get_init by done.
  rewrite <- E. by rewrite bidx_same.
Qed.

End NdFacts.

(* ===================================================================== *)
(** * The NumPy conversions *)
(* ===================================================================== *)

Section NumpyConversions.
Import Nd Np.
Local Open Scope string_scope.
Local Open Scope list_scope.

Lemma iterate_nonempty (m : ndarray) :
  shape_of m <> [] -> exists items, iterate m = inr items.
Proof.
  unfold iterate. destruct (shape_of m) as [|n [|n' sh]]; [done| |];
    intros _; by eexists.
Qed.

(** Whatever the matrix, binding a list display and then asserting that it
    is an array cannot return. *)
Lemma full_conversion_raises (img : ndarray) :
  exists e, rgb2ycbcr img false = inl e.
Proof.
  unfold rgb2ycbcr.
  destruct (_convert_input_type_range img) as [e|a]; simpl; [by eexists|].
  destruct (matmul a _) as [e|m]; simpl; [by eexists|].
  destruct (iterate m) as [e|items]; simpl; by eexists.
Qed.

Lemma full_conversion_bgr_raises (img : ndarray) :
  exists e, bgr2ycbcr img false = inl e.
Proof.
  unfold bgr2ycbcr.
  destruct (_convert_input_type_range img) as [e|a]; simpl; [by eexists|].
  destruct (matmul a _) as [e|m]; simpl; [by eexists|].
  destruct (iterate m) as [e|items]; simpl; by eexists.
Qed.

(** C1. [rgb2ycbcr(img, y_only=False)] was to return the three-channel
    BT.601 image, [[81, 90, 240]] for 8-bit pure red.  As written it
    returns for no image at all, and on pure red the [assert] fails. *)
Theorem rgb2ycbcr_three_channel_never_returns :
  (forall img, exists e, rgb2ycbcr img false = inl e)
  /\ rgb2ycbcr red_pixel false = inl (AssertionError None).
Proof.
  split; [apply full_conversion_raises|]. by vm_compute.
Qed.

(** C2. The round trips [ycbcr2rgb(rgb2ycbcr(img))] and
    [ycbcr2bgr(bgr2ycbcr(img))] never reach the inverse conversion: the
    forward one raises for every image, so nothing is reproduced. *)
Theorem ycbcr_round_trip_never_returns :
  (forall img, exists e, ebind (rgb2ycbcr img false) ycbcr2rgb = inl e)
  /\ (forall img, exists e, ebind (bgr2ycbcr img false) ycbcr2bgr = inl e)
  /\ ebind (rgb2ycbcr red_pixel false) ycbcr2rgb = inl (AssertionError None)
  /\ ebind (bgr2ycbcr red_pixel false) ycbcr2bgr = inl (AssertionError None).
Proof.
  split; [|split; [|split; by vm_compute]].
  - intros img. destruct (full_conversion_raises img) as [e ->]. by exists e.
  - intros img. destruct (full_conversion_bgr_raises img) as [e ->]. by exists e.
Qed.

(** C3. Whenever the luma-only call returns for an image with at least
    one axis, the three-channel call on the same image raises
    [AssertionError]: there is no first channel to compare the luma with. *)
Theorem luma_only_returns_and_full_raises (img y : ndarray) :
  rgb2ycbcr img true = inr y ->
  shape_of img <> [] ->
  rgb2ycbcr img false = inl (AssertionError None).
Proof.
  unfold rgb2ycbcr. intros Hy Hsh.
  destruct (_convert_input_type_range img) as [e|a] eqn:Hin; simpl in *;
    [done|].
  assert (Hsa : shape_of a = shape_of img).
  { unfold _convert_input_type_range in Hin.
    destruct (dtype_eqb _ float32); [by inversion Hin|].
    destruct (dtype_eqb _ uint8); [|done].
    unfold idiv in Hin; simpl in Hin. by inversion Hin. }
  unfold dot in Hy. unfold matmul. rewrite Hsa in *.
  destruct (shape_of img) as [|n sh] eqn:Himg; [done|].
  change (length [_; _; _]) with 3%nat in *.
  destruct (Nat.eqb (List.last (n :: sh) 0%nat) 3); [|done].
  cbn [ebind].
  match goal with
  | |- context [iterate ?m] =>
      destruct (iterate_nonempty m) as [items ->]; [|done]
  end.
  unfold shape_of; cbn [arr shape init]. by destruct (removelast (n :: sh)).
Qed.

Lemma luma_only_returns_and_full_raises_witness :
  samples (rgb2ycbcr red_pixel true) = inr [81%Z]
  /\ rgb2ycbcr red_pixel false = inl (AssertionError None).
Proof.
  split; [by vm_compute|].
  apply (luma_only_returns_and_full_raises red_pixel
           (NdArray uint8 (Arr [1; 1]%nat [SInt 81])));
    [by vm_compute | by vm_compute].
Defined.

End NumpyConversions.

(* ===================================================================== *)
(** * The range converters *)
(* ===================================================================== *)

Section RangeConverters.
Import Nd Np.
Local Open Scope string_scope.
Local Open Scope list_scope.

(** A finite sample that is already in a format converts to itself. *)
Lemma cast_valid (f : Fp.format) (x : float) :
  valid_binary (Fp.prec f) (Fp.emax f) x = true -> Fp.cast f x = x.
Proof.
  destruct x as [s|s| |s m e]; try done. simpl.
  unfold bounded, canonical_mantissa. intros H.
  apply andb_prop in H as [Hc He]. apply Z.eqb_eq in Hc.
  unfold binary_round. rewrite Hc. unfold shl_align. rewrite Z.sub_diag.
  unfold binary_round_aux, shr_fexp. cbn [Zdigits2]. rewrite Hc.
  rewrite Z.sub_diag. cbn. rewrite Hc, Z.sub_diag. cbn. by rewrite He.
Qed.

(** The samples a dtype can hold: an 8-bit unsigned integer, or a value of
    the dtype's floating format.  The other integer dtypes are not
    constrained here, no statement below reads their samples. *)
Definition has_dtype (t : dtype) (s : scalar) : Prop :=
  match float_format t, s with
  | Some f, SFloat x => valid_binary (Fp.prec f) (Fp.emax f) x = true
  | Some _, SInt _ => False
  | None, SInt z => t = uint8 -> (0 <= z < 256)%Z
  | None, SFloat _ => False
  end.

Definition well_typed (a : ndarray) : Prop :=
  Forall (has_dtype (dtype_of a)) (data (arr a)).

(** ** The converters in the spec's words *)

(** "If float, passes through unchanged.  If integer, divides by 255 and
    converts to float.  Any other dtype fails with a type error naming the
    offending dtype." *)
Definition normalize_to_unit_float (img : ndarray) : exc + ndarray :=
  match dtype_of img with
  | float32 => inr img
  | uint8 =>
      inr (NdArray float32
             (amap (fun s => SFloat (Fp.div f32 (Fp.of_Z f32 (int_of s))
                                                (Fp.of_Z f32 255)))
                   (arr img)))
  | t => inl (TypeError
                (String.append
                   "The img type should be np.float32 or np.uint8, but got "
                   (dtype_name t)))
  end.

Definition float_of (s : scalar) : float :=
  match s with SFloat x => x | SInt _ => S754_nan end.

(** "For integer target: rounds to nearest integer, casts.  For float
    target: divides by 255, casts.  Other values fail with a type error."
    The input is a floating array of format [f]. *)
Definition denormalize_from_unit_float (f : Fp.format) (img : ndarray)
    (dst_type : dtype) : exc + ndarray :=
  match dst_type with
  | uint8 =>
      inr (NdArray uint8
             (amap (fun s => SInt (wrap_unsigned 8
                                     (Fp.trunc (Fp.rint f (float_of s)))))
                   (arr img)))
  | float32 =>
      inr (NdArray float32
             (amap (fun s => SFloat
                               (Fp.cast f32
                                  (Fp.div f (float_of s)
                                     (Fp.cast f (Fp.of_Z f64 255)))))
                   (arr img)))
  | t => inl (TypeError
                (String.append
                   "The dst_type should be np.float32 or np.uint8, but got "
                   (dtype_name t)))
  end.

Definition recognized (t : dtype) : Prop := t = uint8 \/ t = float32.

(** The samples of a floating array that, once rounded, fit a 32-bit
    integer: those of the [0, 255] scale the converter is written for, and
    all those the conversion to [uint8] wraps. *)
Definition fits_int32 (f : Fp.format) (s : scalar) : Prop :=
  (- 2 ^ 31 <= Fp.trunc (Fp.rint f (float_of s)) < 2 ^ 31)%Z.

Definition in_range (f : Fp.format) (a : ndarray) : Prop :=
  Forall (fits_int32 f) (data (arr a)).

Lemma amap_ext_Forall {A B} (P : A -> Prop) (f g : A -> B) (a : array A) :
  Forall P (data a) -> (forall x, P x -> f x = g x) -> amap f a = amap g a.
Proof.
  intros H Hfg. unfold amap. f_equal.
  induction H as [|x l Hx _ IH]; simpl; [done|]. by rewrite Hfg, IH.
Qed.

Lemma amap_id_Forall {A} (P : A -> Prop) (f : A -> A) (a : array A) :
  Forall P (data a) -> (forall x, P x -> f x = x) -> amap f a = a.
Proof.
  intros H Hf. destruct a as [sh l]. unfold amap; simpl in *. f_equal.
  induction H as [|x l Hx _ IH]; simpl; [done|]. by rewrite Hf, IH.
Qed.

Lemma amap_amap {A B C} (f : A -> B) (g : B -> C) (a : array A) :
  amap g (amap f a) = amap (fun x => g (f x)) a.
Proof. unfold amap; simpl. by rewrite map_map. Qed.

(** An 8-bit integer is a binary32 value. *)
Lemma byte_is_binary32 (z : Z) :
  (0 <= z < 256)%Z -> Fp.cast f32 (Fp.of_Z f32 z) = Fp.of_Z f32 z.
Proof.
  intros Hz.
  assert (H : forallb (fun n => bool_decide
                (Fp.cast f32 (Fp.of_Z f32 (Z.of_nat n)) = Fp.of_Z f32 (Z.of_nat n)))
                (seq 0 256) = true) by (by vm_compute).
  rewrite forallb_forall in H.
  specialize (H (Z.to_nat z)). rewrite Z2Nat.id in H by lia.
  assert (Hin : In (Z.to_nat z) (seq 0 256)) by (apply in_seq; lia).
  apply H in Hin. by apply bool_decide_eq_true in Hin.
Qed.

(** Where the truncation fits 32 bits the low byte of the converted
    integer is that of the truncation. *)
Lemma low_byte_of_to_int (y : float) :
  (- 2 ^ 31 <= Fp.trunc y < 2 ^ 31)%Z ->
  wrap_unsigned 8 (to_int 32 y) = wrap_unsigned 8 (Fp.trunc y).
Proof.
  intros [Hlo Hhi]. unfold to_int.
  destruct (Fp.is_finite y) eqn:Hfin.
  - apply Z.leb_le in Hlo. apply Z.ltb_lt in Hhi.
    change (32 - 1)%Z with 31%Z. by rewrite Hlo, Hhi.
  - by destruct y.
Qed.

Lemma normalize_refines (img : ndarray) :
  well_typed img ->
  _convert_input_type_range img = normalize_to_unit_float img.
Proof.
  intros Hwt. unfold _convert_input_type_range, normalize_to_unit_float.
  destruct img as [t a]; simpl in *. unfold well_typed in Hwt; simpl in Hwt.
  destruct t; simpl; try done.
  - (* uint8 *)
    unfold idiv, astype; simpl. rewrite amap_amap. do 2 f_equal.
    apply (amap_ext_Forall (has_dtype uint8)); [done|].
    intros [z|x] Hx; [|done]. simpl in *.
    rewrite byte_is_binary32 by auto. by vm_compute (Fp.cast f32 (Fp.lit 255 1)).
  - (* float32 *)
    unfold astype; simpl. do 2 f_equal.
    apply (amap_id_Forall (has_dtype float32)); [done|].
    intros [z|x] Hx; [done|]. unfold convert; simpl in *. f_equal.
    by apply (cast_valid f32).
Qed.

Lemma as_float_valid (f : Fp.format) (t : dtype) (s : scalar) :
  float_format t = Some f -> has_dtype t s -> as_float f s = float_of s.
Proof.
  intros Hf. destruct s as [z|x]; unfold has_dtype; rewrite Hf; [done|].
  simpl. apply cast_valid.
Qed.

Lemma denormalize_refines (f : Fp.format) (img : ndarray) (dst_type : dtype) :
  float_format (dtype_of img) = Some f ->
  well_typed img -> (dst_type = uint8 -> in_range f img) ->
  fst (_convert_output_type_range img dst_type)
  = denormalize_from_unit_float f img dst_type.
Proof.
  intros Hf Hwt Hin. unfold _convert_output_type_range, denormalize_from_unit_float.
  destruct img as [t a]; simpl in *.
  unfold well_typed in Hwt; unfold in_range in Hin; simpl in Hwt, Hin.
  pose proof (as_float_valid f t) as Hs. specialize (fun s => Hs s Hf).
  destruct dst_type; simpl; try done.
  - (* uint8 *)
    unfold round, astype; simpl. rewrite Hf; simpl. rewrite amap_amap.
    do 2 f_equal.
    apply (amap_ext_Forall (fun s => has_dtype t s /\ fits_int32 f s));
      [apply Forall_and; auto|].
    intros s [Hx Hfit]. simpl. rewrite Hs by done.
    unfold convert; cbn [float_format int_via]. f_equal.
    by apply low_byte_of_to_int.
  - (* float32 *)
    unfold idiv, astype; simpl. rewrite Hf; simpl. rewrite amap_amap.
    do 2 f_equal. apply (amap_ext_Forall (has_dtype t)); [done|].
    intros s Hx. simpl. rewrite Hs by done. do 3 f_equal.
Qed.

Lemma dtype_name_inj (a b : dtype) : dtype_name a = dtype_name b -> a = b.
Proof. by destruct a, b. Qed.

(** On a floating array the output converter raises nothing but its own
    [TypeError], and only for a target that is neither of the two. *)
Lemma convert_output_error (f : Fp.format) (out : ndarray) (dst_type : dtype)
    (e : exc) :
  float_format (dtype_of out) = Some f ->
  fst (_convert_output_type_range out dst_type) = inl e ->
  ~ recognized dst_type
  /\ e = TypeError (String.append
           "The dst_type should be np.float32 or np.uint8, but got "
           (dtype_name dst_type)).
Proof.
  intros Hf. unfold _convert_output_type_range, recognized, idiv. rewrite Hf.
  destruct dst_type; simpl; intros He; try done;
    (split; [by intros [?|?]|congruence]).
Qed.

(** An integer array is outside the converter's domain: with the float32
    target the in-place division is refused by NumPy, with an instance of
    [TypeError] that is not the converter's own, and the array is left as
    it was. *)
Remark convert_output_of_integer_array (img : ndarray) :
  float_format (dtype_of img) = None ->
  _convert_output_type_range img float32
  = (inl (UFuncTypeError
            (String.append "Cannot cast ufunc 'divide' output to "
                           (dtype_name (dtype_of img)))), img).
Proof.
  intros Hf. unfold _convert_output_type_range, idiv. by rewrite Hf.
Qed.

(** A float64 array of the [0, 255] scale, as the conversions hand it to
    the output converter: 254.5 is a tie and rounds to the even 254. *)
Definition scaled_samples : ndarray :=
  NdArray float64
    (Arr [1; 3]%nat [SFloat (Fp.lit 509 2); SFloat (Fp.lit 1 4);
                     SFloat (Fp.lit 813 10)]).

(** C6. On well-typed arrays the two range converters are the converters
    of the spec.  The input converter divides 8-bit input by 255 into
    float32 and returns float32 input as it is; it raises an instance of
    [TypeError] exactly when the dtype is neither of the two, and the
    error names the dtype.  The output converter, on a floating array
    [out], rounds to nearest (ties to even) and casts for the 8-bit target,
    the rounded samples fitting 32 bits, and divides by 255 for the float32
    target, whatever the samples; it raises an instance of [TypeError] exactly when the target is
    neither of the two, the error names the target, and a call that raises
    leaves the caller's array as it was. *)
Theorem range_converters_spec
    (img out : ndarray) (dst_type : dtype) (f : Fp.format) :
  well_typed img ->
  float_format (dtype_of out) = Some f ->
  well_typed out ->
  _convert_input_type_range img = normalize_to_unit_float img
  /\ ((exists e, _convert_input_type_range img = inl e
                 /\ is_TypeError e = true)
      <-> ~ recognized (dtype_of img))
  /\ (forall e, _convert_input_type_range img = inl e ->
        e = TypeError (String.append
              "The img type should be np.float32 or np.uint8, but got "
              (dtype_name (dtype_of img))))
  /\ ((dst_type = uint8 -> in_range f out) ->
        fst (_convert_output_type_range out dst_type)
        = denormalize_from_unit_float f out dst_type)
  /\ ((exists e, fst (_convert_output_type_range out dst_type) = inl e
                 /\ is_TypeError e = true)
      <-> ~ recognized dst_type)
  /\ (forall e, fst (_convert_output_type_range out dst_type) = inl e ->
        e = TypeError (String.append
              "The dst_type should be np.float32 or np.uint8, but got "
              (dtype_name dst_type)))
  /\ (forall e, fst (_convert_output_type_range out dst_type) = inl e ->
        snd (_convert_output_type_range out dst_type) = out).
Proof.
  intros Hwt Hf Hwo.
  split; [by apply normalize_refines|].
  split.
  { rewrite normalize_refines by done.
    unfold normalize_to_unit_float, recognized. split.
    - intros (e & H & _) [E|E]; by rewrite E in H.
    - intros Hn.
      destruct (dtype_of img); try (by eexists); exfalso; auto. }
  split.
  { intros e. rewrite normalize_refines by done.
    unfold normalize_to_unit_float. destruct (dtype_of img); congruence. }
  split; [intros Hin; by apply denormalize_refines|].
  split; [split|split].
  - intros (e & He & _). by destruct (convert_output_error f out dst_type e).
  - intros Hn. unfold _convert_output_type_range, recognized in *.
    destruct dst_type; simpl; try (by eexists); exfalso; auto.
  - intros e He. by destruct (convert_output_error f out dst_type e).
  - intros e He. destruct (convert_output_error f out dst_type e) as [Hn _];
      [done|done|].
    unfold _convert_output_type_range, recognized in *.
    destruct dst_type; simpl; try done; exfalso; auto.
Qed.

Lemma range_converters_spec_witness :
  well_typed red_pixel
  /\ well_typed scaled_samples
  /\ in_range f64 scaled_samples
  /\ _convert_input_type_range red_pixel = normalize_to_unit_float red_pixel
  /\ samples (fst (_convert_output_type_range scaled_samples uint8))
     = inr [254; 0; 81]%Z
  /\ fst (_convert_output_type_range scaled_samples float64)
     = inl (TypeError
              "The dst_type should be np.float32 or np.uint8, but got float64").
Proof.
  assert (H : well_typed red_pixel).
  { unfold well_typed, red_pixel; simpl.
    repeat (constructor; [intros _; lia|]). constructor. }
  assert (Ho : well_typed scaled_samples).
  { unfold well_typed, scaled_samples; simpl.
    repeat (constructor; [by vm_compute|]). constructor. }
  assert (Hin : in_range f64 scaled_samples).
  { unfold in_range, scaled_samples; simpl.
    repeat (constructor; [by vm_compute|]). constructor. }
  split; [exact H|]. split; [exact Ho|]. split; [exact Hin|].
  destruct (range_converters_spec red_pixel scaled_samples uint8 f64
              H eq_refl Ho) as (Hn & _ & _ & Hd & _).
  destruct (range_converters_spec red_pixel scaled_samples float64 f64
              H eq_refl Ho) as (_ & _ & _ & _ & _ & He & _).
  split; [exact Hn|].
  split; [rewrite (Hd (fun _ => Hin)); by vm_compute|].
  destruct (fst (_convert_output_type_range scaled_samples float64))
    as [e|a] eqn:E; [|by vm_compute in E].
  f_equal. by apply He.
Defined.

End RangeConverters.

(* ===================================================================== *)
(** * The store discipline of the tensor operations *)
(* ===================================================================== *)

Module TorchFacts.
Import Nd Torch.
Local Open Scope string_scope.
Local Open Scope list_scope.
Local Open Scope nat_scope.
Local Open Scope torch_scope.

(** ** Running one step *)

Lemma run_bind {A B} (m : M A) (k : A -> M B) (s : store) :
  bind m k s = match m s with
               | (inr a, s') => k a s'
               | (inl e, s') => (inl e, s')
               end.
Proof. done. Qed.

Lemma run_bind_ok {A B} (m : M A) (k : A -> M B) (s s' : store) (a : A) :
  m s = (inr a, s') -> bind m k s = k a s'.
Proof. intros H. by rewrite run_bind, H. Qed.

Lemma run_bind_err {A B} (m : M A) (k : A -> M B) (s s' : store) (e : exc) :
  m s = (inl e, s') -> bind m k s = (inl e, s').
Proof. intros H. by rewrite run_bind, H. Qed.

(** ** Which exceptions can come out *)

(** The errors PyTorch itself raises on a bad shape or index. *)
Definition lib_error (e : exc) : Prop :=
  match e with
  | RuntimeError _ | IndexError _ => True
  | _ => False
  end.

Definition raises_only {A} (P : exc -> Prop) (m : M A) : Prop :=
  forall s e s', m s = (inl e, s') -> P e.

Lemma raises_only_ret {A} P (a : A) : raises_only P (ret a).
Proof. by intros s e s' H. Qed.

Lemma raises_only_raise {A} (P : exc -> Prop) e0 :
  P e0 -> raises_only P (@raise A e0).
Proof. intros He s e' s' H. by inversion H; subst. Qed.

Lemma raises_only_bind {A B} P (m : M A) (k : A -> M B) :
  raises_only P m -> (forall a, raises_only P (k a)) -> raises_only P (bind m k).
Proof.
  intros Hm Hk s e s' H. rewrite run_bind in H.
  destruct (m s) as [[e1|a] s1] eqn:E.
  - inversion H; subst. by eapply Hm.
  - by eapply Hk.
Qed.

Lemma raises_only_load P x : raises_only P (load x).
Proof. by intros s e s' H. Qed.

Lemma raises_only_new P a : raises_only P (new a).
Proof. by intros s e s' H. Qed.

Lemma raises_only_of_option {A} msg (o : option A) :
  raises_only lib_error (of_option msg o).
Proof. destruct o; [apply raises_only_ret | by apply raises_only_raise]. Qed.

Lemma raises_only_load_all P l : raises_only P (load_all l).
Proof.
  induction l as [|x l IH]; simpl; [apply raises_only_ret|].
  apply raises_only_bind; [apply raises_only_load|]. intros a.
  apply raises_only_bind; [done|]. intros r. apply raises_only_ret.
Qed.

Ltac raises_step :=
  first
    [ apply raises_only_ret
    | apply raises_only_load
    | apply raises_only_new
    | apply raises_only_of_option
    | apply raises_only_load_all
    | apply raises_only_raise; exact I
    | apply raises_only_bind; [|intros ?] ].

Ltac raises_prim := repeat raises_step.

Lemma raises_only_map_t f x : raises_only lib_error (map_t f x).
Proof. unfold map_t. raises_prim. Qed.

Lemma raises_only_zip_t f x y : raises_only lib_error (zip_t f x y).
Proof. unfold zip_t. raises_prim. Qed.

Lemma raises_only_matmul x w : raises_only lib_error (matmul x w).
Proof. unfold matmul. raises_prim. Qed.

Lemma raises_only_cat ax l : raises_only lib_error (cat ax l).
Proof. unfold cat. raises_prim. Qed.

Lemma raises_only_permute dims x : raises_only lib_error (permute dims x).
Proof. unfold permute. destruct (_ && _); raises_prim. Qed.

Lemma raises_only_getitem_axis1 lo hi x :
  raises_only lib_error (getitem_axis1 lo hi x).
Proof. unfold getitem_axis1. destruct (_ <? _); raises_prim. Qed.

Lemma raises_only_setitem_axis1 lo hi x v :
  raises_only lib_error (setitem_axis1 lo hi x v).
Proof.
  unfold setitem_axis1. destruct (_ <? _); raises_prim.
  destruct (broadcast_shapes _ _); [|raises_prim].
  destruct (decide _) as [Heq|Hne]; [|raises_prim]. by intros s0 e0 s1 H.
Qed.

Ltac raises_lib :=
  repeat first
    [ apply raises_only_map_t
    | apply raises_only_zip_t
    | apply raises_only_matmul
    | apply raises_only_cat
    | apply raises_only_permute
    | apply raises_only_getitem_axis1
    | apply raises_only_setitem_axis1
    | raises_step ].

Lemma raises_only_rgb2ycbcr_pt img y_only :
  raises_only lib_error (rgb2ycbcr_pt img y_only).
Proof.
  unfold rgb2ycbcr_pt, tensor, add_s, div_s, add. destruct y_only; raises_lib.
Qed.

Lemma raises_only_ycbcr2rgb_pt img : raises_only lib_error (ycbcr2rgb_pt img).
Proof.
  unfold ycbcr2rgb_pt, mul_s, sub_s, div_s, add, sub. raises_lib.
Qed.

(** ** Allocation only ever appends to the store *)

Definition grows {A} (m : M A) : Prop :=
  forall s, s `prefix_of` snd (m s).

Lemma grows_ret {A} (a : A) : grows (ret a).
Proof. by intros s. Qed.

Lemma grows_raise {A} e : grows (@raise A e).
Proof. by intros s. Qed.

Lemma grows_load x : grows (load x).
Proof. by intros s. Qed.

Lemma grows_new a : grows (new a).
Proof. intros s. simpl. by apply prefix_app_r. Qed.

Lemma grows_bind {A B} (m : M A) (k : A -> M B) :
  grows m -> (forall a, grows (k a)) -> grows (bind m k).
Proof.
  intros Hm Hk s. rewrite run_bind. specialize (Hm s).
  destruct (m s) as [[e|a] s1]; simpl in *; [done|].
  etrans; [exact Hm|apply Hk].
Qed.

Lemma grows_of_option {A} msg (o : option A) : grows (of_option msg o).
Proof. destruct o; [apply grows_ret|apply grows_raise]. Qed.

Lemma grows_load_all l : grows (load_all l).
Proof.
  induction l as [|x l IH]; simpl; [apply grows_ret|].
  apply grows_bind; [apply grows_load|]. intros a.
  apply grows_bind; [done|]. intros r. apply grows_ret.
Qed.

Ltac grows_step :=
  first
    [ apply grows_ret
    | apply grows_raise
    | apply grows_load
    | apply grows_new
    | apply grows_of_option
    | apply grows_load_all
    | apply grows_bind; [|intros ?] ].

Lemma grows_map_t f x : grows (map_t f x).
Proof. unfold map_t. repeat grows_step. Qed.

Lemma grows_zip_t f x y : grows (zip_t f x y).
Proof. unfold zip_t. repeat grows_step. Qed.

Lemma grows_matmul x w : grows (matmul x w).
Proof. unfold matmul. repeat grows_step. Qed.

Lemma grows_cat ax l : grows (cat ax l).
Proof. unfold cat. repeat grows_step. Qed.

Lemma grows_permute dims x : grows (permute dims x).
Proof. unfold permute. destruct (_ && _); repeat grows_step. Qed.

Lemma grows_getitem_axis1 lo hi x : grows (getitem_axis1 lo hi x).
Proof. unfold getitem_axis1. destruct (_ <? _); repeat grows_step. Qed.

Ltac grows_lib :=
  repeat first
    [ apply grows_map_t
    | apply grows_zip_t
    | apply grows_matmul
    | apply grows_cat
    | apply grows_permute
    | apply grows_getitem_axis1
    | grows_step ].

Lemma grows_rgb2ycbcr_pt img y_only : grows (rgb2ycbcr_pt img y_only).
Proof.
  unfold rgb2ycbcr_pt, tensor, add_s, div_s, add. destruct y_only; grows_lib.
Qed.

Lemma grows_ycbcr2rgb_pt img : grows (ycbcr2rgb_pt img).
Proof. unfold ycbcr2rgb_pt, mul_s, sub_s, div_s, add, sub. grows_lib. Qed.

(** ** A tensor just made by an arithmetic call sits on a new storage *)

Definition fresh (m : M Tensor) : Prop :=
  forall s t s', m s = (inr t, s') -> length s <= base t < length s'.

Lemma fresh_new a : fresh (new a).
Proof.
  intros s t s' H. inversion H; subst; simpl. rewrite length_app; simpl. lia.
Qed.

Lemma fresh_bind {A} (m : M A) (k : A -> M Tensor) :
  grows m -> (forall a, fresh (k a)) -> fresh (bind m k).
Proof.
  intros Hm Hk s t s' H. rewrite run_bind in H. specialize (Hm s).
  destruct (m s) as [[e|a] s1] eqn:E; simpl in *; [done|].
  apply Hk in H. apply prefix_length in Hm. lia.
Qed.

Lemma fresh_map_t f x : fresh (map_t f x).
Proof.
  unfold map_t. apply fresh_bind; [apply grows_load|]. intros a. apply fresh_new.
Qed.

Lemma fresh_rgb2ycbcr_pt img y_only : fresh (rgb2ycbcr_pt img y_only).
Proof.
  unfold rgb2ycbcr_pt. apply fresh_bind; [|intros a; apply fresh_map_t].
  unfold tensor, add_s, add. destruct y_only; grows_lib.
Qed.

(** Writing through a slice of a tensor whose storage was allocated after
    [s0] leaves [s0] as it is. *)
Lemma setitem_axis1_above lo hi x v (s0 s : store) :
  s0 `prefix_of` s -> length s0 <= base x ->
  s0 `prefix_of` snd (setitem_axis1 lo hi x v s).
Proof.
  intros [k ->] Hx. unfold setitem_axis1.
  destruct (_ <? _); [by apply prefix_app_r|].
  rewrite run_bind; simpl.
  destruct (broadcast_shapes _ _); [|by apply prefix_app_r].
  destruct (decide _); [|by apply prefix_app_r]. simpl.
  rewrite insert_app_r_alt by done. by apply prefix_app_r.
Qed.

(** What a tensor denotes depends on its own storage only. *)
Lemma cells_prefix (s s' : store) (l : nat) :
  s `prefix_of` s' -> l < length s -> cells s' l = cells s l.
Proof.
  intros [k ->] Hl. unfold cells. by rewrite lookup_app_l.
Qed.

Lemma read_prefix (s s' : store) (x : Tensor) :
  s `prefix_of` s' -> base x < length s -> read s' x = read s x.
Proof. intros Hp Hx. unfold read. by rewrite (cells_prefix s s'). Qed.

End TorchFacts.

(* ===================================================================== *)
(** * Symbolic execution of tensor code *)
(* ===================================================================== *)

Module Wp.
Import Nd NdFacts Torch TorchFacts.
Local Open Scope string_scope.
Local Open Scope list_scope.
Local Open Scope nat_scope.
Local Open Scope torch_scope.

(** [t] lives in [s] and holds the samples [a] there. *)
Definition denotes (s : store) (t : Tensor) (a : array float) : Prop :=
  base t < length s /\ wf (view t) /\ read s t = a.

(** [m], run from [s], returns; the store it leaves extends [s] and,
    together with the result, satisfies [Q]. *)
Definition wp {A} (m : M A) (s : store) (Q : A -> store -> Prop) : Prop :=
  exists a s', m s = (inr a, s') /\ s `prefix_of` s' /\ Q a s'.

Lemma denotes_prefix s s' t a :
  s `prefix_of` s' -> denotes s t a -> denotes s' t a.
Proof.
  intros Hp (Hb & Hw & Hr). split; [|split; [done|]].
  - apply prefix_length in Hp. lia.
  - by rewrite (read_prefix s s').
Qed.

Lemma denotes_shape s t a : denotes s t a -> shape a = tshape t.
Proof. intros (_ & _ & <-). done. Qed.

Lemma denotes_wf s t a : denotes s t a -> wf a.
Proof. intros (_ & Hw & <-). by apply wf_amap. Qed.

Lemma map_nth_seq {A} (d : A) (l : list A) :
  map (fun p => nth p l d) (seq 0 (length l)) = l.
Proof.
  apply (nth_ext _ _ d d); [by rewrite length_map, length_seq|].
  intros i Hi. rewrite length_map, length_seq in Hi.
  rewrite (nth_indep _ d (nth 0 l d)) by (by rewrite length_map, length_seq).
  rewrite (map_nth (fun p => nth p l d) (seq 0 (length l)) 0).
  by rewrite seq_nth.
Qed.

Lemma cells_new (s : store) (c : storage) : cells (s ++ [c]) (length s) = c.
Proof. unfold cells. by rewrite lookup_app_r, Nat.sub_diag. Qed.

Lemma denotes_new s a :
  wf a -> denotes (s ++ [data a]) (mkTensor (length s) (iota (shape a))) a.
Proof.
  intros Hw. split; [|split].
  - simpl. rewrite length_app; simpl. lia.
  - apply wf_iota.
  - unfold read; simpl. rewrite cells_new. unfold amap, iota; simpl.
    destruct a as [sh l]; simpl in *. f_equal. unfold wf in Hw; simpl in Hw.
    rewrite <- Hw. apply map_nth_seq.
Qed.

(** ** Rules *)

Lemma wp_ret {A} (a : A) s (Q : A -> store -> Prop) : Q a s -> wp (ret a) s Q.
Proof. intros H. by exists a, s. Qed.

Lemma wp_bind {A B} (m : M A) (k : A -> M B) s (Q : B -> store -> Prop) :
  wp m s (fun a s1 => wp (k a) s1 Q) -> wp (bind m k) s Q.
Proof.
  intros (a & s1 & Hm & Hp & (b & s2 & Hk & Hp' & HQ)).
  exists b, s2. split; [by rewrite (run_bind_ok m k s s1 a)|].
  split; [by etrans|done].
Qed.

Lemma wp_new a s (Q : Tensor -> store -> Prop) :
  wf a ->
  (forall t s', s `prefix_of` s' -> denotes s' t a -> Q t s') ->
  wp (new a) s Q.
Proof.
  intros Hw HQ. eexists _, _. split; [done|].
  split; [by apply prefix_app_r|].
  apply HQ; [by apply prefix_app_r|by apply denotes_new].
Qed.

Lemma wp_load x a s (Q : array float -> store -> Prop) :
  denotes s x a -> Q a s -> wp (load x) s Q.
Proof. intros (_ & _ & <-) HQ. by eexists _, _. Qed.

Lemma wp_of_option {A} msg (o : option A) (a : A) s (Q : A -> store -> Prop) :
  o = Some a -> Q a s -> wp (of_option msg o) s Q.
Proof. intros -> HQ. by exists a, s. Qed.

Lemma wp_map_t f x a s (Q : Tensor -> store -> Prop) :
  denotes s x a ->
  (forall t s', s `prefix_of` s' -> denotes s' t (amap f a) -> Q t s') ->
  wp (map_t f x) s Q.
Proof.
  intros Hx HQ. unfold map_t. apply wp_bind, (wp_load x a); [done|].
  apply wp_new; [|done]. apply wf_amap. by eapply denotes_wf.
Qed.

Lemma zip2_init {A B C} (da : A) (db : B) (f : A -> B -> C) a b r :
  zip2 da db f a b = Some r -> wf r.
Proof.
  unfold zip2. destruct (broadcast_shapes _ _); [|done].
  intros [= <-]. apply wf_init.
Qed.

Lemma wp_zip_t f x y a b r s (Q : Tensor -> store -> Prop) :
  denotes s x a -> denotes s y b ->
  zip2 zero zero f a b = Some r ->
  (forall t s', s `prefix_of` s' -> denotes s' t r -> Q t s') ->
  wp (zip_t f x y) s Q.
Proof.
  intros Hx Hy Hr HQ. unfold zip_t.
  apply wp_bind, (wp_load x a); [done|].
  apply wp_bind, (wp_load y b); [done|].
  apply wp_bind, (wp_of_option _ _ r); [done|].
  apply wp_new; [by eapply zip2_init|done].
Qed.

Lemma wp_le_s x c a s (Q : array bool -> store -> Prop) :
  denotes s x a -> Q (amap (fun v => Fp.leb v c) a) s -> wp (le_s x c) s Q.
Proof.
  intros Hx HQ. unfold le_s. apply wp_bind, (wp_load x a); [done|].
  by apply wp_ret.
Qed.

Lemma wp_gt_s x c a s (Q : array bool -> store -> Prop) :
  denotes s x a -> Q (amap (fun v => Fp.ltb c v) a) s -> wp (gt_s x c) s Q.
Proof.
  intros Hx HQ. unfold gt_s. apply wp_bind, (wp_load x a); [done|].
  by apply wp_ret.
Qed.

Lemma zip2_same {A B C} (da : A) (db : B) (f : A -> B -> C) a b :
  shape a = shape b ->
  exists r, zip2 da db f a b = Some r /\ shape r = shape a.
Proof.
  intros E. unfold zip2. rewrite <- E, broadcast_shapes_same.
  by eexists.
Qed.

Lemma wp_where cond x y a b s (Q : Tensor -> store -> Prop) :
  denotes s x a -> denotes s y b ->
  shape cond = shape a -> shape a = shape b ->
  (forall t s' r, s `prefix_of` s' -> shape r = shape a ->
                  denotes s' t r -> Q t s') ->
  wp (where_ cond x y) s Q.
Proof.
  intros Hx Hy Hc Hab HQ. unfold where_.
  apply wp_bind, (wp_load x a); [done|].
  apply wp_bind, (wp_load y b); [done|].
  destruct (zip2_same false zero (fun c v => (c, v)) cond a Hc)
    as (p & Hp & Hps).
  apply wp_bind, (wp_of_option _ _ p); [done|].
  destruct (zip2_same (false, zero) zero
              (fun cv w => if fst cv then snd cv else w) p b) as (r & Hr & Hrs);
    [congruence|].
  apply wp_bind, (wp_of_option _ _ r); [done|].
  apply wp_new; [by eapply zip2_init|].
  intros t s' Hpre Ht. apply (HQ t s' r); [done|congruence|done].
Qed.

Lemma wp_permute dims x a s (Q : Tensor -> store -> Prop) :
  denotes s x a ->
  length dims = length (shape a) -> is_permutation dims = true ->
  (forall t a', denotes s t a' ->
                shape a' = map (fun j => nth j (shape a) 0) dims -> Q t s) ->
  wp (permute dims x) s Q.
Proof.
  intros Hx Hl Hp HQ. unfold permute, ndim.
  rewrite <- (denotes_shape _ _ _ Hx), Hl, Nat.eqb_refl, Hp; simpl.
  apply wp_ret. eapply HQ.
  - destruct Hx as (Hb & Hw & Hr). split; [done|]. split; [|done].
    apply wf_init.
  - simpl. by rewrite (denotes_shape _ _ _ Hx).
Qed.

Lemma wp_matmul x w a b r s (Q : Tensor -> store -> Prop) :
  denotes s x a -> denotes s w b ->
  matmul_arrays a b = Some r -> wf r ->
  (forall t s', s `prefix_of` s' -> denotes s' t r -> Q t s') ->
  wp (matmul x w) s Q.
Proof.
  intros Hx Hw Hr Hwf HQ. unfold matmul.
  apply wp_bind, (wp_load x a); [done|].
  apply wp_bind, (wp_load w b); [done|].
  apply wp_bind, (wp_of_option _ _ r); [done|].
  by apply wp_new.
Qed.

Lemma wp_getitem_axis1 lo hi x a s (Q : Tensor -> store -> Prop) :
  denotes s x a -> 4 <= length (shape a) ->
  (forall t, denotes s t (slice zero 1 lo (default (nth 1 (shape a) 0) hi) a) ->
             Q t s) ->
  wp (getitem_axis1 lo hi x) s Q.
Proof.
  intros Hx Hn HQ. unfold getitem_axis1, ndim.
  pose proof (denotes_shape _ _ _ Hx) as Hs. rewrite <- Hs.
  apply Nat.ltb_ge in Hn. rewrite Hn.
  apply wp_ret, HQ. destruct Hx as (Hb & Hw & Hr).
  split; [done|]. split; [apply wf_init|].
  unfold read, slice_view; simpl. rewrite (amap_slice _ 0 zero) by done.
  fold (read s x). rewrite Hr. by rewrite Hs.
Qed.

Lemma wp_cat3 ax x y z a b c r s (Q : Tensor -> store -> Prop) :
  denotes s x a -> denotes s y b -> denotes s z c ->
  Nd.cat zero ax [a; b; c] = Some r -> wf r ->
  (forall t s', s `prefix_of` s' -> denotes s' t r -> Q t s') ->
  wp (cat ax [x; y; z]) s Q.
Proof.
  intros Hx Hy Hz Hr Hw HQ. unfold cat, load_all.
  apply wp_bind, wp_bind, (wp_load x a); [done|].
  apply wp_bind, wp_bind, (wp_load y b); [done|].
  apply wp_bind, wp_bind, (wp_load z c); [done|].
  apply wp_bind, wp_ret, wp_ret, wp_ret, wp_ret.
  apply wp_bind, (wp_of_option _ _ r); [done|].
  by apply wp_new.
Qed.

(** After a step that went from [s] to [s'], what was known in [s]. *)
Ltac frame :=
  match goal with
  | Hp : ?s `prefix_of` ?s' |- _ =>
      repeat match goal with
             | H : denotes s _ _ |- _ => apply (denotes_prefix s s' _ _ Hp) in H
             end;
      clear Hp; try clear s
  end.

End Wp.

(* ===================================================================== *)
(** * The pixel-format dispatchers *)
(* ===================================================================== *)

Section Dispatch.
Import Nd Torch TorchFacts.
Local Open Scope string_scope.
Local Open Scope list_scope.
Local Open Scope nat_scope.
Local Open Scope torch_scope.

Definition luma_required : string := "gt is required for luma pixel format".
Definition chroma_required : string := "gt is required for chroma pixel format".

Lemma not_lib_error {A} (m : M A) (s : store) (e : exc) :
  raises_only lib_error m -> fst (m s) = inl e -> lib_error e.
Proof.
  intros Hm H. destruct (m s) as [r s'] eqn:E; simpl in H; subst r.
  by eapply Hm.
Qed.

Lemma raises_only_splice lo hi img ref :
  raises_only lib_error
    (let* img_yuv := rgb2ycbcr_pt ref false in
     let* _ := setitem_axis1 lo hi img_yuv img in
     ycbcr2rgb_pt img_yuv).
Proof.
  apply raises_only_bind; [apply raises_only_rgb2ycbcr_pt|]. intros t.
  apply raises_only_bind; [apply raises_only_setitem_axis1|]. intros _.
  apply raises_only_ycbcr2rgb_pt.
Qed.

(** An [AssertionError] out of the inverse dispatcher is one of its two
    [assert]s on a missing reference. *)
Lemma dispatch_assertion img ref fmt s msg :
  fst (pixelformat2rgb_pt img ref fmt s) = inl (AssertionError msg) ->
  ref = None
  /\ ((fmt = "y" /\ msg = Some luma_required)
      \/ (fmt = "uv" /\ msg = Some chroma_required)).
Proof.
  unfold pixelformat2rgb_pt.
  destruct (String.eqb fmt "rgb"); [done|].
  destruct (String.eqb fmt "gray"); [done|].
  destruct (String.eqb fmt "yuv444").
  { intros H. by apply not_lib_error in H; [|apply raises_only_ycbcr2rgb_pt]. }
  destruct (String.eqb fmt "y") eqn:Ey.
  { apply String.eqb_eq in Ey. destruct ref as [r|].
    - intros H. by apply not_lib_error in H; [|apply raises_only_splice].
    - simpl. intros H. inversion H. auto. }
  destruct (String.eqb fmt "uv") eqn:Euv; [|done].
  apply String.eqb_eq in Euv. destruct ref as [r|].
  - intros H. by apply not_lib_error in H; [|apply raises_only_splice].
  - simpl. intros H. inversion H. auto.
Qed.

(** C5. The inverse dispatcher fails with the assertion naming "gt is
    required for luma pixel format" exactly when the tag is ['y'] and no
    reference is given, and with the chroma message exactly when the tag
    is ['uv'] and no reference is given; ['gray'] is not implemented in
    either direction, nor is ['uv'] in the forward one. *)
Theorem pixelformat_dispatch_errors
    (img : Tensor) (ref : option Tensor) (fmt : string) (s : store) :
  (fst (pixelformat2rgb_pt img ref fmt s)
     = inl (AssertionError (Some "gt is required for luma pixel format"))
   <-> fmt = "y" /\ ref = None)
  /\ (fst (pixelformat2rgb_pt img ref fmt s)
        = inl (AssertionError (Some "gt is required for chroma pixel format"))
      <-> fmt = "uv" /\ ref = None)
  /\ pixelformat2rgb_pt img ref "gray" s = (inl (NotImplementedError None), s)
  /\ rgb2pixelformat_pt img "gray" s = (inl (NotImplementedError None), s)
  /\ rgb2pixelformat_pt img "uv" s = (inl (NotImplementedError None), s).
Proof.
  repeat split; try done.
  - apply dispatch_assertion in H as [_ [[? _]|[_ H]]]; [done|].
    by inversion H.
  - by apply dispatch_assertion in H as [? _].
  - by intros [-> ->].
  - apply dispatch_assertion in H as [_ [[_ H]|[? _]]]; [|done].
    by inversion H.
  - by apply dispatch_assertion in H as [? _].
  - by intros [-> ->].
Qed.

(** A tag outside [PixelFormat] reaches the last line of either
    dispatcher. *)
Lemma unknown_tag_not_implemented img ref fmt s :
  ~ In fmt PixelFormat ->
  pixelformat2rgb_pt img ref fmt s = (inl (NotImplementedError (Some fmt)), s)
  /\ rgb2pixelformat_pt img fmt s = (inl (NotImplementedError (Some fmt)), s).
Proof.
  intros Hn. unfold pixelformat2rgb_pt, rgb2pixelformat_pt, PixelFormat in *.
  assert (H : forall t, In t ["rgb"; "gray"; "yuv444"; "y"; "uv"] ->
                        String.eqb fmt t = false).
  { intros t Ht. apply String.eqb_neq. intros ->. by apply Hn. }
  rewrite !H by (simpl; auto 10). done.
Qed.

(** The splice of the two reference paths, run from a store [s]: what was
    in [s] is still there afterwards. *)
Lemma splice_preserves lo hi img ref (s : store) :
  s `prefix_of`
    snd ((let* img_yuv := rgb2ycbcr_pt ref false in
          let* _ := setitem_axis1 lo hi img_yuv img in
          ycbcr2rgb_pt img_yuv) s).
Proof.
  rewrite run_bind.
  pose proof (grows_rgb2ycbcr_pt ref false s) as Hg.
  destruct (rgb2ycbcr_pt ref false s) as [[e|t] s1] eqn:E1; simpl in Hg;
    [done|].
  apply fresh_rgb2ycbcr_pt in E1 as [Hlo _].
  rewrite run_bind.
  pose proof (setitem_axis1_above lo hi t img s s1 Hg Hlo) as Hs.
  destruct (setitem_axis1 lo hi t img s1) as [[e|[]] s2]; simpl in Hs; [done|].
  etrans; [exact Hs|]. apply grows_ycbcr2rgb_pt.
Qed.

(** C10. With the tag ['y'] or ['uv'] and a reference tensor that lives in
    the store, [pixelformat2rgb_pt] leaves every storage of that store as
    it was, the reference's among them: the tensor [rgb2ycbcr_pt] returns
    is on a storage allocated during the call, and the slice assignment
    writes there. *)
Theorem reference_tensor_untouched
    (img ref : Tensor) (fmt : string) (s : store) :
  fmt = "y" \/ fmt = "uv" ->
  base ref < length s ->
  let s' := snd (pixelformat2rgb_pt img (Some ref) fmt s) in
  s `prefix_of` s'
  /\ cells s' (base ref) = cells s (base ref)
  /\ read s' ref = read s ref
  /\ (forall t s1, rgb2ycbcr_pt ref false s = (inr t, s1) ->
        base t <> base ref /\ length s <= base t < length s1).
Proof.
  intros Hfmt Href s'.
  assert (Hp : s `prefix_of` s').
  { subst s'. unfold pixelformat2rgb_pt.
    destruct Hfmt as [-> | ->]; simpl; apply splice_preserves. }
  split; [done|]. split; [by apply cells_prefix|].
  split; [by apply read_prefix|].
  intros t s1 H. apply fresh_rgb2ycbcr_pt in H. lia.
Qed.

Lemma reference_tensor_untouched_witness :
  returns (pixelformat2rgb_pt luma_img (Some luma_ref) "y" luma_store) = true
  /\ read (snd (pixelformat2rgb_pt luma_img (Some luma_ref) "y" luma_store))
          luma_ref
     = read luma_store luma_ref.
Proof.
  split; [by vm_compute|].
  assert (H : base luma_ref < length luma_store) by (simpl; lia).
  destruct (reference_tensor_untouched luma_img luma_ref "y" luma_store
              (or_introl eq_refl) H) as (_ & _ & Hr & _).
  exact Hr.
Defined.

End Dispatch.

(* ===================================================================== *)
(** * Shape validation *)
(* ===================================================================== *)

Section Shapes.
Import Nd NdFacts Torch TorchFacts Wp.
Local Open Scope string_scope.
Local Open Scope list_scope.
Local Open Scope nat_scope.
Local Open Scope torch_scope.

(** Two channels at the third axis from the end: both functions raise the
    [ValueError] that states the required pattern and the shape got. *)
Lemma rgb_to_luma_two_channels (img : Tensor) (s : store) :
  3 <= ndim img -> dim_from_end img 3 = 2 ->
  rgb_to_luma img s
  = (inl (ValueError
            (String.append
               "Input size must have a shape of (*, 3, H, W) or (*, 1, H, W). Got "
               (show_size (tshape img)))), s).
Proof.
  intros Hn Hc. unfold rgb_to_luma. rewrite Hc.
  by destruct (ndim img <? 3).
Qed.

Lemma rgb_to_linear_rgb_two_channels (image : Tensor) (s : store) :
  3 <= ndim image -> dim_from_end image 3 = 2 ->
  rgb_to_linear_rgb image s
  = (inl (ValueError
            (String.append "Input size must have a shape of (*, 3, H, W).Got "
                           (show_size (tshape image)))), s).
Proof.
  intros Hn Hc. unfold rgb_to_linear_rgb. rewrite Hc.
  by destruct (ndim image <? 3).
Qed.

(** Three channels, any rank from 3 up: [rgb_to_linear_rgb] returns a
    tensor of the shape of its input. *)
Lemma rgb_to_linear_rgb_returns (image : Tensor) (a : array float) (s : store) :
  denotes s image a ->
  3 <= ndim image -> dim_from_end image 3 = 3 ->
  wp (rgb_to_linear_rgb image) s (fun t _ => tshape t = tshape image).
Proof.
  intros Hx Hn Hc. unfold rgb_to_linear_rgb. rewrite Hc.
  apply Nat.ltb_ge in Hn. rewrite Hn. cbn [orb negb Nat.eqb].
  unfold add_s, div_s, pow_s.
  apply wp_bind. eapply wp_gt_s; [eassumption|].
  apply wp_bind. eapply wp_map_t; [eassumption|]. intros g0 s1 Hp Hg0. frame.
  apply wp_bind. eapply wp_map_t; [eassumption|]. intros g1 s2 Hp Hg1. frame.
  apply wp_bind. eapply wp_map_t; [eassumption|]. intros gam s3 Hp Hgam. frame.
  apply wp_bind. eapply wp_map_t; [exact Hx|]. intros lin s4 Hp Hlin. frame.
  eapply wp_where; [exact Hgam|exact Hlin|done|done|].
  intros t s5 r _ Hr Ht. apply denotes_shape in Ht, Hx.
  rewrite <- Ht, Hr. exact Hx.
Qed.

(** Rank 4 with one or three channels: [rgb_to_luma] returns. *)
Lemma rgb_to_luma_returns_rank4
    (img : Tensor) (a : array float) (s : store) (N C H W : nat) :
  denotes s img a ->
  tshape img = [N; C; H; W] -> C = 1 \/ C = 3 ->
  wp (rgb_to_luma img) s
     (fun t _ => tshape t = if C =? 3 then [N; H; W] else [N; H; W; C]).
Proof.
  intros Hx Hsh HC. unfold rgb_to_luma, ndim, dim_from_end, ndim.
  pose proof (denotes_shape _ _ _ Hx) as Ha. rewrite Hsh in Ha.
  rewrite Hsh. cbn [length Nat.sub nth Nat.ltb Nat.leb orb].
  assert (Hg : negb (C =? 3) && negb (C =? 1) = false)
    by (by destruct HC as [-> | ->]).
  rewrite Hg. unfold clamp, add_s, sub_s, mul_s, div_s, pow_s, mul.
  apply wp_bind. eapply wp_permute; [exact Hx| by rewrite Ha | done |].
  intros p ap Hp Hps. rewrite Ha in Hps. cbn [map nth] in Hps.
  apply wp_bind. eapply wp_map_t; [exact Hp|]. intros o1 s1 Hpre Ho1. frame.
  apply wp_bind. eapply wp_le_s; [exact Ho1|].
  apply wp_bind. eapply wp_map_t; [exact Ho1|]. intros lin s2 Hpre Hlin. frame.
  apply wp_bind. eapply wp_map_t; [exact Ho1|]. intros g0 s3 Hpre Hg0. frame.
  apply wp_bind. eapply wp_map_t; [exact Hg0|]. intros g1 s4 Hpre Hg1. frame.
  apply wp_bind. eapply wp_map_t; [exact Hg1|]. intros gam s5 Hpre Hgam. frame.
  apply wp_bind. eapply wp_where; [exact Hlin|exact Hgam|done|done|].
  intros o2 s6 r2 Hpre Hr2 Ho2. frame. cbn [shape amap] in Hr2.
  rewrite Hps in Hr2.
  (* the rest does not depend on how the single channel was obtained *)
  assert (Hrest : forall (o : Tensor) (r : array float) (s0 : store) sh,
    denotes s0 o r -> shape r = sh ->
    wp (let* low := le_s o (Fp.lit32 216 24389) in
        let* k := map_t (fun v => Fp.mul f32 v (Fp.lit32 24389 27)) o in
        let* seg := zip_t (Fp.mul f32) o k in
        let* c0 := map_t (fun v => Fp.pow f32 v (Fp.lit 1 3)) o in
        let* c1 := map_t (fun v => Fp.mul f32 v (Fp.of_Z f32 116)) c0 in
        let* cub := map_t (fun v => Fp.sub f32 v (Fp.of_Z f32 16)) c1 in
        let* out_img := where_ low seg cub in
        let* d := map_t (fun v => Fp.div f32 v (Fp.of_Z f32 100)) out_img in
        map_t (clamp1 (Some (Fp.of_Z f32 0)) (Some (Fp.of_Z f32 1))) d)
       s0 (fun t _ => tshape t = sh)).
  { clear. intros o r s0 sh Ho Hsh.
    apply wp_bind. eapply wp_le_s; [exact Ho|].
    apply wp_bind. eapply wp_map_t; [exact Ho|]. intros k s1 Hpre Hk. frame.
    destruct (zip2_same zero zero (Fp.mul f32) r
                (amap (fun v => Fp.mul f32 v (Fp.lit32 24389 27)) r) eq_refl)
      as (sg & Hsg & Hsgs).
    apply wp_bind. eapply wp_zip_t; [exact Ho|exact Hk|exact Hsg|].
    intros seg s2 Hpre Hseg. frame.
    apply wp_bind. eapply wp_map_t; [exact Ho|]. intros c0 s3 Hpre Hc0. frame.
    apply wp_bind. eapply wp_map_t; [exact Hc0|]. intros c1 s4 Hpre Hc1. frame.
    apply wp_bind. eapply wp_map_t; [exact Hc1|]. intros cub s5 Hpre Hcub. frame.
    apply wp_bind. eapply wp_where; [exact Hseg|exact Hcub|by rewrite Hsgs|done|].
    intros o3 s6 r3 Hpre Hr3 Ho3. frame.
    apply wp_bind. eapply wp_map_t; [exact Ho3|]. intros d s7 Hpre Hd. frame.
    eapply wp_map_t; [exact Hd|]. intros t s8 _ Ht.
    apply denotes_shape in Ht. rewrite <- Ht. cbn [shape amap].
    by rewrite Hr3, Hsgs. }
  destruct HC as [-> | ->]; cbn [Nat.eqb].
  - apply wp_bind, wp_ret. by eapply Hrest.
  - apply wp_bind. apply wp_bind. unfold tensor.
    apply wp_new; [done|]. intros w s7 Hpre Hw. frame.
    eapply (wp_matmul _ _ _ _
              (init [N; H; W]
                 (fun idx => dot32 (last_axis r2 3 idx)
                               [Fp.lit32 2126 10000; Fp.lit32 7152 10000;
                                Fp.lit32 722 10000])));
      [exact Ho2|exact Hw| |apply wf_init|].
    { unfold matmul_arrays. by rewrite Hr2. }
    intros o3 s8 Hpre Ho3. frame. by eapply Hrest.
Qed.

(** C9. [rgb_to_luma] does not return for an input of rank other than 4,
    although the shape has 1 or 3 channels at the third axis from the end
    and so passes the function's own shape check: [permute(0, 2, 3, 1)]
    raises [RuntimeError]. *)
Theorem rgb_to_luma_rejects_rank_other_than_4 (img : Tensor) (s : store) :
  3 <= ndim img -> ndim img <> 4 ->
  dim_from_end img 3 = 1 \/ dim_from_end img 3 = 3 ->
  rgb_to_luma img s
  = (inl (RuntimeError
            "permute: number of dimensions does not match the ordering"), s).
Proof.
  intros Hn H4 HC. unfold rgb_to_luma.
  apply Nat.ltb_ge in Hn. rewrite Hn.
  assert (Hg : negb (dim_from_end img 3 =? 3) && negb (dim_from_end img 3 =? 1)
               = false) by (by destruct HC as [-> | ->]).
  rewrite Hg. cbn [orb]. rewrite run_bind. unfold permute.
  apply Nat.eqb_neq in H4. cbn [length]. rewrite Nat.eqb_sym, H4. done.
Qed.

Lemma rgb_to_luma_rejects_rank_other_than_4_witness :
  rgb_to_luma rank3_white rank3_store
  = (inl (RuntimeError
            "permute: number of dimensions does not match the ordering"),
     rank3_store)
  /\ returns (rgb_to_linear_rgb rank3_white rank3_store) = true
  /\ returns (rgb_to_luma rank4_white rank3_store) = true.
Proof.
  split; [|split; by vm_compute].
  apply rgb_to_luma_rejects_rank_other_than_4;
    [ by vm_compute | by vm_compute | right; by vm_compute ].
Defined.

End Shapes.

(* ===================================================================== *)
(** * The inverse tensor conversion *)
(* ===================================================================== *)

Section YCbCrToRgb.
Import Nd NdFacts Torch TorchFacts Wp.
Local Open Scope string_scope.
Local Open Scope list_scope.
Local Open Scope nat_scope.
Local Open Scope torch_scope.

Local Notation "x [*] y" := (Fp.mul f32 x y) (at level 40, left associativity).
Local Notation "x [/] y" := (Fp.div f32 x y) (at level 40, left associativity).
Local Notation "x [+] y" := (Fp.add f32 x y) (at level 50, left associativity).
Local Notation "x [-] y" := (Fp.sub f32 x y) (at level 50, left associativity).

(** ** The conversion in the spec's words

    "Scale input by 255 first, apply closed-form linear equations per
    channel (coefficients 1.164, 1.596, 0.392, 0.813, 2.017 applied
    directly to centered Y/Cb/Cr), concatenate channels, divide by 255." *)
Definition ycbcr_pixel_to_rgb (y0 cb0 cr0 : float) : list float :=
  let k255 := Fp.lit32 255 1 in
  let y := y0 [*] k255 [-] Fp.of_Z f32 16 in
  let cb := cb0 [*] k255 [-] Fp.of_Z f32 128 in
  let cr := cr0 [*] k255 [-] Fp.of_Z f32 128 in
  let r := y [*] Fp.lit32 1164 1000 [+] cr [*] Fp.lit32 1596 1000 in
  let g := y [*] Fp.lit32 1164 1000 [-] cb [*] Fp.lit32 392 1000
             [-] cr [*] Fp.lit32 813 1000 in
  let b := y [*] Fp.lit32 1164 1000 [+] cb [*] Fp.lit32 2017 1000 in
  [r [/] k255; g [/] k255; b [/] k255].

(** The image whose pixel [(n, h, w)] is the conversion of the pixel
    [(n, h, w)] of [a], channel by channel. *)
Definition ycbcr_image_to_rgb (a : array float) : array float :=
  init (shape a)
    (fun idx =>
       match idx with
       | [n; c; h; w] =>
           nth c (ycbcr_pixel_to_rgb (get zero a [n; 0; h; w])
                                     (get zero a [n; 1; h; w])
                                     (get zero a [n; 2; h; w])) zero
       | _ => zero
       end).

Ltac in_bounds_tac :=
  repeat first [apply in_bounds_nil | apply in_bounds_cons | lia].

(** One centered, weighted channel: [(x[:, c:c+1] - off) * k]. *)
Definition weighted (a0 : array float) (c : nat) (off k : float) : array float :=
  amap (fun v => v [*] k) (amap (fun v => v [-] off) (slice zero 1 c (S c) a0)).

Lemma weighted_shape a0 c off k N H W :
  shape a0 = [N; 3; H; W] -> c < 3 -> shape (weighted a0 c off k) = [N; 1; H; W].
Proof.
  intros Hs Hc. unfold weighted; cbn [shape amap slice init]. rewrite Hs.
  cbn [alter list_alter]. do 2 f_equal. lia.
Qed.

Lemma weighted_wf a0 c off k : wf (weighted a0 c off k).
Proof. unfold weighted. apply wf_amap, wf_amap, wf_init. Qed.

Lemma weighted_get a0 c off k N H W n h w :
  shape a0 = [N; 3; H; W] -> c < 3 -> n < N -> h < H -> w < W ->
  get zero (weighted a0 c off k) [n; 0; h; w]
  = (get zero a0 [n; c; h; w] [-] off) [*] k.
Proof.
  intros Hs Hc Hn Hh Hw. unfold weighted.
  assert (Hsl : shape (slice zero 1 c (S c) a0) = [N; 1; H; W]).
  { cbn [shape slice init]. rewrite Hs. cbn [alter list_alter].
    do 2 f_equal. lia. }
  rewrite (get_amap _ zero), (get_amap _ zero), get_slice.
  - done.
  - rewrite Hs. cbn [alter list_alter]. in_bounds_tac.
  - apply wf_init.
  - rewrite Hsl. in_bounds_tac.
  - apply wf_amap, wf_init.
  - cbn [shape amap]. rewrite Hsl. in_bounds_tac.
Qed.


(** Three one-channel images concatenated along the channel axis. *)
Definition channels (N H W : nat) (a b c : array float) : array float :=
  init [N; 3; H; W]
    (fun idx =>
       if nth 1 idx 0 <? 2
       then get zero
              (init [N; 2; H; W]
                 (fun idx => if nth 1 idx 0 <? 1 then get zero a idx
                             else get zero b (alter (fun i => i - 1) 1 idx)))
              idx
       else get zero c (alter (fun i => i - 2) 1 idx)).

Lemma same_but_channels N H W c1 c2 :
  same_but 1 [N; c1; H; W] [N; c2; H; W] = true.
Proof.
  unfold same_but. cbn [length seq forallb nth Nat.eqb Nat.ltb Nat.leb andb orb].
  by rewrite !Nat.eqb_refl.
Qed.

Lemma cat_channels N H W a b c :
  shape a = [N; 1; H; W] -> shape b = [N; 1; H; W] -> shape c = [N; 1; H; W] ->
  Nd.cat zero 1 [a; b; c] = Some (channels N H W a b c).
Proof.
  intros Ea Eb Ec. unfold Nd.cat, cat_from.
  unfold cat2 at 1. rewrite Ea, Eb, same_but_channels.
  cbn [nth alter list_alter Nat.add].
  unfold cat2. cbn [shape init]. rewrite Ec, same_but_channels.
  cbn [nth alter list_alter Nat.add]. done.
Qed.

Lemma get_channels N H W a b c n k h w :
  n < N -> k < 3 -> h < H -> w < W ->
  get zero (channels N H W a b c) [n; k; h; w]
  = get zero (nth k [a; b; c] a) [n; 0; h; w].
Proof.
  intros Hn Hk Hh Hw. unfold channels.
  rewrite get_init by in_bounds_tac.
  destruct k as [|[|[|k]]]; [| | |lia]; cbn [nth Nat.ltb Nat.leb].
  - by rewrite get_init by in_bounds_tac.
  - by rewrite get_init by in_bounds_tac.
  - done.
Qed.

Lemma zip_weighted_shape (f : float -> float -> float) a0 c1 o1 k1 c2 o2 k2 N H W :
  shape a0 = [N; 3; H; W] -> c1 < 3 -> c2 < 3 ->
  shape (weighted a0 c1 o1 k1) = shape (weighted a0 c2 o2 k2)
  /\ shape (zip_same zero zero f (weighted a0 c1 o1 k1) (weighted a0 c2 o2 k2))
     = [N; 1; H; W].
Proof.
  intros Hs H1 H2. cbn [shape zip_same init].
  by rewrite !(weighted_shape _ _ _ _ N H W).
Qed.

(** Two steps of the source, [(x - off)] and then [k * (...)], on the
    slice [x] of channel [c]. *)
Lemma wp_weighted {B} a0 c off k x s (K : Tensor -> M B) (Q : B -> store -> Prop) :
  denotes s x (slice zero 1 c (S c) a0) ->
  (forall t s', s `prefix_of` s' -> denotes s' t (weighted a0 c off k) ->
                wp (K t) s' Q) ->
  wp (let* u := map_t (fun v => v [-] off) x in
      let* t := map_t (fun v => v [*] k) u in
      K t) s Q.
Proof.
  intros Hx HK.
  apply wp_bind. eapply wp_map_t; [exact Hx|]. intros u s1 Hp1 Hu.
  apply wp_bind. eapply wp_map_t; [exact Hu|]. intros t s2 Hp2 Ht.
  apply HK; [by etrans|done].
Qed.

Lemma denotes_eq s t a b : denotes s t a -> a = b -> denotes s t b.
Proof. by intros H <-. Qed.

(** C7. On a batched tensor of shape [(N, 3, H, W)], [ycbcr2rgb_pt]
    returns a new tensor holding, pixel by pixel, the closed-form
    conversion: input scaled by 255, Y centered by 16 and Cb, Cr by 128,
    the three linear equations, the three channels concatenated, the
    result divided by 255. *)
Theorem ycbcr2rgb_pt_spec
    (img : Tensor) (a : array float) (s : store) (N H W : nat) :
  denotes s img a ->
  tshape img = [N; 3; H; W] ->
  wp (ycbcr2rgb_pt img) s (fun t s' => denotes s' t (ycbcr_image_to_rgb a)).
Proof.
  intros Hx Hsh.
  pose proof (denotes_shape _ _ _ Hx) as Ha. rewrite Hsh in Ha.
  pose proof (denotes_wf _ _ _ Hx) as Hwa.
  unfold ycbcr2rgb_pt, add_s, sub_s, mul_s, div_s, add, sub.
  apply wp_bind. eapply wp_map_t; [exact Hx|]. intros t0 s0 Hpre H0. frame.
  set (a0 := amap _ a) in *.
  assert (Hs0 : shape a0 = [N; 3; H; W]) by done.
  apply wp_bind. eapply wp_getitem_axis1; [exact H0|by rewrite Hs0|].
  intros y Hy.
  apply wp_bind. eapply wp_getitem_axis1; [exact H0|by rewrite Hs0|].
  intros cb Hcb.
  apply wp_bind. eapply wp_getitem_axis1; [exact H0|by rewrite Hs0|].
  intros cr Hcr.
  cbn [default from_option id] in Hy, Hcb, Hcr.
  assert (Hws : forall c off k, c < 3 ->
            shape (weighted a0 c off k) = [N; 1; H; W])
    by (intros; by apply weighted_shape).
  (* r = 1.164 * (y - 16) + 1.596 * (cr - 128) *)
  eapply (wp_weighted a0 0); [exact Hy|]. intros r1 s1 Hpre Hr1. frame.
  eapply (wp_weighted a0 2); [exact Hcr|]. intros r2 s2 Hpre Hr2. frame.
  apply wp_bind. eapply wp_zip_t;
    [exact Hr1|exact Hr2|apply zip2_same_shape; by rewrite !Hws by lia|].
  intros r s3 Hpre Hr. frame.
  (* g = 1.164 * (y - 16) - 0.392 * (cb - 128) - 0.813 * (cr - 128) *)
  eapply (wp_weighted a0 0); [exact Hy|]. intros g1 s4 Hpre Hg1. frame.
  eapply (wp_weighted a0 1); [exact Hcb|]. intros g2 s5 Hpre Hg2. frame.
  apply wp_bind. eapply wp_zip_t;
    [exact Hg1|exact Hg2|apply zip2_same_shape; by rewrite !Hws by lia|].
  intros g12 s6 Hpre Hg12. frame.
  eapply (wp_weighted a0 2); [exact Hcr|]. intros g3 s7 Hpre Hg3. frame.
  apply wp_bind. eapply wp_zip_t;
    [exact Hg12|exact Hg3|
     apply zip2_same_shape; cbn [shape zip_same init]; by rewrite !Hws by lia|].
  intros g s8 Hpre Hg. frame.
  (* b = 1.164 * (y - 16) + 2.017 * (cb - 128) *)
  eapply (wp_weighted a0 0); [exact Hy|]. intros b1 s9 Hpre Hb1. frame.
  eapply (wp_weighted a0 1); [exact Hcb|]. intros b2 s10 Hpre Hb2. frame.
  apply wp_bind. eapply wp_zip_t;
    [exact Hb1|exact Hb2|apply zip2_same_shape; by rewrite !Hws by lia|].
  intros b s11 Hpre Hb. frame.
  (* rgb = torch.cat((r, g, b), dim=1) / 255.0 *)
  apply wp_bind. eapply wp_cat3;
    [exact Hr|exact Hg|exact Hb|
     apply (cat_channels N H W); cbn [shape zip_same init]; by rewrite Hws by lia|
     apply wf_init|].
  intros rgb s12 Hpre Hrgb. frame.
  eapply wp_map_t; [exact Hrgb|]. intros t s13 _ Ht.
  eapply denotes_eq; [exact Ht|]. clear -Ha Hwa Hs0 Hws.
  apply (array_ext zero);
    [apply wf_amap, wf_init|apply wf_init|
     unfold ycbcr_image_to_rgb; cbn [shape amap channels init]; by rewrite Ha|].
  intros idx Hidx. change (in_bounds [N; 3; H; W] idx) in Hidx.
  apply in_bounds4' in Hidx as (n & c & h & w & -> & Hn & Hc & Hh & Hw).
  assert (Hget : forall k, k < 3 ->
            get zero a0 [n; k; h; w] = get zero a [n; k; h; w] [*] Fp.lit32 255 1).
  { intros k Hk. unfold a0. rewrite (get_amap _ zero); [done|done|].
    rewrite Ha. in_bounds_tac. }
  rewrite (get_amap _ zero) by (first [apply wf_init | in_bounds_tac]).
  rewrite get_channels by done.
  unfold ycbcr_image_to_rgb. rewrite get_init by (rewrite Ha; in_bounds_tac).
  unfold ycbcr_pixel_to_rgb.
  destruct c as [|[|[|c]]]; [| | |lia]; cbn [nth].
  - rewrite (get_zip_same _ _ zero); [|by rewrite !Hws by lia|rewrite Hws by lia; in_bounds_tac].
    rewrite !(weighted_get _ _ _ _ N H W) by (done || lia).
    by rewrite !Hget by lia.
  - rewrite (get_zip_same _ _ zero);
      [|cbn [shape zip_same init]; by rewrite !Hws by lia
       |cbn [shape zip_same init]; rewrite Hws by lia; in_bounds_tac].
    rewrite (get_zip_same _ _ zero); [|by rewrite !Hws by lia|rewrite Hws by lia; in_bounds_tac].
    rewrite !(weighted_get _ _ _ _ N H W) by (done || lia).
    by rewrite !Hget by lia.
  - rewrite (get_zip_same _ _ zero); [|by rewrite !Hws by lia|rewrite Hws by lia; in_bounds_tac].
    rewrite !(weighted_get _ _ _ _ N H W) by (done || lia).
    by rewrite !Hget by lia.
Qed.

Lemma ycbcr2rgb_pt_spec_witness :
  wp (ycbcr2rgb_pt luma_ref) luma_store
     (fun t s' =>
        denotes s' t (ycbcr_image_to_rgb (read luma_store luma_ref))).
Proof.
  apply (ycbcr2rgb_pt_spec luma_ref (read luma_store luma_ref) luma_store 1 1 2).
  - split; [simpl; lia|]. split; [apply wf_iota|reflexivity].
  - reflexivity.
Defined.

End YCbCrToRgb.

(* ===================================================================== *)
(** * What [rgb_to_luma] computes on each sample *)
(* ===================================================================== *)

Section LumaSamples.
Import Nd NdFacts Torch TorchFacts Wp.
Local Open Scope string_scope.
Local Open Scope list_scope.
Local Open Scope nat_scope.
Local Open Scope torch_scope.

Ltac in_bounds_tac :=
  repeat first [apply in_bounds_nil | apply in_bounds_cons | lia].

(** The clamp and the sRGB decoding of the source, on one sample; above
    0.04045 the sample is a value of the reference power, which stands for
    what [torch.pow] returns there. *)
Definition srgb_decode (x : float) : float :=
  let c := clamp1 (Some (Fp.lit32 1 1000000000000)) (Some (Fp.of_Z f32 1)) x in
  if Fp.leb c (Fp.lit32 4045 100000)
  then Fp.div f32 c (Fp.lit32 1292 100)
  else Fp.pow f32 (Fp.div f32 (Fp.add f32 c (Fp.lit32 55 1000))
                             (Fp.lit32 1055 1000))
                  (Fp.lit 24 10).

(** The second [torch.where] of the source and what follows it, on one
    sample: the two segments, the upper one through the reference power,
    the division by 100 and the clamp. *)
Definition lightness (v : float) : float :=
  let l := if Fp.leb v (Fp.lit32 216 24389)
           then Fp.mul f32 v (Fp.mul f32 v (Fp.lit32 24389 27))
           else Fp.sub f32 (Fp.mul f32 (Fp.pow f32 v (Fp.lit 1 3))
                                       (Fp.of_Z f32 116))
                           (Fp.of_Z f32 16) in
  clamp1 (Some (Fp.of_Z f32 0)) (Some (Fp.of_Z f32 1))
         (Fp.div f32 l (Fp.of_Z f32 100)).

(** [torch.where] on a mask and two arrays of one shape. *)
Definition where_same (cond : array bool) (a b : array float) : array float :=
  zip_same (false, zero) zero (fun cv w => if fst cv then snd cv else w)
           (zip_same false zero (fun c v => (c, v)) cond a) b.

Lemma get_where_same cond a b idx :
  shape cond = shape a -> shape a = shape b -> in_bounds (shape a) idx ->
  get zero (where_same cond a b) idx
  = if get false cond idx then get zero a idx else get zero b idx.
Proof.
  intros Hc Hab Hi. unfold where_same.
  set (p := zip_same false zero (fun c v => (c, v)) cond a).
  assert (Hp : shape p = shape a) by (by rewrite <- Hc).
  rewrite (get_zip_same _ _ zero); [|congruence|by rewrite Hp].
  unfold p. rewrite (get_zip_same _ _ (false, zero)); [done|done|by rewrite Hc].
Qed.

Lemma wp_where_same cond x y a b s (Q : Tensor -> store -> Prop) :
  denotes s x a -> denotes s y b ->
  shape cond = shape a -> shape a = shape b ->
  (forall t s', s `prefix_of` s' -> denotes s' t (where_same cond a b) ->
                Q t s') ->
  wp (where_ cond x y) s Q.
Proof.
  intros Hx Hy Hc Hab HQ. unfold where_.
  apply wp_bind, (wp_load x a); [done|].
  apply wp_bind, (wp_load y b); [done|].
  apply wp_bind, (wp_of_option _ _ (zip_same false zero (fun c v => (c, v)) cond a));
    [by apply zip2_same_shape|].
  apply wp_bind, (wp_of_option _ _ (where_same cond a b));
    [apply zip2_same_shape; cbn [shape zip_same init]; congruence|].
  apply wp_new; [apply wf_init|done].
Qed.

(** ** [permute(0, 2, 3, 1)] on a rank-4 tensor *)

Lemma permute4_source n h w c :
  map (fun j => nth (index_of j [0; 2; 3; 1]) [n; h; w; c] 0) (seq 0 4)
  = [n; c; h; w].
Proof. done. Qed.

Lemma get_permute4 {A} (d : A) a N C H W n h w c :
  shape a = [N; C; H; W] -> n < N -> h < H -> w < W -> c < C ->
  get d (Nd.permute d [0; 2; 3; 1] a) [n; h; w; c] = get d a [n; c; h; w].
Proof.
  intros Hs Hn Hh Hw Hc. unfold Nd.permute. rewrite Hs.
  cbn [map nth]. by rewrite get_init by in_bounds_tac.
Qed.

Lemma amap_permute4 {A B} (g : A -> B) (d : A) (d' : B) v N C H W :
  wf v -> shape v = [N; C; H; W] ->
  amap g (Nd.permute d [0; 2; 3; 1] v) = Nd.permute d' [0; 2; 3; 1] (amap g v).
Proof.
  intros Hw Hs. unfold Nd.permute, init, amap at 1; cbn [shape data amap].
  f_equal. rewrite map_map. apply map_ext_in. intros k Hk. apply in_seq in Hk.
  rewrite Hs in *. cbn [map nth length] in *.
  destruct (in_bounds4' N H W C (unravel [N; H; W; C] k))
    as (n & h & w & c & -> & Hn & Hh & Hw' & Hc);
    [apply unravel_in_bounds; lia|].
  rewrite permute4_source. symmetry. apply get_amap; [done|].
  rewrite Hs. in_bounds_tac.
Qed.

Lemma wp_permute4 x a N C H W s (Q : Tensor -> store -> Prop) :
  denotes s x a -> shape a = [N; C; H; W] ->
  (forall t, denotes s t (Nd.permute zero [0; 2; 3; 1] a) -> Q t s) ->
  wp (permute [0; 2; 3; 1] x) s Q.
Proof.
  intros Hx Hs HQ. unfold permute, ndim.
  pose proof (denotes_shape _ _ _ Hx) as Hsx. rewrite <- Hsx, Hs.
  cbn [length Nat.eqb is_permutation forallb existsb seq andb orb].
  apply wp_ret, HQ. destruct Hx as (Hb & Hw & Hr).
  split; [done|]. split; [apply wf_init|].
  unfold read; cbn [base view].
  rewrite (amap_permute4 _ 0 zero _ N C H W) by (done || by rewrite Hsx in Hs).
  fold (read s x). by rewrite Hr.
Qed.

(** ** The two halves of the source on whole arrays *)

Definition decode_array (p : array float) : array float :=
  let c := amap (clamp1 (Some (Fp.lit32 1 1000000000000)) (Some (Fp.of_Z f32 1))) p in
  where_same
    (amap (fun v => Fp.leb v (Fp.lit32 4045 100000)) c)
    (amap (fun v => Fp.div f32 v (Fp.lit32 1292 100)) c)
    (amap (fun v => Fp.pow f32 v (Fp.lit 24 10))
       (amap (fun v => Fp.div f32 v (Fp.lit32 1055 1000))
          (amap (fun v => Fp.add f32 v (Fp.lit32 55 1000)) c))).

Definition lightness_array (r : array float) : array float :=
  amap (clamp1 (Some (Fp.of_Z f32 0)) (Some (Fp.of_Z f32 1)))
    (amap (fun v => Fp.div f32 v (Fp.of_Z f32 100))
       (where_same
          (amap (fun v => Fp.leb v (Fp.lit32 216 24389)) r)
          (zip_same zero zero (Fp.mul f32) r
             (amap (fun v => Fp.mul f32 v (Fp.lit32 24389 27)) r))
          (amap (fun v => Fp.sub f32 v (Fp.of_Z f32 16))
             (amap (fun v => Fp.mul f32 v (Fp.of_Z f32 116))
                (amap (fun v => Fp.pow f32 v (Fp.lit 1 3)) r))))).

Ltac side :=
  first [ assumption
        | apply wf_init
        | repeat apply wf_amap; first [assumption | apply wf_init]
        | cbn [shape amap zip_same where_same init]; assumption
        | cbn [shape amap zip_same where_same init]; reflexivity ].

Lemma get_decode_array p idx :
  wf p -> in_bounds (shape p) idx ->
  get zero (decode_array p) idx = srgb_decode (get zero p idx).
Proof.
  intros Hw Hi. unfold decode_array, srgb_decode.
  rewrite get_where_same; [|side..].
  rewrite (get_amap _ zero false); [|side..].
  repeat (rewrite (get_amap _ zero zero); [|side..]).
  done.
Qed.

Lemma get_lightness_array r idx :
  wf r -> in_bounds (shape r) idx ->
  get zero (lightness_array r) idx = lightness (get zero r idx).
Proof.
  intros Hw Hi. unfold lightness_array, lightness.
  do 2 (rewrite (get_amap _ zero zero); [|side..]).
  rewrite get_where_same; [|side..].
  rewrite (get_amap _ zero false); [|side..].
  rewrite (get_zip_same _ _ zero); [|side..].
  repeat (rewrite (get_amap _ zero zero); [|side..]).
  done.
Qed.

Lemma wp_decode {B} p c s (K : Tensor -> M B) (Q : B -> store -> Prop) :
  denotes s p c ->
  (forall t s', s `prefix_of` s' -> denotes s' t (decode_array c) ->
                wp (K t) s' Q) ->
  wp (let* out_img := clamp p (Some (Fp.lit32 1 1000000000000))
                            (Some (Fp.of_Z f32 1)) in
      let* low := le_s out_img (Fp.lit32 4045 100000) in
      let* lin := div_s out_img (Fp.lit32 1292 100) in
      let* g0 := add_s out_img (Fp.lit32 55 1000) in
      let* g1 := div_s g0 (Fp.lit32 1055 1000) in
      let* gam := pow_s g1 (Fp.lit 24 10) in
      let* out_img := where_ low lin gam in
      K out_img) s Q.
Proof.
  intros Hp HK. unfold clamp, add_s, div_s, pow_s.
  apply wp_bind. eapply wp_map_t; [exact Hp|]. intros o1 s1 Hp1 Ho1.
  apply wp_bind. eapply wp_le_s; [exact Ho1|].
  apply wp_bind. eapply wp_map_t; [exact Ho1|]. intros lin s2 Hp2 Hlin.
  apply (denotes_prefix _ _ _ _ Hp2) in Ho1.
  apply wp_bind. eapply wp_map_t; [exact Ho1|]. intros g0 s3 Hp3 Hg0.
  apply (denotes_prefix _ _ _ _ Hp3) in Hlin.
  apply wp_bind. eapply wp_map_t; [exact Hg0|]. intros g1 s4 Hp4 Hg1.
  apply (denotes_prefix _ _ _ _ Hp4) in Hlin.
  apply wp_bind. eapply wp_map_t; [exact Hg1|]. intros gam s5 Hp5 Hgam.
  apply (denotes_prefix _ _ _ _ Hp5) in Hlin.
  apply wp_bind. eapply wp_where_same; [exact Hlin|exact Hgam|done|done|].
  intros t s6 Hp6 Ht. apply HK; [|exact Ht].
  repeat (etrans; [eassumption|]). done.
Qed.

Lemma wp_lightness o r s (Q : Tensor -> store -> Prop) :
  denotes s o r ->
  (forall t s', s `prefix_of` s' -> denotes s' t (lightness_array r) -> Q t s') ->
  wp (let* low := le_s o (Fp.lit32 216 24389) in
      let* k := mul_s o (Fp.lit32 24389 27) in
      let* seg := mul o k in
      let* c0 := pow_s o (Fp.lit 1 3) in
      let* c1 := mul_s c0 (Fp.of_Z f32 116) in
      let* cub := sub_s c1 (Fp.of_Z f32 16) in
      let* out_img := where_ low seg cub in
      let* d := div_s out_img (Fp.of_Z f32 100) in
      clamp d (Some (Fp.of_Z f32 0)) (Some (Fp.of_Z f32 1))) s Q.
Proof.
  intros Ho HQ. unfold clamp, sub_s, mul_s, div_s, pow_s, mul.
  apply wp_bind. eapply wp_le_s; [exact Ho|].
  apply wp_bind. eapply wp_map_t; [exact Ho|]. intros k s1 Hp1 Hk.
  apply (denotes_prefix _ _ _ _ Hp1) in Ho.
  apply wp_bind. eapply wp_zip_t;
    [exact Ho|exact Hk|by apply zip2_same_shape|].
  intros seg s2 Hp2 Hseg. apply (denotes_prefix _ _ _ _ Hp2) in Ho.
  apply wp_bind. eapply wp_map_t; [exact Ho|]. intros c0 s3 Hp3 Hc0.
  apply (denotes_prefix _ _ _ _ Hp3) in Hseg.
  apply wp_bind. eapply wp_map_t; [exact Hc0|]. intros c1 s4 Hp4 Hc1.
  apply (denotes_prefix _ _ _ _ Hp4) in Hseg.
  apply wp_bind. eapply wp_map_t; [exact Hc1|]. intros cub s5 Hp5 Hcub.
  apply (denotes_prefix _ _ _ _ Hp5) in Hseg.
  apply wp_bind. eapply wp_where_same; [exact Hseg|exact Hcub|done|done|].
  intros o3 s6 Hp6 Ho3.
  apply wp_bind. eapply wp_map_t; [exact Ho3|]. intros d s7 Hp7 Hd.
  eapply wp_map_t; [exact Hd|]. intros t s8 Hp8 Ht.
  apply HQ; [|exact Ht].
  repeat (etrans; [eassumption|]). done.
Qed.

(** ** The function, sample by sample *)

Definition luma_weights : list float :=
  [Fp.lit32 2126 10000; Fp.lit32 7152 10000; Fp.lit32 722 10000].

(** One channel: the sample [(n, h, w)] of the result is the lightness of
    the decoded sample [(n, 0, h, w)] of the input. *)
Lemma rgb_to_luma_gray_samples
    (img : Tensor) (a : array float) (s : store) (N H W : nat) :
  denotes s img a ->
  tshape img = [N; 1; H; W] ->
  wp (rgb_to_luma img) s
     (fun t s' =>
        exists r, denotes s' t r /\ shape r = [N; H; W; 1]
          /\ forall n h w, n < N -> h < H -> w < W ->
               get zero r [n; h; w; 0]
               = lightness (srgb_decode (get zero a [n; 0; h; w]))).
Proof.
  intros Hx Hsh.
  pose proof (denotes_shape _ _ _ Hx) as Ha. rewrite Hsh in Ha.
  pose proof (denotes_wf _ _ _ Hx) as Hwa.
  unfold rgb_to_luma, ndim, dim_from_end, ndim. rewrite Hsh.
  cbn [length Nat.sub nth Nat.ltb Nat.leb Nat.eqb orb andb negb].
  apply wp_bind. eapply (wp_permute4 _ _ N 1 H W); [exact Hx|exact Ha|].
  intros p Hp.
  eapply wp_decode; [exact Hp|]. intros o s1 Hpre Ho.
  apply wp_bind, wp_ret.
  eapply wp_lightness; [exact Ho|]. intros t s2 Hpre2 Ht.
  eexists. split; [exact Ht|].
  assert (Hps : shape (Nd.permute zero [0; 2; 3; 1] a) = [N; H; W; 1])
    by (unfold Nd.permute; cbn [shape init]; by rewrite Ha).
  split; [exact Hps|].
  intros n h w Hn Hh Hw.
  rewrite get_lightness_array; [|apply wf_init|cbn [shape decode_array where_same zip_same amap init] in *; rewrite Hps; in_bounds_tac].
  rewrite get_decode_array; [|apply wf_init|rewrite Hps; in_bounds_tac].
  by rewrite (get_permute4 zero a N 1 H W) by (done || lia).
Qed.

(** Three channels: the decoded samples are first mixed with the
    luminance weights. *)
Lemma rgb_to_luma_rgb_samples
    (img : Tensor) (a : array float) (s : store) (N H W : nat) :
  denotes s img a ->
  tshape img = [N; 3; H; W] ->
  wp (rgb_to_luma img) s
     (fun t s' =>
        exists r, denotes s' t r /\ shape r = [N; H; W]
          /\ forall n h w, n < N -> h < H -> w < W ->
               get zero r [n; h; w]
               = lightness
                   (dot32 [srgb_decode (get zero a [n; 0; h; w]);
                           srgb_decode (get zero a [n; 1; h; w]);
                           srgb_decode (get zero a [n; 2; h; w])]
                          luma_weights)).
Proof.
  intros Hx Hsh.
  pose proof (denotes_shape _ _ _ Hx) as Ha. rewrite Hsh in Ha.
  pose proof (denotes_wf _ _ _ Hx) as Hwa.
  unfold rgb_to_luma, ndim, dim_from_end, ndim. rewrite Hsh.
  cbn [length Nat.sub nth Nat.ltb Nat.leb Nat.eqb orb andb negb].
  apply wp_bind. eapply (wp_permute4 _ _ N 3 H W); [exact Hx|exact Ha|].
  intros p Hp.
  assert (Hps : shape (Nd.permute zero [0; 2; 3; 1] a) = [N; H; W; 3])
    by (unfold Nd.permute; cbn [shape init]; by rewrite Ha).
  eapply wp_decode; [exact Hp|]. intros o s1 Hpre Ho.
  set (D := decode_array _) in *.
  assert (HDs : shape D = [N; H; W; 3]) by exact Hps.
  apply wp_bind, wp_bind. unfold tensor.
  apply wp_new; [done|]. intros wt s2 Hpre2 Hwt.
  apply (denotes_prefix _ _ _ _ Hpre2) in Ho.
  eapply (wp_matmul _ _ _ _
            (init [N; H; W]
               (fun idx => dot32 (last_axis D 3 idx) luma_weights)));
    [exact Ho|exact Hwt| |apply wf_init|].
  { unfold matmul_arrays. by rewrite HDs. }
  intros m s3 Hpre3 Hm.
  eapply wp_lightness; [exact Hm|]. intros t s4 Hpre4 Ht.
  eexists. split; [exact Ht|]. split; [done|].
  intros n h w Hn Hh Hw.
  rewrite get_lightness_array; [|apply wf_init|in_bounds_tac].
  rewrite get_init by in_bounds_tac.
  unfold last_axis. cbn [seq map app]. unfold D.
  rewrite !get_decode_array by (first [apply wf_init | rewrite Hps; in_bounds_tac]).
  by rewrite !(get_permute4 zero a N 3 H W) by (done || lia).
Qed.

(** At or below the threshold, the lightness is the square of the sample
    times 24389/27, over 100, clamped. *)
Lemma lightness_low_segment (v : float) :
  Fp.leb v (Fp.lit32 216 24389) = true ->
  lightness v
  = clamp1 (Some (Fp.of_Z f32 0)) (Some (Fp.of_Z f32 1))
      (Fp.div f32 (Fp.mul f32 v (Fp.mul f32 v (Fp.lit32 24389 27)))
                  (Fp.of_Z f32 100)).
Proof. intros H. unfold lightness. by rewrite H. Qed.

End LumaSamples.

(* ===================================================================== *)
(** * Luma and the Lab pipeline on single pixels *)
(* ===================================================================== *)

Section SinglePixels.
Import Nd Torch.
Local Open Scope string_scope.
Local Open Scope list_scope.
Local Open Scope nat_scope.

(** C4. A grey sample of 1/32 decodes to [v = (1/32) / 12.92], which is
    below the threshold 216/24389.  The linear segment of CIE L* would give
    [v * (24389/27) / 100], about 0.0218; the code multiplies by [v] once
    more and returns [v * (v * (24389/27)) / 100], about 0.0000528. *)
Theorem rgb_to_luma_low_segment_squares :
  let v := Fp.div f32 (Fp.lit32 1 32) (Fp.lit32 1292 100) in
  let k := Fp.lit32 24389 27 in
  let hundred := Fp.of_Z f32 100 in
  Fp.leb v (Fp.lit32 216 24389) = true
  /\ on_pixel rgb_to_luma [Fp.lit32 1 32]
     = Some [Fp.div f32 (Fp.mul f32 v (Fp.mul f32 v k)) hundred]
  /\ on_pixel rgb_to_luma [Fp.lit32 1 32]
     <> Some [Fp.div f32 (Fp.mul f32 v k) hundred]
  /\ Fp.close_to (1 # 10000000) (528 # 10000000)
       (Fp.div f32 (Fp.mul f32 v (Fp.mul f32 v k)) hundred) = true
  /\ Fp.close_to (1 # 10000) (218 # 10000)
       (Fp.div f32 (Fp.mul f32 v k) hundred) = true.
Proof. by vm_compute. Qed.

Definition within (eps q : Q) (o : option float) : bool :=
  match o with
  | Some x => Fp.close_to eps q x
  | None => false
  end.

(** C8. In binary32, the Lab pipeline sends the white pixel (1, 1, 1) to
    L = 1 and to a and b within 1/10000 of 128/255, and the black pixel
    (0, 0, 0) to L = 0; both results have the three channels L, a, b. *)
Theorem lab_of_white_and_black :
  let one := Fp.of_Z f32 1 in
  let nil := Fp.of_Z f32 0 in
  let eps := (1 # 10000)%Q in
  let white := on_pixel linear_rgb_to_lab_norm [one; one; one] in
  let black := on_pixel linear_rgb_to_lab_norm [nil; nil; nil] in
  (length <$> white) = Some 3
  /\ within eps 1 (white ≫= (.!! 0)) = true
  /\ within eps (128 # 255) (white ≫= (.!! 1)) = true
  /\ within eps (128 # 255) (white ≫= (.!! 2)) = true
  /\ (length <$> black) = Some 3
  /\ within eps 0 (black ≫= (.!! 0)) = true.
Proof. by vm_compute. Qed.

End SinglePixels.

(* ===================================================================== *)
(** * Comparison of samples *)
(* ===================================================================== *)

Module FpFacts.

Definition is_nan (x : float) : bool :=
  match x with S754_nan => true | _ => false end.

Lemma compare_antisym (x y : float) :
  SFcompare y x = option_map CompOpp (SFcompare x y).
Proof.
  destruct x as [sx|sx| |sx mx ex], y as [sy|sy| |sy my ey]; simpl;
    try done; try (by destruct sx); try (by destruct sy);
    try (by destruct sx, sy).
  destruct sx, sy; simpl; try done; f_equal;
    rewrite (Z.compare_antisym ex ey); destruct (ex ?= ey)%Z; simpl; try done.
  - by rewrite (Pos.compare_cont_antisym mx my Eq).
  - by rewrite (Pos.compare_cont_antisym mx my Eq).
Qed.

Lemma compare_some (x y : float) :
  is_nan x = false -> is_nan y = false -> exists c, SFcompare x y = Some c.
Proof.
  destruct x as [sx|sx| |sx mx ex], y as [sy|sy| |sy my ey]; simpl;
    try done; intros _ _; by eexists.
Qed.

(** Of two numbers, one is below the other or the other is at most it. *)
Lemma leb_negb_ltb (x y : float) :
  is_nan x = false -> is_nan y = false -> Fp.leb x y = negb (Fp.ltb y x).
Proof.
  intros Hx Hy. unfold Fp.leb, Fp.ltb, SFleb, SFltb.
  rewrite (compare_antisym x y).
  destruct (compare_some x y Hx Hy) as [c ->]. by destruct c.
Qed.

Lemma leb_not_nan (x y : float) :
  Fp.leb x y = true -> is_nan x = false /\ is_nan y = false.
Proof.
  unfold Fp.leb, SFleb.
  destruct x as [sx|sx| |sx mx ex], y as [sy|sy| |sy my ey]; simpl; done.
Qed.

Lemma leb_refl (x : float) : is_nan x = false -> Fp.leb x x = true.
Proof.
  unfold Fp.leb, SFleb.
  destruct x as [sx|sx| |sx mx ex]; simpl; try done; try (by destruct sx).
  intros _. rewrite Z.compare_refl, Pos.compare_cont_refl. by destruct sx.
Qed.

(** [clamp] keeps not-a-number and puts every number between the two
    bounds. *)
Lemma clamp1_between (lo hi v : float) :
  Fp.leb lo hi = true ->
  let r := Torch.clamp1 (Some lo) (Some hi) v in
  if is_nan v then r = S754_nan
  else Fp.leb lo r = true /\ Fp.leb r hi = true.
Proof.
  intros Hlh r. subst r.
  destruct (leb_not_nan _ _ Hlh) as [Hlo Hhi].
  destruct (is_nan v) eqn:Hv; [by destruct v|].
  assert (E : Torch.clamp1 (Some lo) (Some hi) v
              = let v1 := if Fp.ltb v lo then lo else v in
                if Fp.ltb hi v1 then hi else v1) by (by destruct v).
  rewrite E; clear E. cbv zeta.
  destruct (Fp.ltb v lo) eqn:E1.
  - destruct (Fp.ltb hi lo) eqn:E2; [by split; [|apply leb_refl]|].
    split; [by apply leb_refl|done].
  - assert (Hlv : Fp.leb lo v = true) by (by rewrite leb_negb_ltb, E1).
    destruct (Fp.ltb hi v) eqn:E2; [by split; [|apply leb_refl]|].
    split; [done|]. by rewrite leb_negb_ltb, E2.
Qed.

End FpFacts.

(* ===================================================================== *)
(** * More rules for symbolic execution *)
(* ===================================================================== *)

Module WpMore.
Import Nd NdFacts Torch TorchFacts Wp.
Local Open Scope string_scope.
Local Open Scope list_scope.
Local Open Scope nat_scope.
Local Open Scope torch_scope.

Lemma wp_mono {A} (m : M A) s (Q Q' : A -> store -> Prop) :
  wp m s Q -> (forall a s', s `prefix_of` s' -> Q a s' -> Q' a s') ->
  wp m s Q'.
Proof. intros (a & s' & Hm & Hp & HQ) H. exists a, s'. auto. Qed.

Lemma wp_run {A} (m : M A) s (Q : A -> store -> Prop) :
  wp m s Q -> exists a s', m s = (inr a, s') /\ Q a s'.
Proof. intros (a & s' & Hm & _ & HQ). by exists a, s'. Qed.

(** ** The remaining library calls raise library errors only *)

Lemma raises_only_le_s P x c : raises_only P (le_s x c).
Proof. unfold le_s. raises_prim. Qed.

Lemma raises_only_gt_s P x c : raises_only P (gt_s x c).
Proof. unfold gt_s. raises_prim. Qed.

Lemma raises_only_where cond x y : raises_only lib_error (where_ cond x y).
Proof. unfold where_. raises_prim. Qed.

Lemma raises_only_getitem_axis3 i x :
  raises_only lib_error (getitem_axis3_from_end i x).
Proof.
  unfold getitem_axis3_from_end.
  destruct (_ <? _); [raises_prim|]. destruct (_ <=? _); raises_prim.
Qed.

Lemma raises_only_append_two_axes x :
  raises_only lib_error (getitem_append_two_axes x).
Proof. unfold getitem_append_two_axes. destruct (_ <? _); raises_prim. Qed.

Lemma raises_only_stack l : raises_only lib_error (stack_axis3_from_end l).
Proof.
  unfold stack_axis3_from_end. apply raises_only_bind; [raises_prim|].
  intros [|a rest]; [raises_prim|].
  destruct (forallb _ _); [|raises_prim]. destruct (_ <? _); raises_prim.
Qed.

(** The rule is chosen by the head of the call, so that no constant of
    the source is ever unfolded. *)
Ltac raises_all :=
  repeat lazymatch goal with
  | |- raises_only _ (bind _ _) => apply raises_only_bind; [|intros ?]
  | |- raises_only _ (ret _) => apply raises_only_ret
  | |- raises_only _ (raise _) => apply raises_only_raise; exact I
  | |- raises_only _ (load _) => apply raises_only_load
  | |- raises_only _ (new _) => apply raises_only_new
  | |- raises_only _ (of_option _ _) => apply raises_only_of_option
  | |- raises_only _ (load_all _) => apply raises_only_load_all
  | |- raises_only _ (le_s _ _) => apply raises_only_le_s
  | |- raises_only _ (gt_s _ _) => apply raises_only_gt_s
  | |- raises_only _ (where_ _ _ _) => apply raises_only_where
  | |- raises_only _ (getitem_axis3_from_end _ _) =>
      apply raises_only_getitem_axis3
  | |- raises_only _ (getitem_append_two_axes _) =>
      apply raises_only_append_two_axes
  | |- raises_only _ (stack_axis3_from_end _) => apply raises_only_stack
  | |- raises_only _ (map_t _ _) => apply raises_only_map_t
  | |- raises_only _ (zip_t _ _ _) => apply raises_only_zip_t
  | |- raises_only _ (matmul _ _) => apply raises_only_matmul
  | |- raises_only _ (cat _ _) => apply raises_only_cat
  | |- raises_only _ (permute _ _) => apply raises_only_permute
  | |- raises_only _ (getitem_axis1 _ _ _) => apply raises_only_getitem_axis1
  | |- raises_only _ (setitem_axis1 _ _ _ _) =>
      apply raises_only_setitem_axis1
  end.

(** ** ... and only ever allocate *)

Lemma grows_le_s x c : grows (le_s x c).
Proof. unfold le_s. repeat grows_step. Qed.

Lemma grows_gt_s x c : grows (gt_s x c).
Proof. unfold gt_s. repeat grows_step. Qed.

Lemma grows_where cond x y : grows (where_ cond x y).
Proof. unfold where_. repeat grows_step. Qed.

Lemma grows_getitem_axis3 i x : grows (getitem_axis3_from_end i x).
Proof.
  unfold getitem_axis3_from_end.
  destruct (_ <? _); [grows_step|]. destruct (_ <=? _); grows_step.
Qed.

Lemma grows_append_two_axes x : grows (getitem_append_two_axes x).
Proof. unfold getitem_append_two_axes. destruct (_ <? _); grows_step. Qed.

Lemma grows_stack l : grows (stack_axis3_from_end l).
Proof.
  unfold stack_axis3_from_end. apply grows_bind; [grows_step|].
  intros [|a rest]; [grows_step|].
  destruct (forallb _ _); [|grows_step]. destruct (_ <? _); repeat grows_step.
Qed.

Ltac grows_all :=
  repeat lazymatch goal with
  | |- grows (bind _ _) => apply grows_bind; [|intros ?]
  | |- grows (ret _) => apply grows_ret
  | |- grows (raise _) => apply grows_raise
  | |- grows (load _) => apply grows_load
  | |- grows (new _) => apply grows_new
  | |- grows (of_option _ _) => apply grows_of_option
  | |- grows (load_all _) => apply grows_load_all
  | |- grows (le_s _ _) => apply grows_le_s
  | |- grows (gt_s _ _) => apply grows_gt_s
  | |- grows (where_ _ _ _) => apply grows_where
  | |- grows (getitem_axis3_from_end _ _) => apply grows_getitem_axis3
  | |- grows (getitem_append_two_axes _) => apply grows_append_two_axes
  | |- grows (stack_axis3_from_end _) => apply grows_stack
  | |- grows (map_t _ _) => apply grows_map_t
  | |- grows (zip_t _ _ _) => apply grows_zip_t
  | |- grows (matmul _ _) => apply grows_matmul
  | |- grows (cat _ _) => apply grows_cat
  | |- grows (permute _ _) => apply grows_permute
  | |- grows (getitem_axis1 _ _ _) => apply grows_getitem_axis1
  end.

End WpMore.

(* ===================================================================== *)
(** * Shape checks, exceptions and allocation of the tensor functions *)
(* ===================================================================== *)

Section TensorDiscipline.
Import Nd NdFacts Torch TorchFacts Wp WpMore.
Local Open Scope string_scope.
Local Open Scope list_scope.
Local Open Scope nat_scope.
Local Open Scope torch_scope.

(** The shapes the two checks of the source turn away. *)
Definition not_1_or_3_channels (x : Tensor) : Prop :=
  ndim x < 3 \/ (dim_from_end x 3 <> 3 /\ dim_from_end x 3 <> 1).

Definition not_3_channels (x : Tensor) : Prop :=
  ndim x < 3 \/ dim_from_end x 3 <> 3.

Lemma check13_spec (x : Tensor) :
  (ndim x <? 3) || (negb (dim_from_end x 3 =? 3) && negb (dim_from_end x 3 =? 1))
  = true <-> not_1_or_3_channels x.
Proof.
  unfold not_1_or_3_channels.
  rewrite orb_true_iff, andb_true_iff, !negb_true_iff, Nat.ltb_lt, !Nat.eqb_neq.
  done.
Qed.

Lemma check3_spec (x : Tensor) :
  (ndim x <? 3) || negb (dim_from_end x 3 =? 3) = true <-> not_3_channels x.
Proof.
  unfold not_3_channels.
  by rewrite orb_true_iff, negb_true_iff, Nat.ltb_lt, Nat.eqb_neq.
Qed.

Definition value_or_lib_error (e : exc) : Prop :=
  match e with
  | ValueError _ | RuntimeError _ | IndexError _ => True
  | _ => False
  end.

Definition not_implemented_or_lib_error (e : exc) : Prop :=
  match e with
  | NotImplementedError _ | RuntimeError _ | IndexError _ => True
  | _ => False
  end.

Definition dispatch_error (e : exc) : Prop :=
  match e with
  | NotImplementedError _ | AssertionError _ | RuntimeError _ | IndexError _ =>
      True
  | _ => False
  end.

Lemma raises_only_weaken {A} (P Q : exc -> Prop) (m : M A) :
  (forall e, P e -> Q e) -> raises_only P m -> raises_only Q m.
Proof. intros HPQ Hm s e s' H. eapply HPQ, Hm, H. Qed.

(** Past its shape check, each function makes library calls only. *)
Lemma rgb_to_luma_body_raises (img : Tensor) :
  not_1_or_3_channels img \/ raises_only lib_error (rgb_to_luma img).
Proof.
  unfold rgb_to_luma.
  destruct (_ || _) eqn:E; [left; by apply check13_spec|right].
  unfold tensor, clamp, add_s, sub_s, mul_s, div_s, pow_s, mul.
  raises_all. destruct (_ =? _); raises_all.
Qed.

Lemma rgb_to_linear_rgb_body_raises (image : Tensor) :
  not_3_channels image \/ raises_only lib_error (rgb_to_linear_rgb image).
Proof.
  unfold rgb_to_linear_rgb.
  destruct (_ || _) eqn:E; [left; by apply check3_spec|right].
  unfold add_s, div_s, pow_s. raises_all.
Qed.

Lemma rgb_to_xyz_body_raises (image : Tensor) :
  not_3_channels image \/ raises_only lib_error (rgb_to_xyz image).
Proof.
  unfold rgb_to_xyz.
  destruct (_ || _) eqn:E; [left; by apply check3_spec|right].
  unfold mul_s, add. raises_all.
Qed.

Lemma linear_rgb_to_lab_norm_body_raises (lin_rgb : Tensor) :
  not_3_channels lin_rgb \/ raises_only lib_error (linear_rgb_to_lab_norm lin_rgb).
Proof.
  destruct (rgb_to_xyz_body_raises lin_rgb) as [Hb|Hxyz]; [by left|].
  unfold linear_rgb_to_lab_norm.
  destruct (_ || _) eqn:E; [left; by apply check3_spec|right].
  unfold tensor, clamp, add_s, sub_s, mul_s, div_s, pow_s, div, sub.
  apply raises_only_bind; [exact Hxyz|]. intros xyz. raises_all.
Qed.

Lemma value_error_only_on_bad_shape {A} (m : M A) (bad : Prop) s msg :
  bad \/ raises_only lib_error m ->
  fst (m s) = inl (ValueError msg) -> bad.
Proof.
  intros [Hb|Hm] H; [done|].
  destruct (m s) as [r s'] eqn:E; simpl in H; subst r.
  by apply Hm in E.
Qed.

(** X1. The four functions with a shape check raise [ValueError] exactly on
    the shapes the check turns away, with the message of the source and
    the store as it was: fewer than three axes, or a third axis from the
    end that is neither 3 nor (for [rgb_to_luma]) 1.  On every other
    shape an exception, if any, comes from PyTorch. *)
Theorem shape_checks_raise_value_error (x : Tensor) (s : store) :
  let got := show_size (tshape x) in
  let rgb_only :=
    ValueError (String.append
                  "Input size must have a shape of (*, 3, H, W). Got " got) in
  ((exists msg, fst (rgb_to_luma x s) = inl (ValueError msg))
     <-> not_1_or_3_channels x)
  /\ (not_1_or_3_channels x ->
      rgb_to_luma x s
      = (inl (ValueError
                (String.append
                   "Input size must have a shape of (*, 3, H, W) or (*, 1, H, W). Got "
                   got)), s))
  /\ ((exists msg, fst (rgb_to_linear_rgb x s) = inl (ValueError msg))
        <-> not_3_channels x)
  /\ (not_3_channels x ->
      rgb_to_linear_rgb x s
      = (inl (ValueError
                (String.append
                   "Input size must have a shape of (*, 3, H, W).Got " got)), s))
  /\ ((exists msg, fst (rgb_to_xyz x s) = inl (ValueError msg))
        <-> not_3_channels x)
  /\ (not_3_channels x -> rgb_to_xyz x s = (inl rgb_only, s))
  /\ ((exists msg, fst (linear_rgb_to_lab_norm x s) = inl (ValueError msg))
        <-> not_3_channels x)
  /\ (not_3_channels x -> linear_rgb_to_lab_norm x s = (inl rgb_only, s)).
Proof.
  intros got rgb_only.
  assert (H13 : not_1_or_3_channels x ->
    rgb_to_luma x s
    = (inl (ValueError
              (String.append
                 "Input size must have a shape of (*, 3, H, W) or (*, 1, H, W). Got "
                 got)), s)).
  { intros Hb. apply check13_spec in Hb. unfold rgb_to_luma. by rewrite Hb. }
  assert (Hlin : not_3_channels x ->
    rgb_to_linear_rgb x s
    = (inl (ValueError
              (String.append
                 "Input size must have a shape of (*, 3, H, W).Got " got)), s)).
  { intros Hb. apply check3_spec in Hb. unfold rgb_to_linear_rgb. by rewrite Hb. }
  assert (Hxyz : not_3_channels x -> rgb_to_xyz x s = (inl rgb_only, s)).
  { intros Hb. apply check3_spec in Hb. unfold rgb_to_xyz. by rewrite Hb. }
  assert (Hlab : not_3_channels x ->
                 linear_rgb_to_lab_norm x s = (inl rgb_only, s)).
  { intros Hb. apply check3_spec in Hb. unfold linear_rgb_to_lab_norm.
    by rewrite Hb. }
  repeat split; try done.
  - intros [msg H]. eapply value_error_only_on_bad_shape; [|exact H].
    apply rgb_to_luma_body_raises.
  - intros Hb. rewrite H13 by done. by eexists.
  - intros [msg H]. eapply value_error_only_on_bad_shape; [|exact H].
    apply rgb_to_linear_rgb_body_raises.
  - intros Hb. rewrite Hlin by done. by eexists.
  - intros [msg H]. eapply value_error_only_on_bad_shape; [|exact H].
    apply rgb_to_xyz_body_raises.
  - intros Hb. rewrite Hxyz by done. by eexists.
  - intros [msg H]. eapply value_error_only_on_bad_shape; [|exact H].
    apply linear_rgb_to_lab_norm_body_raises.
  - intros Hb. rewrite Hlab by done. by eexists.
Qed.

(** X2. Which exceptions each tensor function can raise, whatever the tensor
    and the store: the two YCbCr conversions only PyTorch's own
    [RuntimeError] and [IndexError]; the four checked functions those and
    [ValueError]; the forward dispatcher those and [NotImplementedError];
    the inverse dispatcher those, [NotImplementedError] and
    [AssertionError].  None raises [TypeError]. *)
Theorem exceptions_of_tensor_functions
    (x : Tensor) (ref : option Tensor) (y_only : bool) (fmt : string) :
  raises_only lib_error (rgb2ycbcr_pt x y_only)
  /\ raises_only lib_error (ycbcr2rgb_pt x)
  /\ raises_only value_or_lib_error (rgb_to_luma x)
  /\ raises_only value_or_lib_error (rgb_to_linear_rgb x)
  /\ raises_only value_or_lib_error (rgb_to_xyz x)
  /\ raises_only value_or_lib_error (linear_rgb_to_lab_norm x)
  /\ raises_only not_implemented_or_lib_error (rgb2pixelformat_pt x fmt)
  /\ raises_only dispatch_error (pixelformat2rgb_pt x ref fmt).
Proof.
  assert (Hv : forall e, lib_error e -> value_or_lib_error e) by (by intros []).
  assert (Hn : forall e, lib_error e -> not_implemented_or_lib_error e)
    by (by intros []).
  assert (Hd : forall e, lib_error e -> dispatch_error e) by (by intros []).
  split; [apply raises_only_rgb2ycbcr_pt|].
  split; [apply raises_only_ycbcr2rgb_pt|].
  split.
  { unfold rgb_to_luma. destruct (_ || _) eqn:E;
      [by apply raises_only_raise|].
    destruct (rgb_to_luma_body_raises x) as [Hb|Hm];
      [apply check13_spec in Hb; congruence|].
    unfold rgb_to_luma in Hm. rewrite E in Hm.
    by eapply raises_only_weaken. }
  split.
  { unfold rgb_to_linear_rgb. destruct (_ || _) eqn:E;
      [by apply raises_only_raise|].
    destruct (rgb_to_linear_rgb_body_raises x) as [Hb|Hm];
      [apply check3_spec in Hb; congruence|].
    unfold rgb_to_linear_rgb in Hm. rewrite E in Hm.
    by eapply raises_only_weaken. }
  split.
  { unfold rgb_to_xyz. destruct (_ || _) eqn:E;
      [by apply raises_only_raise|].
    destruct (rgb_to_xyz_body_raises x) as [Hb|Hm];
      [apply check3_spec in Hb; congruence|].
    unfold rgb_to_xyz in Hm. rewrite E in Hm.
    by eapply raises_only_weaken. }
  split.
  { unfold linear_rgb_to_lab_norm. destruct (_ || _) eqn:E;
      [by apply raises_only_raise|].
    destruct (linear_rgb_to_lab_norm_body_raises x) as [Hb|Hm];
      [apply check3_spec in Hb; congruence|].
    unfold linear_rgb_to_lab_norm in Hm. rewrite E in Hm.
    by eapply raises_only_weaken. }
  split.
  { unfold rgb2pixelformat_pt.
    destruct (String.eqb fmt "rgb"); [apply raises_only_ret|].
    destruct (String.eqb fmt "gray"); [by apply raises_only_raise|].
    destruct (String.eqb fmt "yuv444").
    { eapply raises_only_weaken; [exact Hn|apply raises_only_rgb2ycbcr_pt]. }
    destruct (String.eqb fmt "y").
    { eapply raises_only_weaken; [exact Hn|].
      apply raises_only_bind; [apply raises_only_rgb2ycbcr_pt|].
      intros t. apply raises_only_getitem_axis1. }
    destruct (String.eqb fmt "uv"); by apply raises_only_raise. }
  unfold pixelformat2rgb_pt.
  destruct (String.eqb fmt "rgb"); [apply raises_only_ret|].
  destruct (String.eqb fmt "gray"); [by apply raises_only_raise|].
  destruct (String.eqb fmt "yuv444").
  { eapply raises_only_weaken; [exact Hd|apply raises_only_ycbcr2rgb_pt]. }
  destruct (String.eqb fmt "y").
  { destruct ref as [r|]; [|by apply raises_only_raise].
    eapply raises_only_weaken; [exact Hd|apply raises_only_splice]. }
  destruct (String.eqb fmt "uv"); [|by apply raises_only_raise].
  destruct ref as [r|]; [|by apply raises_only_raise].
  eapply raises_only_weaken; [exact Hd|apply raises_only_splice].
Qed.

(** X3. A tag that is none of the five the dispatchers test reaches the last
    line of either: [NotImplementedError] carrying the tag, the store as
    it was, whatever the tensors. *)
Theorem unknown_tags_are_not_implemented
    (img : Tensor) (ref : option Tensor) (fmt : string) (s : store) :
  ~ In fmt ["rgb"; "gray"; "yuv444"; "y"; "uv"] ->
  rgb2pixelformat_pt img fmt s = (inl (NotImplementedError (Some fmt)), s)
  /\ pixelformat2rgb_pt img ref fmt s
     = (inl (NotImplementedError (Some fmt)), s).
Proof.
  intros Hn.
  destruct (unknown_tag_not_implemented img ref fmt s Hn) as [H1 H2].
  by split.
Qed.

Lemma unknown_tags_are_not_implemented_witness :
  rgb2pixelformat_pt luma_img "bgr" luma_store
  = (inl (NotImplementedError (Some "bgr")), luma_store)
  /\ pixelformat2rgb_pt luma_img None "bgr" luma_store
     = (inl (NotImplementedError (Some "bgr")), luma_store).
Proof.
  apply (unknown_tags_are_not_implemented luma_img None "bgr" luma_store).
  intros [H|[H|[H|[H|[H|[]]]]]]; discriminate H.
Defined.

(** X4. No tensor function of the module changes a storage that exists when
    it is called: the store it leaves, whether it returns or raises,
    extends the one it found.  The only write of the module, the slice
    assignment of the inverse dispatcher, lands in a storage allocated
    during the call. *)
Theorem tensor_functions_only_allocate
    (x : Tensor) (ref : option Tensor) (y_only : bool) (fmt : string) :
  grows (rgb2ycbcr_pt x y_only)
  /\ grows (ycbcr2rgb_pt x)
  /\ grows (rgb_to_luma x)
  /\ grows (rgb_to_linear_rgb x)
  /\ grows (rgb_to_xyz x)
  /\ grows (linear_rgb_to_lab_norm x)
  /\ grows (rgb2pixelformat_pt x fmt)
  /\ grows (pixelformat2rgb_pt x ref fmt).
Proof.
  assert (Hxyz : forall x, grows (rgb_to_xyz x)).
  { intros x0. unfold rgb_to_xyz. destruct (_ || _); [apply grows_raise|].
    unfold mul_s, add. grows_all. }
  split; [apply grows_rgb2ycbcr_pt|].
  split; [apply grows_ycbcr2rgb_pt|].
  split.
  { unfold rgb_to_luma. destruct (_ || _); [apply grows_raise|].
    unfold tensor, clamp, add_s, sub_s, mul_s, div_s, pow_s, mul.
    grows_all. destruct (_ =? _); grows_all. }
  split.
  { unfold rgb_to_linear_rgb. destruct (_ || _); [apply grows_raise|].
    unfold add_s, div_s, pow_s. grows_all. }
  split; [apply Hxyz|].
  split.
  { unfold linear_rgb_to_lab_norm. destruct (_ || _); [apply grows_raise|].
    unfold tensor, clamp, add_s, sub_s, mul_s, div_s, pow_s, div, sub.
    apply grows_bind; [apply Hxyz|]. intros xyz. grows_all. }
  split.
  { unfold rgb2pixelformat_pt.
    destruct (String.eqb fmt "rgb"); [apply grows_ret|].
    destruct (String.eqb fmt "gray"); [apply grows_raise|].
    destruct (String.eqb fmt "yuv444"); [apply grows_rgb2ycbcr_pt|].
    destruct (String.eqb fmt "y").
    { apply grows_bind; [apply grows_rgb2ycbcr_pt|].
      intros t. apply grows_getitem_axis1. }
    destruct (String.eqb fmt "uv"); apply grows_raise. }
  unfold pixelformat2rgb_pt.
  destruct (String.eqb fmt "rgb"); [apply grows_ret|].
  destruct (String.eqb fmt "gray"); [apply grows_raise|].
  destruct (String.eqb fmt "yuv444"); [apply grows_ycbcr2rgb_pt|].
  destruct (String.eqb fmt "y").
  { destruct ref as [r|]; [|apply grows_raise].
    intros s. apply splice_preserves. }
  destruct (String.eqb fmt "uv"); [|apply grows_raise].
  destruct ref as [r|]; [|apply grows_raise].
  intros s. apply splice_preserves.
Qed.

End TensorDiscipline.

(* ===================================================================== *)
(** * [rgb_to_luma] and [rgb_to_linear_rgb], sample by sample *)
(* ===================================================================== *)

Section LumaAndLinear.
Import Nd NdFacts Torch TorchFacts Wp WpMore FpFacts.
Local Open Scope string_scope.
Local Open Scope list_scope.
Local Open Scope nat_scope.
Local Open Scope torch_scope.

Ltac in_bounds_tac :=
  repeat first [apply in_bounds_nil | apply in_bounds_cons | lia].

(** Not a number, or a number from 0 to 1. *)
Definition unit_or_nan (r : float) : Prop :=
  r = S754_nan
  \/ (Fp.leb (Fp.of_Z f32 0) r = true /\ Fp.leb r (Fp.of_Z f32 1) = true).

Lemma lightness_range (v : float) : unit_or_nan (lightness v).
Proof.
  unfold lightness. set (l := Fp.div f32 _ _).
  assert (H01 : Fp.leb (Fp.of_Z f32 0) (Fp.of_Z f32 1) = true)
    by (by vm_compute).
  pose proof (clamp1_between _ _ l H01) as H. cbv zeta in H.
  destruct (is_nan l); [by left|by right].
Qed.

(** ** The samples that do not reach [torch.pow]

    [torch.where] takes the sample of its first tensor wherever the mask
    holds.  Where the clamped input is at most 0.04045 the decoding is the
    quotient by 12.92, and where that, or the luminance of three such, is
    at most 216/24389 the lightness is the lower segment as the source
    writes it, [v * (v * (24389 / 27))].  On these samples the result is
    made of additions, products and quotients only. *)

Definition clamp_unit (x : float) : float :=
  clamp1 (Some (Fp.lit32 1 1000000000000)) (Some (Fp.of_Z f32 1)) x.

Definition knee : float := Fp.lit32 4045 100000.

Definition linear_segment (c : float) : float :=
  Fp.div f32 c (Fp.lit32 1292 100).

Definition luminance (r g b : float) : float := dot32 [r; g; b] luma_weights.

Definition on_lower_segment (v : float) : bool := Fp.leb v (Fp.lit32 216 24389).

Definition lower_lightness (v : float) : float :=
  clamp1 (Some (Fp.of_Z f32 0)) (Some (Fp.of_Z f32 1))
    (Fp.div f32 (Fp.mul f32 v (Fp.mul f32 v (Fp.lit32 24389 27)))
                (Fp.of_Z f32 100)).

(** A sample of a one-channel image for which both masks hold. *)
Definition dark_sample (x : float) : bool :=
  Fp.leb (clamp_unit x) knee
  && on_lower_segment (linear_segment (clamp_unit x)).

(** A pixel of an RGB image for which the first mask holds on the three
    samples and the second on their luminance. *)
Definition dark_pixel (r g b : float) : bool :=
  Fp.leb (clamp_unit r) knee && Fp.leb (clamp_unit g) knee
  && Fp.leb (clamp_unit b) knee
  && on_lower_segment
       (luminance (linear_segment (clamp_unit r))
                  (linear_segment (clamp_unit g))
                  (linear_segment (clamp_unit b))).

Lemma srgb_decode_linear (x : float) :
  Fp.leb (clamp_unit x) knee = true ->
  srgb_decode x = linear_segment (clamp_unit x).
Proof.
  unfold srgb_decode, clamp_unit, knee, linear_segment. cbv zeta.
  by intros ->.
Qed.

Lemma lightness_of_dark_sample (x : float) :
  dark_sample x = true ->
  lightness (srgb_decode x) = lower_lightness (linear_segment (clamp_unit x)).
Proof.
  unfold dark_sample. intros [Hk Hl]%andb_prop.
  rewrite srgb_decode_linear by done. by apply lightness_low_segment.
Qed.

Lemma lightness_of_dark_pixel (r g b : float) :
  dark_pixel r g b = true ->
  lightness (dot32 [srgb_decode r; srgb_decode g; srgb_decode b] luma_weights)
  = lower_lightness (luminance (linear_segment (clamp_unit r))
                               (linear_segment (clamp_unit g))
                               (linear_segment (clamp_unit b))).
Proof.
  unfold dark_pixel. intros [[[Hr Hg]%andb_prop Hb]%andb_prop Hl]%andb_prop.
  rewrite !srgb_decode_linear by done. by apply lightness_low_segment.
Qed.

(** A store with a 1x3x1x2 RGB tensor, whose first pixel
    (1/32, 1/128, 1/100) is dark and whose second (1/64, 1/2, 1/50) is
    not, and a 1x1x1x2 one-channel tensor with a dark sample and a bright
    one. *)
Definition dark_store : store :=
  [ [Fp.lit32 1 32; Fp.lit32 1 64; Fp.lit32 1 128;
     Fp.lit32 1 2; Fp.lit32 1 100; Fp.lit32 1 50];
    [Fp.lit32 1 32; Fp.lit32 1 2] ].
Definition dark_rgb : Tensor := mkTensor 0 (iota [1; 3; 1; 2]).
Definition dark_gray : Tensor := mkTensor 1 (iota [1; 1; 1; 2]).

(** X5. [rgb_to_luma] on a batch of one-channel images [(N, 1, H, W)]: the
    call returns a tensor of shape [(N, H, W, 1)], channel last.  Each of
    its samples is not a number or lies between 0 and 1, and the sample
    [(n, h, w, 0)] of a dark input sample [(n, 0, h, w)] is, with [v] the
    clamped sample over 12.92, [v * (v * (24389 / 27)) / 100] clamped to
    [0, 1]. *)
Theorem rgb_to_luma_one_channel
    (img : Tensor) (a : array float) (s : store) (N H W : nat) :
  denotes s img a ->
  tshape img = [N; 1; H; W] ->
  wp (rgb_to_luma img) s
     (fun t s' =>
        exists r, denotes s' t r /\ shape r = [N; H; W; 1]
          /\ forall n h w, n < N -> h < H -> w < W ->
               unit_or_nan (get zero r [n; h; w; 0])
               /\ (dark_sample (get zero a [n; 0; h; w]) = true ->
                   get zero r [n; h; w; 0]
                   = lower_lightness
                       (linear_segment
                          (clamp_unit (get zero a [n; 0; h; w]))))).
Proof.
  intros Hx Hsh.
  eapply wp_mono; [by apply (rgb_to_luma_gray_samples img a s N H W)|].
  intros t s' _ (r & Hr & Hs & Hg). exists r.
  split; [done|]. split; [done|]. intros n h w Hn Hh Hw.
  rewrite Hg by done. split; [apply lightness_range|].
  apply lightness_of_dark_sample.
Qed.

Lemma rgb_to_luma_one_channel_witness :
  dark_sample (get zero (read dark_store dark_gray) [0; 0; 0; 0]) = true
  /\ wp (rgb_to_luma dark_gray) dark_store
       (fun t s' =>
          exists r, denotes s' t r /\ shape r = [1; 1; 2; 1]
            /\ forall n h w, n < 1 -> h < 1 -> w < 2 ->
                 unit_or_nan (get zero r [n; h; w; 0])
                 /\ (dark_sample
                       (get zero (read dark_store dark_gray) [n; 0; h; w])
                     = true ->
                     get zero r [n; h; w; 0]
                     = lower_lightness
                         (linear_segment
                            (clamp_unit
                               (get zero (read dark_store dark_gray)
                                    [n; 0; h; w]))))).
Proof.
  split; [by vm_compute|].
  apply (rgb_to_luma_one_channel dark_gray (read dark_store dark_gray)
           dark_store 1 1 2).
  - split; [simpl; lia|]. split; [apply wf_iota|reflexivity].
  - reflexivity.
Defined.

(** X6. [rgb_to_luma] on a batch of RGB images [(N, 3, H, W)]: the call
    returns a tensor of shape [(N, H, W)].  Each of its samples is not a
    number or lies between 0 and 1, and the sample [(n, h, w)] of a dark
    pixel is, with [v] the luminance
    [0.2126 R + 0.7152 G + 0.0722 B] of the three clamped samples over
    12.92, summed from left to right, [v * (v * (24389 / 27)) / 100]
    clamped to [0, 1]. *)
Theorem rgb_to_luma_three_channels
    (img : Tensor) (a : array float) (s : store) (N H W : nat) :
  denotes s img a ->
  tshape img = [N; 3; H; W] ->
  wp (rgb_to_luma img) s
     (fun t s' =>
        exists r, denotes s' t r /\ shape r = [N; H; W]
          /\ forall n h w, n < N -> h < H -> w < W ->
               unit_or_nan (get zero r [n; h; w])
               /\ (dark_pixel (get zero a [n; 0; h; w])
                              (get zero a [n; 1; h; w])
                              (get zero a [n; 2; h; w]) = true ->
                   get zero r [n; h; w]
                   = lower_lightness
                       (luminance
                          (linear_segment (clamp_unit (get zero a [n; 0; h; w])))
                          (linear_segment (clamp_unit (get zero a [n; 1; h; w])))
                          (linear_segment (clamp_unit (get zero a [n; 2; h; w])))))).
Proof.
  intros Hx Hsh.
  eapply wp_mono; [by apply (rgb_to_luma_rgb_samples img a s N H W)|].
  intros t s' _ (r & Hr & Hs & Hg). exists r.
  split; [done|]. split; [done|]. intros n h w Hn Hh Hw.
  rewrite Hg by done. split; [apply lightness_range|].
  apply lightness_of_dark_pixel.
Qed.

Lemma rgb_to_luma_three_channels_witness :
  dark_pixel (get zero (read dark_store dark_rgb) [0; 0; 0; 0])
             (get zero (read dark_store dark_rgb) [0; 1; 0; 0])
             (get zero (read dark_store dark_rgb) [0; 2; 0; 0]) = true
  /\ wp (rgb_to_luma dark_rgb) dark_store
       (fun t s' =>
          exists r, denotes s' t r /\ shape r = [1; 1; 2]
            /\ forall n h w, n < 1 -> h < 1 -> w < 2 ->
                 let x c := get zero (read dark_store dark_rgb) [n; c; h; w] in
                 unit_or_nan (get zero r [n; h; w])
                 /\ (dark_pixel (x 0) (x 1) (x 2) = true ->
                     get zero r [n; h; w]
                     = lower_lightness
                         (luminance (linear_segment (clamp_unit (x 0)))
                                    (linear_segment (clamp_unit (x 1)))
                                    (linear_segment (clamp_unit (x 2)))))).
Proof.
  split; [by vm_compute|].
  apply (rgb_to_luma_three_channels dark_rgb (read dark_store dark_rgb)
           dark_store 1 1 2).
  - split; [simpl; lia|]. split; [apply wf_iota|reflexivity].
  - reflexivity.
Defined.

(** ** [rgb_to_linear_rgb] *)

(** The [torch.where] of the source on one sample, the upper branch
    through the reference power. *)
Definition srgb_to_linear (x : float) : float :=
  if Fp.ltb (Fp.lit32 4045 100000) x
  then Fp.pow f32 (Fp.div f32 (Fp.add f32 x (Fp.lit32 55 1000))
                              (Fp.lit32 1055 1000))
                  (Fp.lit 24 10)
  else Fp.div f32 x (Fp.lit32 1292 100).

Lemma rgb_to_linear_rgb_denotes
    (image : Tensor) (a : array float) (s : store) :
  denotes s image a ->
  3 <= ndim image -> dim_from_end image 3 = 3 ->
  wp (rgb_to_linear_rgb image) s
     (fun t s' => denotes s' t (amap srgb_to_linear a)).
Proof.
  intros Hx Hn Hc.
  pose proof (denotes_wf _ _ _ Hx) as Hwa.
  unfold rgb_to_linear_rgb. rewrite Hc.
  apply Nat.ltb_ge in Hn. rewrite Hn. cbn [orb negb Nat.eqb].
  unfold add_s, div_s, pow_s.
  apply wp_bind. eapply wp_gt_s; [eassumption|].
  apply wp_bind. eapply wp_map_t; [eassumption|]. intros g0 s1 Hp Hg0. frame.
  apply wp_bind. eapply wp_map_t; [eassumption|]. intros g1 s2 Hp Hg1. frame.
  apply wp_bind. eapply wp_map_t; [eassumption|]. intros gam s3 Hp Hgam. frame.
  apply wp_bind. eapply wp_map_t; [exact Hx|]. intros lin s4 Hp Hlin. frame.
  eapply wp_where_same; [exact Hgam|exact Hlin|done|done|].
  intros t s5 _ Ht. eapply denotes_eq; [exact Ht|]. clear -Hwa.
  apply (array_ext zero); [apply wf_init|by apply wf_amap|done|].
  intros idx Hidx. cbn [shape where_same zip_same amap init] in Hidx.
  rewrite get_where_same; [|done|done|done].
  rewrite (get_amap _ zero false) by done.
  rewrite !(get_amap _ zero zero)
    by (first [done | by repeat apply wf_amap]).
  done.
Qed.

Lemma srgb_to_linear_not_above (x : float) :
  Fp.ltb knee x = false -> srgb_to_linear x = linear_segment x.
Proof. unfold srgb_to_linear, knee, linear_segment. by intros ->. Qed.

(** A store with a 2x3x1x1 tensor: a pixel (1/32, 0, -1/4) and a pixel
    (not-a-number, 1/2, 1). *)
Definition linear_store : store :=
  [ [Fp.lit32 1 32; Fp.of_Z f32 0; Fp.lit32 (-1) 4;
     S754_nan; Fp.lit32 1 2; Fp.of_Z f32 1] ].
Definition linear_img : Tensor := mkTensor 0 (iota [2; 3; 1; 1]).

(** X7. [rgb_to_linear_rgb] on a tensor with three channels at the third
    axis from the end, of any rank from 3 up: the call returns a tensor of
    the shape of the input, and every sample that is not above 0.04045,
    a negative one and not-a-number included, is divided by 12.92: there
    is no clamp.  The samples above it are those [torch.pow] returns. *)
Theorem rgb_to_linear_rgb_samples
    (image : Tensor) (a : array float) (s : store) :
  denotes s image a ->
  3 <= ndim image -> dim_from_end image 3 = 3 ->
  wp (rgb_to_linear_rgb image) s
     (fun t s' =>
        exists r, denotes s' t r /\ tshape t = tshape image
          /\ forall idx, in_bounds (tshape image) idx ->
               Fp.ltb knee (get zero a idx) = false ->
               get zero r idx = linear_segment (get zero a idx)).
Proof.
  intros Hx Hn Hc.
  pose proof (denotes_wf _ _ _ Hx) as Hwa.
  pose proof (denotes_shape _ _ _ Hx) as Hsa.
  eapply wp_mono; [by apply rgb_to_linear_rgb_denotes|].
  intros t s' _ Ht. eexists. split; [exact Ht|].
  split; [by rewrite <- (denotes_shape _ _ _ Ht)|].
  intros idx Hidx Hlow.
  rewrite (get_amap _ zero); [|done|by rewrite Hsa].
  by apply srgb_to_linear_not_above.
Qed.

Lemma rgb_to_linear_rgb_samples_witness :
  map (fun x => Fp.ltb knee x) (data (read linear_store linear_img))
  = [false; false; false; false; true; true]
  /\ wp (rgb_to_linear_rgb linear_img) linear_store
       (fun t s' =>
          exists r, denotes s' t r /\ tshape t = [2; 3; 1; 1]
            /\ forall idx, in_bounds [2; 3; 1; 1] idx ->
                 Fp.ltb knee (get zero (read linear_store linear_img) idx)
                 = false ->
                 get zero r idx
                 = linear_segment
                     (get zero (read linear_store linear_img) idx)).
Proof.
  split; [by vm_compute|].
  apply (rgb_to_linear_rgb_samples linear_img
           (read linear_store linear_img) linear_store).
  - split; [simpl; lia|]. split; [apply wf_iota|reflexivity].
  - vm_compute. lia.
  - reflexivity.
Defined.

(** ** The decoding inside [rgb_to_luma] is [rgb_to_linear_rgb] *)

Lemma srgb_decode_is_linear (x : float) :
  clamp_unit x = x -> Fp.leb x knee = true ->
  srgb_decode x = srgb_to_linear x.
Proof.
  intros Hc Hk.
  rewrite srgb_decode_linear by (by rewrite Hc). rewrite Hc.
  symmetry. apply srgb_to_linear_not_above.
  destruct (leb_not_nan _ _ Hk) as [Hx Hknee].
  rewrite (leb_negb_ltb x knee Hx Hknee) in Hk.
  by destruct (Fp.ltb knee x).
Qed.

(** X8. On a dark pixel of an RGB batch whose three samples lie in the
    range [1e-12 .. 1] that [rgb_to_luma] clamps to, [rgb_to_luma] is
    [rgb_to_linear_rgb] followed by the luminance mix and the lower
    segment of the lightness: run one after the other on the same tensor,
    the sample [(n, h, w)] of the second result is computed from the three
    samples [(n, c, h, w)] of the first. *)
Theorem rgb_to_luma_after_rgb_to_linear_rgb
    (img : Tensor) (a : array float) (s : store) (N H W : nat) :
  denotes s img a ->
  tshape img = [N; 3; H; W] ->
  wp (let* lin := rgb_to_linear_rgb img in
      let* luma := rgb_to_luma img in
      ret (lin, luma)) s
     (fun p s' =>
        exists al ar, denotes s' (fst p) al /\ denotes s' (snd p) ar
          /\ forall n h w, n < N -> h < H -> w < W ->
               let x c := get zero a [n; c; h; w] in
               clamp_unit (x 0) = x 0 -> clamp_unit (x 1) = x 1 ->
               clamp_unit (x 2) = x 2 ->
               dark_pixel (x 0) (x 1) (x 2) = true ->
               get zero ar [n; h; w]
               = lower_lightness (luminance (get zero al [n; 0; h; w])
                                            (get zero al [n; 1; h; w])
                                            (get zero al [n; 2; h; w]))).
Proof.
  intros Hx Hsh.
  pose proof (denotes_wf _ _ _ Hx) as Hwa.
  pose proof (denotes_shape _ _ _ Hx) as Hsa. rewrite Hsh in Hsa.
  apply wp_bind.
  eapply wp_mono;
    [apply (rgb_to_linear_rgb_denotes img a s Hx);
     unfold ndim, dim_from_end, ndim; rewrite Hsh; first [done | simpl; lia]|].
  intros lin s1 Hp1 Hlin. cbv beta.
  apply (denotes_prefix _ _ _ _ Hp1) in Hx.
  apply wp_bind.
  eapply wp_mono; [by apply (rgb_to_luma_rgb_samples img a s1 N H W)|].
  intros luma s2 Hp2 (r & Hluma & Hrs & Hg). cbv beta.
  apply (denotes_prefix _ _ _ _ Hp2) in Hlin.
  apply wp_ret. exists (amap srgb_to_linear a), r.
  split; [done|]. split; [done|]. intros n h w Hn Hh Hw x H0 H1 H2 Hd.
  subst x. cbv beta in *.
  rewrite Hg by done. rewrite (lightness_of_dark_pixel _ _ _ Hd).
  unfold dark_pixel in Hd.
  apply andb_prop in Hd as [[[Hr Hgr]%andb_prop Hb]%andb_prop _].
  rewrite H0 in Hr. rewrite H1 in Hgr. rewrite H2 in Hb.
  rewrite !(get_amap _ zero) by (first [done | rewrite Hsa; in_bounds_tac]).
  rewrite <- !srgb_decode_is_linear by done.
  by rewrite !srgb_decode_linear, H0, H1, H2 by (by rewrite ?H0, ?H1, ?H2).
Qed.

Lemma rgb_to_luma_after_rgb_to_linear_rgb_witness :
  (let x c := get zero (read dark_store dark_rgb) [0; c; 0; 0] in
   clamp_unit (x 0) = x 0 /\ clamp_unit (x 1) = x 1
   /\ clamp_unit (x 2) = x 2 /\ dark_pixel (x 0) (x 1) (x 2) = true)
  /\ wp (let* lin := rgb_to_linear_rgb dark_rgb in
         let* luma := rgb_to_luma dark_rgb in
         ret (lin, luma)) dark_store
       (fun p s' =>
          exists al ar, denotes s' (fst p) al /\ denotes s' (snd p) ar
            /\ forall n h w, n < 1 -> h < 1 -> w < 2 ->
                 let x c := get zero (read dark_store dark_rgb) [n; c; h; w] in
                 clamp_unit (x 0) = x 0 -> clamp_unit (x 1) = x 1 ->
                 clamp_unit (x 2) = x 2 ->
                 dark_pixel (x 0) (x 1) (x 2) = true ->
                 get zero ar [n; h; w]
                 = lower_lightness (luminance (get zero al [n; 0; h; w])
                                              (get zero al [n; 1; h; w])
                                              (get zero al [n; 2; h; w]))).
Proof.
  split; [by vm_compute|].
  apply (rgb_to_luma_after_rgb_to_linear_rgb dark_rgb
           (read dark_store dark_rgb) dark_store 1 1 2).
  - split; [simpl; lia|]. split; [apply wf_iota|reflexivity].
  - reflexivity.
Defined.

End LumaAndLinear.

(* ===================================================================== *)
(** * The forward tensor conversion *)
(* ===================================================================== *)

Section RgbToYCbCr.
Import Nd NdFacts Torch TorchFacts Wp WpMore.
Local Open Scope string_scope.
Local Open Scope list_scope.
Local Open Scope nat_scope.
Local Open Scope torch_scope.

Local Notation "x [/] y" := (Fp.div f32 x y) (at level 40, left associativity).
Local Notation "x [+] y" := (Fp.add f32 x y) (at level 50, left associativity).

Ltac in_bounds_tac :=
  repeat first [apply in_bounds_nil | apply in_bounds_cons | lia].

(** ** The conversion on one pixel

    The three columns of [weight], each contracted with the pixel from
    left to right, the offset of the channel added, the sum divided by
    255. *)
Definition rgb_pixel_to_ycbcr (r g b : float) : list float :=
  let k255 := Fp.lit32 255 1 in
  let y := dot32 [r; g; b]
             [Fp.lit32 65481 1000; Fp.lit32 128553 1000; Fp.lit32 24966 1000] in
  let cb := dot32 [r; g; b]
              [Fp.lit32 (-37797) 1000; Fp.lit32 (-74203) 1000; Fp.lit32 112 1] in
  let cr := dot32 [r; g; b]
              [Fp.lit32 112 1; Fp.lit32 (-93786) 1000; Fp.lit32 (-18214) 1000] in
  [(y [+] Fp.of_Z f32 16) [/] k255;
   (cb [+] Fp.of_Z f32 128) [/] k255;
   (cr [+] Fp.of_Z f32 128) [/] k255].

(** The image whose pixel [(n, h, w)] is the conversion of the pixel
    [(n, h, w)] of [a]. *)
Definition rgb_image_to_ycbcr (a : array float) : array float :=
  init (shape a)
    (fun idx =>
       match idx with
       | [n; c; h; w] =>
           nth c (rgb_pixel_to_ycbcr (get zero a [n; 0; h; w])
                                     (get zero a [n; 1; h; w])
                                     (get zero a [n; 2; h; w])) zero
       | _ => zero
       end).

(** ** [permute(0, 3, 1, 2)] on a rank-4 tensor *)

Lemma get_permute_0312 {A} (d : A) a N H W C n c h w :
  shape a = [N; H; W; C] -> n < N -> h < H -> w < W -> c < C ->
  get d (Nd.permute d [0; 3; 1; 2] a) [n; c; h; w] = get d a [n; h; w; c].
Proof.
  intros Hs Hn Hh Hw Hc. unfold Nd.permute. rewrite Hs.
  cbn [map nth]. by rewrite get_init by in_bounds_tac.
Qed.

Lemma amap_permute_0312 {A B} (g : A -> B) (d : A) (d' : B) v N H W C :
  wf v -> shape v = [N; H; W; C] ->
  amap g (Nd.permute d [0; 3; 1; 2] v) = Nd.permute d' [0; 3; 1; 2] (amap g v).
Proof.
  intros Hw Hs. unfold Nd.permute, init, amap at 1; cbn [shape data amap].
  f_equal. rewrite map_map. apply map_ext_in. intros k Hk. apply in_seq in Hk.
  rewrite Hs in *. cbn [map nth length] in *.
  destruct (in_bounds4' N C H W (unravel [N; C; H; W] k))
    as (n & c & h & w & -> & Hn & Hc & Hh & Hw');
    [apply unravel_in_bounds; lia|].
  symmetry. apply get_amap; [done|].
  rewrite Hs. cbn [map seq length index_of Nat.eqb nth]. in_bounds_tac.
Qed.

Lemma wp_permute_0312 x a N H W C s (Q : Tensor -> store -> Prop) :
  denotes s x a -> shape a = [N; H; W; C] ->
  (forall t, denotes s t (Nd.permute zero [0; 3; 1; 2] a) -> Q t s) ->
  wp (permute [0; 3; 1; 2] x) s Q.
Proof.
  intros Hx Hs HQ. unfold permute, ndim.
  pose proof (denotes_shape _ _ _ Hx) as Hsx. rewrite <- Hsx, Hs.
  cbn [length Nat.eqb is_permutation forallb existsb seq andb orb].
  apply wp_ret, HQ. destruct Hx as (Hb & Hw & Hr).
  split; [done|]. split; [apply wf_init|].
  unfold read; cbn [base view].
  rewrite (amap_permute_0312 _ 0 zero _ N H W C) by (done || by rewrite Hsx in Hs).
  fold (read s x). by rewrite Hr.
Qed.

(** ** Broadcasting the offsets *)

Lemma broadcast_offsets N C H W :
  broadcast_shapes [N; C; H; W] [1; C; 1; 1] = Some [N; C; H; W].
Proof.
  unfold broadcast_shapes. cbn [rev app broadcast_rev Nat.eqb].
  destruct (N =? 1); rewrite (Nat.eqb_refl C);
    by destruct (H =? 1), (W =? 1).
Qed.

(** A tensor made by arithmetic with a number is contiguous and sits on a
    storage of its own. *)
Lemma wp_map_t_new f x a s (Q : Tensor -> store -> Prop) :
  denotes s x a ->
  (forall t s', s `prefix_of` s' -> denotes s' t (amap f a) ->
                view t = iota (shape a) -> length s <= base t ->
                cells s' (base t) = data (amap f a) -> Q t s') ->
  wp (map_t f x) s Q.
Proof.
  intros Hx HQ. unfold map_t. apply wp_bind, (wp_load x a); [done|].
  eexists _, _. split; [done|]. split; [by apply prefix_app_r|].
  apply HQ; [by apply prefix_app_r| |done|done|apply cells_new].
  apply (denotes_new s (amap f a)), wf_amap. by eapply denotes_wf.
Qed.

(** The product with the weights, channel last. *)
Definition weighted_sums (a w : array float) (N H W M : nat) : array float :=
  init [N; H; W; M]
    (fun idx =>
       dot32 (last_axis (Nd.permute zero [0; 2; 3; 1] a) 3 (removelast idx))
             (map (fun c => get zero w [c; List.last idx 0]) (seq 0 3))).

Lemma get_weighted_sums a w N H W M n h x c :
  shape a = [N; 3; H; W] -> n < N -> h < H -> x < W -> c < M ->
  get zero (weighted_sums a w N H W M) [n; h; x; c]
  = dot32 [get zero a [n; 0; h; x]; get zero a [n; 1; h; x];
           get zero a [n; 2; h; x]]
          [get zero w [0; c]; get zero w [1; c]; get zero w [2; c]].
Proof.
  intros Hs Hn Hh Hx Hc. unfold weighted_sums.
  rewrite get_init by in_bounds_tac.
  unfold last_axis. cbn [removelast List.last seq map app].
  by rewrite !(get_permute4 zero a N 3 H W) by (done || lia).
Qed.

Definition weight_full : array float :=
  Arr [3; 3]
    [Fp.lit32 65481 1000; Fp.lit32 (-37797) 1000; Fp.lit32 112 1;
     Fp.lit32 128553 1000; Fp.lit32 (-74203) 1000; Fp.lit32 (-93786) 1000;
     Fp.lit32 24966 1000; Fp.lit32 112 1; Fp.lit32 (-18214) 1000].

Definition weight_luma : array float :=
  Arr [3; 1] [Fp.lit32 65481 1000; Fp.lit32 128553 1000; Fp.lit32 24966 1000].

Definition offsets : array float :=
  Arr [1; 3; 1; 1] [Fp.of_Z f32 16; Fp.of_Z f32 128; Fp.of_Z f32 128].

(** ** The two modes on a batch of RGB images *)

Lemma rgb2ycbcr_pt_full_denotes
    (img : Tensor) (a : array float) (s : store) (N H W : nat) :
  denotes s img a ->
  tshape img = [N; 3; H; W] ->
  wp (rgb2ycbcr_pt img false) s
     (fun t s' => denotes s' t (rgb_image_to_ycbcr a)
                  /\ view t = iota [N; 3; H; W] /\ length s <= base t
                  /\ length (cells s' (base t)) = size [N; 3; H; W]).
Proof.
  intros Hx Hsh.
  pose proof (denotes_shape _ _ _ Hx) as Ha. rewrite Hsh in Ha.
  pose proof (denotes_wf _ _ _ Hx) as Hwa.
  unfold rgb2ycbcr_pt, tensor, add, div_s.
  apply wp_bind.
  apply wp_bind. fold weight_full. apply wp_new; [done|].
  intros wt s1 Hpre1 Hwt. apply (denotes_prefix _ _ _ _ Hpre1) in Hx.
  apply wp_bind. fold offsets. apply wp_new; [done|].
  intros bt s2 Hpre2 Hbt.
  apply (denotes_prefix _ _ _ _ Hpre2) in Hx, Hwt.
  apply wp_bind. eapply (wp_permute4 _ _ N 3 H W); [exact Hx|exact Ha|].
  intros p Hp.
  assert (Hps : shape (Nd.permute zero [0; 2; 3; 1] a) = [N; H; W; 3])
    by (unfold Nd.permute; cbn [shape init]; by rewrite Ha).
  apply wp_bind.
  eapply (wp_matmul _ _ _ _ (weighted_sums a weight_full N H W 3));
    [exact Hp|exact Hwt| |apply wf_init|].
  { unfold matmul_arrays. by rewrite Hps. }
  intros m s3 Hpre3 Hm. apply (denotes_prefix _ _ _ _ Hpre3) in Hbt.
  apply wp_bind. eapply (wp_permute_0312 _ _ N H W 3); [exact Hm|done|].
  intros q Hq.
  set (qa := Nd.permute zero [0; 3; 1; 2] (weighted_sums a weight_full N H W 3)) in *.
  assert (Hqs : shape qa = [N; 3; H; W]) by done.
  eapply wp_zip_t; [exact Hq|exact Hbt| |].
  { unfold zip2. rewrite Hqs. cbn [shape offsets].
    rewrite broadcast_offsets. reflexivity. }
  intros o s4 Hpre4 Ho.
  eapply wp_map_t_new; [exact Ho|]. intros t s5 Hpre5 Ht Hv Hb Hc.
  split; [|split; [exact Hv|split]].
  2:{ assert (Hl : s `prefix_of` s4).
      { etrans; [exact Hpre1|]. etrans; [exact Hpre2|].
        etrans; [exact Hpre3|exact Hpre4]. }
      apply prefix_length in Hl. lia. }
  2:{ rewrite Hc. cbn [data amap init]. by rewrite !length_map, length_seq. }
  eapply denotes_eq; [exact Ht|]. clear -Ha Hwa Hqs.
  apply (array_ext zero);
    [apply wf_amap, wf_init|apply wf_init|
     unfold rgb_image_to_ycbcr; cbn [shape amap init]; by rewrite Ha|].
  intros idx Hidx. change (in_bounds [N; 3; H; W] idx) in Hidx.
  pose proof Hidx as Hidx'.
  apply in_bounds4' in Hidx as (n & c & h & w & -> & Hn & Hc & Hh & Hw).
  rewrite (get_amap _ zero) by (first [apply wf_init | done]).
  rewrite get_init by done.
  rewrite bidx_same by done.
  unfold qa. rewrite (get_permute_0312 zero _ N H W 3) by done.
  rewrite get_weighted_sums by done.
  unfold rgb_image_to_ycbcr. rewrite get_init by (by rewrite Ha).
  unfold rgb_pixel_to_ycbcr.
  destruct c as [|[|[|c]]]; [| | |lia]; reflexivity.
Qed.

Lemma lit32_16 : Fp.lit32 16 1 = Fp.of_Z f32 16.
Proof. by vm_compute. Qed.

Lemma rgb2ycbcr_pt_luma_denotes
    (img : Tensor) (a : array float) (s : store) (N H W : nat) :
  denotes s img a ->
  tshape img = [N; 3; H; W] ->
  wp (rgb2ycbcr_pt img true) s
     (fun t s' => denotes s' t (slice zero 1 0 1 (rgb_image_to_ycbcr a))).
Proof.
  intros Hx Hsh.
  pose proof (denotes_shape _ _ _ Hx) as Ha. rewrite Hsh in Ha.
  pose proof (denotes_wf _ _ _ Hx) as Hwa.
  unfold rgb2ycbcr_pt, tensor, add_s, div_s.
  apply wp_bind.
  apply wp_bind. fold weight_luma. apply wp_new; [done|].
  intros wt s1 Hpre1 Hwt. apply (denotes_prefix _ _ _ _ Hpre1) in Hx.
  apply wp_bind. eapply (wp_permute4 _ _ N 3 H W); [exact Hx|exact Ha|].
  intros p Hp.
  assert (Hps : shape (Nd.permute zero [0; 2; 3; 1] a) = [N; H; W; 3])
    by (unfold Nd.permute; cbn [shape init]; by rewrite Ha).
  apply wp_bind.
  eapply (wp_matmul _ _ _ _ (weighted_sums a weight_luma N H W 1));
    [exact Hp|exact Hwt| |apply wf_init|].
  { unfold matmul_arrays. by rewrite Hps. }
  intros m s3 Hpre3 Hm.
  apply wp_bind. eapply (wp_permute_0312 _ _ N H W 1); [exact Hm|done|].
  intros q Hq.
  set (qa := Nd.permute zero [0; 3; 1; 2] (weighted_sums a weight_luma N H W 1)) in *.
  assert (Hqs : shape qa = [N; 1; H; W]) by done.
  eapply wp_map_t; [exact Hq|]. intros o s4 Hpre4 Ho.
  eapply wp_map_t; [exact Ho|]. intros t s5 Hpre5 Ht.
  eapply denotes_eq; [exact Ht|]. clear -Ha Hwa Hqs.
  assert (Hfs : shape (rgb_image_to_ycbcr a) = [N; 3; H; W])
    by (unfold rgb_image_to_ycbcr; cbn [shape init]; by rewrite Ha).
  apply (array_ext zero);
    [apply wf_amap, wf_amap, wf_init|apply wf_init|
     cbn [shape amap slice init]; by rewrite Hqs, Hfs|].
  intros idx Hidx. change (in_bounds (shape qa) idx) in Hidx. rewrite Hqs in Hidx.
  pose proof Hidx as Hidx'.
  apply in_bounds4' in Hidx as (n & c & h & w & -> & Hn & Hc & Hh & Hw).
  assert (c = 0) as -> by lia.
  rewrite !(get_amap _ zero zero)
    by (first [apply wf_init | apply wf_amap, wf_init
              | cbn [shape amap]; by rewrite Hqs]).
  unfold qa. rewrite (get_permute_0312 zero _ N H W 1) by done.
  rewrite get_weighted_sums by done.
  rewrite get_slice by (rewrite Hfs; cbn [alter list_alter]; in_bounds_tac).
  cbn [alter list_alter Nat.add].
  unfold rgb_image_to_ycbcr. rewrite get_init by (rewrite Ha; in_bounds_tac).
  unfold rgb_pixel_to_ycbcr. cbn [nth]. by rewrite lit32_16.
Qed.

(** X9. [rgb2ycbcr_pt] on a batch of RGB images [(N, 3, H, W)].  With
    [y_only] false the call returns a new tensor of the same shape that
    holds, pixel by pixel, the BT.601 conversion: each channel is the
    pixel contracted with a column of the weight matrix, plus 16, 128 or
    128, over 255.  With [y_only] true it returns a tensor of shape
    [(N, 1, H, W)] that is, sample for sample, the first channel of the
    former. *)
Theorem rgb2ycbcr_pt_spec
    (img : Tensor) (a : array float) (s : store) (N H W : nat) :
  denotes s img a ->
  tshape img = [N; 3; H; W] ->
  wp (rgb2ycbcr_pt img false) s
     (fun t s' => denotes s' t (rgb_image_to_ycbcr a)
                  /\ tshape t = [N; 3; H; W])
  /\ wp (rgb2ycbcr_pt img true) s
       (fun t s' => denotes s' t (slice zero 1 0 1 (rgb_image_to_ycbcr a))
                    /\ tshape t = [N; 1; H; W]).
Proof.
  intros Hx Hsh.
  pose proof (denotes_shape _ _ _ Hx) as Ha. rewrite Hsh in Ha.
  split.
  - eapply wp_mono; [by apply (rgb2ycbcr_pt_full_denotes img a s N H W)|].
    intros t s' _ (Ht & Hv & _ & _). split; [done|]. unfold tshape. by rewrite Hv.
  - eapply wp_mono; [by apply (rgb2ycbcr_pt_luma_denotes img a s N H W)|].
    intros t s' _ Ht. split; [done|].
    rewrite <- (denotes_shape _ _ _ Ht).
    unfold rgb_image_to_ycbcr. cbn [shape slice init]. by rewrite Ha.
Qed.

Lemma rgb2ycbcr_pt_spec_witness :
  wp (rgb2ycbcr_pt luma_ref false) luma_store
     (fun t s' =>
        denotes s' t (rgb_image_to_ycbcr (read luma_store luma_ref))
        /\ tshape t = [1; 3; 1; 2])
  /\ wp (rgb2ycbcr_pt luma_ref true) luma_store
       (fun t s' =>
          denotes s' t
            (slice zero 1 0 1 (rgb_image_to_ycbcr (read luma_store luma_ref)))
          /\ tshape t = [1; 1; 1; 2]).
Proof.
  apply (rgb2ycbcr_pt_spec luma_ref (read luma_store luma_ref) luma_store 1 1 2).
  - split; [simpl; lia|]. split; [apply wf_iota|reflexivity].
  - reflexivity.
Defined.

(** X10. [rgb2ycbcr_pt] has no shape check of its own; a tensor that is not
    [(N, 3, H, W)] is turned away by PyTorch.  Any rank other than 4
    fails in [permute(0, 2, 3, 1)]; rank 4 with a channel count other
    than 3 fails in [matmul].  Both raise [RuntimeError]. *)
Theorem rgb2ycbcr_pt_rejects_other_shapes
    (img : Tensor) (y_only : bool) (s : store) :
  (ndim img <> 4 ->
   fst (rgb2ycbcr_pt img y_only s)
   = inl (RuntimeError
            "permute: number of dimensions does not match the ordering"))
  /\ (ndim img = 4 -> dim_from_end img 3 <> 3 ->
      fst (rgb2ycbcr_pt img y_only s)
      = inl (RuntimeError "mat1 and mat2 shapes cannot be multiplied")).
Proof.
  destruct img as [b [sh d]]. unfold ndim, dim_from_end, ndim, tshape.
  cbn [view shape]. split.
  - intros Hn.
    destruct sh as [|n1 [|n2 [|n3 [|n4 [|n5 sh]]]]]; try done;
      by destruct y_only.
  - intros Hn Hc.
    destruct sh as [|N [|C [|H [|W [|n5 sh]]]]]; try done.
    cbn [length Nat.sub nth] in Hc.
    destruct C as [|[|[|[|C]]]]; try done; by destruct y_only.
Qed.

Lemma rgb2ycbcr_pt_rejects_other_shapes_witness :
  fst (rgb2ycbcr_pt rank3_white false rank3_store)
  = inl (RuntimeError
           "permute: number of dimensions does not match the ordering")
  /\ fst (rgb2ycbcr_pt luma_img true luma_store)
     = inl (RuntimeError "mat1 and mat2 shapes cannot be multiplied").
Proof.
  split.
  - apply (proj1 (rgb2ycbcr_pt_rejects_other_shapes rank3_white false
                    rank3_store)).
    by vm_compute.
  - apply (proj2 (rgb2ycbcr_pt_rejects_other_shapes luma_img true luma_store));
      by vm_compute.
Defined.

(** X11. The forward dispatcher on a batch of RGB images [(N, 3, H, W)]: the
    tag ['rgb'] returns the very tensor it was given and leaves the store
    alone; ['yuv444'] returns the BT.601 conversion; ['y'] returns the
    first channel of that conversion as a tensor of shape
    [(N, 1, H, W)], the samples [rgb2ycbcr_pt(img, y_only=True)]
    returns. *)
Theorem rgb2pixelformat_pt_samples
    (img : Tensor) (a : array float) (s : store) (N H W : nat) :
  denotes s img a ->
  tshape img = [N; 3; H; W] ->
  rgb2pixelformat_pt img "rgb" s = (inr img, s)
  /\ wp (rgb2pixelformat_pt img "yuv444") s
       (fun t s' => denotes s' t (rgb_image_to_ycbcr a))
  /\ wp (rgb2pixelformat_pt img "y") s
       (fun t s' => denotes s' t (slice zero 1 0 1 (rgb_image_to_ycbcr a))
                    /\ tshape t = [N; 1; H; W])
  /\ wp (rgb2ycbcr_pt img true) s
       (fun t s' => denotes s' t (slice zero 1 0 1 (rgb_image_to_ycbcr a))).
Proof.
  intros Hx Hsh.
  pose proof (denotes_shape _ _ _ Hx) as Ha. rewrite Hsh in Ha.
  assert (Hfs : shape (rgb_image_to_ycbcr a) = [N; 3; H; W])
    by (unfold rgb_image_to_ycbcr; cbn [shape init]; by rewrite Ha).
  split; [done|]. split; [|split].
  - unfold rgb2pixelformat_pt. cbn [String.eqb Ascii.eqb Bool.eqb].
    eapply wp_mono; [by apply (rgb2ycbcr_pt_full_denotes img a s N H W)|].
    by intros t s' _ (Ht & _ & _ & _).
  - unfold rgb2pixelformat_pt. cbn [String.eqb Ascii.eqb Bool.eqb].
    apply wp_bind.
    eapply wp_mono; [by apply (rgb2ycbcr_pt_full_denotes img a s N H W)|].
    intros t s' _ (Ht & _ & _ & _). cbv beta.
    eapply wp_getitem_axis1; [exact Ht|by rewrite Hfs|].
    intros y Hy. cbn [default from_option id] in Hy. split; [exact Hy|].
    rewrite <- (denotes_shape _ _ _ Hy). cbn [shape slice init].
    by rewrite Hfs.
  - by apply (rgb2ycbcr_pt_luma_denotes img a s N H W).
Qed.

Lemma rgb2pixelformat_pt_samples_witness :
  rgb2pixelformat_pt luma_ref "rgb" luma_store = (inr luma_ref, luma_store)
  /\ wp (rgb2pixelformat_pt luma_ref "yuv444") luma_store
       (fun t s' =>
          denotes s' t (rgb_image_to_ycbcr (read luma_store luma_ref)))
  /\ wp (rgb2pixelformat_pt luma_ref "y") luma_store
       (fun t s' =>
          denotes s' t
            (slice zero 1 0 1 (rgb_image_to_ycbcr (read luma_store luma_ref)))
          /\ tshape t = [1; 1; 1; 2])
  /\ wp (rgb2ycbcr_pt luma_ref true) luma_store
       (fun t s' =>
          denotes s' t
            (slice zero 1 0 1 (rgb_image_to_ycbcr (read luma_store luma_ref)))).
Proof.
  apply (rgb2pixelformat_pt_samples luma_ref (read luma_store luma_ref)
           luma_store 1 1 2).
  - split; [simpl; lia|]. split; [apply wf_iota|reflexivity].
  - reflexivity.
Defined.

End RgbToYCbCr.

(* ===================================================================== *)
(** * The NumPy conversions that return *)
(* ===================================================================== *)

Section NumpyReturns.
Import Nd NdFacts Np.
Local Open Scope string_scope.
Local Open Scope list_scope.
Local Open Scope nat_scope.

(** ** The steps on one sample *)

(** [_convert_input_type_range] on a sample of an array of dtype [t]. *)
Definition normalize_sample (t : dtype) (s : scalar) : scalar :=
  if dtype_eqb t float32 then convert float32 s
  else SFloat (Fp.div f32 (as_float f32 (convert float32 s))
                          (Fp.cast f32 (Fp.lit 255 1))).

(** [* 255] on a float32 sample. *)
Definition times_255 (s : scalar) : scalar :=
  SFloat (Fp.mul f32 (as_float f32 s) (Fp.of_Z f32 255)).

(** [_convert_output_type_range] to dtype [t] on a float64 sample. *)
Definition denormalize_sample (t : dtype) (s : scalar) : scalar :=
  if dtype_eqb t uint8
  then convert uint8 (SFloat (Fp.rint f64 (as_float f64 s)))
  else convert float32
         (SFloat (Fp.div f64 (as_float f64 s) (Fp.cast f64 (Fp.lit 255 1)))).

(** Why a conversion cannot start on [img], if it cannot: the dtype, or
    the last axis, which must be there and have length 3. *)
Definition dtype_error (img : ndarray) : exc :=
  TypeError (String.append
               "The img type should be np.float32 or np.uint8, but got "
               (dtype_name (dtype_of img))).

Definition is_recognized (t : dtype) : bool :=
  dtype_eqb t float32 || dtype_eqb t uint8.

Lemma is_recognized_spec t : is_recognized t = true <-> recognized t.
Proof.
  unfold recognized. destruct t; cbn; split; try done; try (by auto);
    by intros [?|?].
Qed.

Lemma convert_input_recognized (img : ndarray) :
  is_recognized (dtype_of img) = true ->
  _convert_input_type_range img
  = inr (NdArray float32 (amap (normalize_sample (dtype_of img)) (arr img))).
Proof.
  unfold _convert_input_type_range, normalize_sample, is_recognized.
  destruct (dtype_eqb (dtype_of img) float32) eqn:E32; [done|].
  destruct (dtype_eqb (dtype_of img) uint8) eqn:E8; [|done]. intros _.
  unfold idiv, astype. cbn [dtype_of float_format arr]. by rewrite amap_amap.
Qed.

Lemma convert_input_unrecognized (img : ndarray) :
  is_recognized (dtype_of img) = false ->
  _convert_input_type_range img = inl (dtype_error img).
Proof.
  unfold _convert_input_type_range, is_recognized.
  destruct (dtype_eqb (dtype_of img) float32); [done|].
  by destruct (dtype_eqb (dtype_of img) uint8).
Qed.

Lemma convert_output_recognized (a : array scalar) (t : dtype) :
  is_recognized t = true ->
  fst (_convert_output_type_range (NdArray float64 a) t)
  = inr (NdArray t (amap (denormalize_sample t) a)).
Proof.
  intros Ht. unfold _convert_output_type_range, denormalize_sample.
  destruct t; try done.
  - cbn [existsb dtype_eqb orb negb]. unfold round, astype.
    cbn [dtype_of float_format arr fst]. by rewrite amap_amap.
  - cbn [existsb dtype_eqb orb negb]. unfold idiv, astype.
    cbn [dtype_of float_format arr fst]. by rewrite amap_amap.
Qed.

(** ** Shapes with a last axis *)

Lemma broadcast_last pre c :
  broadcast_shapes (pre ++ [c]) [c] = Some (pre ++ [c]).
Proof.
  unfold broadcast_shapes. rewrite rev_app_distr. cbn [rev app broadcast_rev].
  rewrite Nat.eqb_refl.
  destruct (rev pre) as [|x l] eqn:E;
    apply (f_equal (@rev nat)) in E; rewrite rev_involutive in E; by subst pre.
Qed.

Lemma in_bounds_snoc pre n i c :
  in_bounds (pre ++ [n]) (i ++ [c]) <-> in_bounds pre i /\ c < n.
Proof.
  unfold in_bounds. split.
  - intros Hb. pose proof (Forall2_length _ _ _ Hb) as Hl.
    rewrite !length_app in Hl. cbn [length] in Hl.
    apply Forall2_app_inv in Hb as [Hi Hc]; [|lia].
    split; [done|]. by inversion Hc.
  - intros [Hi Hc]. apply Forall2_app; [done|]. by repeat constructor.
Qed.

Lemma bidx_last n i c : n <> 1 -> bidx [n] (i ++ [c]) = [c].
Proof.
  intros Hn. unfold bidx. rewrite length_app. cbn [length].
  replace (length i + 1 - 1) with (length i) by lia.
  rewrite drop_app_length. cbn [zip_with].
  apply Nat.eqb_neq in Hn. by rewrite Hn.
Qed.

Lemma get_vector {A} (d : A) n (v : list A) c :
  get d (Arr [n] v) [c] = nth c v d.
Proof.
  unfold get. cbn [shape data ravel size fold_right]. f_equal. lia.
Qed.

Lemma last_axis_amap (f : scalar -> scalar) (a : array scalar) pre n i :
  wf a -> shape a = pre ++ [n] -> in_bounds pre i ->
  last_axis (amap f a) n i
  = map (fun c => as64 (f (get NaN a (i ++ [c])))) (seq 0 n).
Proof.
  intros Hw Hs Hi. unfold last_axis. apply map_ext_in. intros c Hc.
  apply in_seq in Hc. f_equal. apply get_amap; [done|].
  rewrite Hs. apply in_bounds_snoc. split; [done|lia].
Qed.

(** ** The inverse conversions *)

(** The body [ycbcr2rgb] and [ycbcr2bgr] share, up to the matrix and the
    offsets. *)
Definition ycbcr_to (m : list (list float)) (v : list float) (img : ndarray)
    : exc + ndarray :=
  ebind (_convert_input_type_range img) (fun a =>
  ebind (matmul (mul_int32 a 255) m) (fun p =>
  ebind (add_list64 (mul_float64 p (Fp.lit 255 1)) v) (fun out_img =>
  fst (_convert_output_type_range out_img (dtype_of img))))).

Definition rgb_matrix : list (list float) :=
  [ [Fp.lit 456621 100000000; Fp.lit 456621 100000000;
     Fp.lit 456621 100000000];
    [Fp.of_Z f64 0; Fp.lit (-153632) 100000000; Fp.lit 791071 100000000];
    [Fp.lit 625893 100000000; Fp.lit (-318811) 100000000; Fp.of_Z f64 0] ].
Definition rgb_offsets : list float :=
  [Fp.lit (-222921) 1000; Fp.lit 135576 1000; Fp.lit (-276836) 1000].

Definition bgr_matrix : list (list float) :=
  [ [Fp.lit 456621 100000000; Fp.lit 456621 100000000;
     Fp.lit 456621 100000000];
    [Fp.lit 791071 100000000; Fp.lit (-153632) 100000000; Fp.of_Z f64 0];
    [Fp.of_Z f64 0; Fp.lit (-318811) 100000000; Fp.lit 625893 100000000] ].
Definition bgr_offsets : list float :=
  [Fp.lit (-276836) 1000; Fp.lit 135576 1000; Fp.lit (-222921) 1000].

Lemma ycbcr2rgb_unfold img : ycbcr2rgb img = ycbcr_to rgb_matrix rgb_offsets img.
Proof. reflexivity. Qed.

Lemma ycbcr2bgr_unfold img : ycbcr2bgr img = ycbcr_to bgr_matrix bgr_offsets img.
Proof. reflexivity. Qed.

(** The error an image is turned away with, if it is. *)
Definition inverse_error (img : ndarray) : option exc :=
  if is_recognized (dtype_of img) then
    match shape_of img with
    | [] => Some (ValueError
                    "matmul: Input operand 0 does not have enough dimensions")
    | sh => if List.last sh 0 =? 3 then None
            else Some (ValueError
                         "matmul: Input operand 1 has a mismatch in its core dimension 0")
    end
  else Some (dtype_error img).

Definition column (c : nat) (m : list (list float)) : list float :=
  map (fun row => nth c row (S754_zero false)) m.

(** The sample [c] of an output pixel, from the three scaled samples of
    the input pixel. *)
Definition inverse_sample (t : dtype) (m : list (list float)) (v : list float)
    (pixel : list float) (c : nat) : scalar :=
  let product := SFloat (dot64 pixel (column c m)) in
  let times255 := SFloat (Fp.mul f64 (as64 product) (Fp.lit 255 1)) in
  let shifted := SFloat (Fp.add f64 (as64 times255) (nth c v (S754_zero false))) in
  denormalize_sample t shifted.

(** The input as the product sees it: normalized, then times 255. *)
Definition scaled (img : ndarray) : array scalar :=
  amap times_255 (amap (normalize_sample (dtype_of img)) (arr img)).

Lemma ycbcr_to_error m v img e :
  length m = 3 -> length v = 3 ->
  inverse_error img = Some e -> ycbcr_to m v img = inl e.
Proof.
  intros Hm Hv. unfold inverse_error, ycbcr_to.
  destruct (is_recognized (dtype_of img)) eqn:Er.
  - rewrite convert_input_recognized by done. cbn [ebind].
    unfold matmul, shape_of, mul_int32. cbn [arr shape amap]. rewrite Hm.
    change (shape (arr img)) with (shape_of img).
    destruct (shape_of img) as [|n sh]; [by intros [= <-]|].
    destruct (List.last (n :: sh) 0 =? 3); [done|]. by intros [= <-].
  - rewrite convert_input_unrecognized by done. by intros [= <-].
Qed.

Lemma ycbcr_to_returns m v img :
  length m = 3 -> length (hd [] m) = 3 -> length v = 3 ->
  inverse_error img = None ->
  exists pre,
    shape_of img = pre ++ [3]
    /\ ycbcr_to m v img
       = inr (NdArray (dtype_of img)
                (amap (denormalize_sample (dtype_of img))
                   (init (pre ++ [3])
                      (fun idx =>
                         SFloat (Fp.add f64
                           (as64 (get NaN
                              (amap (fun s => SFloat (Fp.mul f64 (as64 s) (Fp.lit 255 1)))
                                 (init (pre ++ [3])
                                    (fun idx =>
                                       SFloat (dot64
                                         (last_axis (scaled img) 3 (removelast idx))
                                         (column (List.last idx 0) m)))))
                              (bidx (pre ++ [3]) idx)))
                           (get (S754_zero false) (Arr [3] v) (bidx [3] idx))))))).
Proof.
  intros Hm Hc Hv. unfold inverse_error, ycbcr_to.
  destruct (is_recognized (dtype_of img)) eqn:Er; [|done].
  rewrite convert_input_recognized by done. cbn [ebind].
  unfold matmul, shape_of, mul_int32. cbn [arr shape amap]. rewrite Hm, Hc.
  change (shape (arr img)) with (shape_of img).
  destruct (shape_of img) as [|n sh] eqn:Hsh; [done|].
  destruct (List.last (n :: sh) 0 =? 3) eqn:El; [|done]. intros _.
  apply Nat.eqb_eq in El.
  exists (removelast (n :: sh)).
  assert (Hs : n :: sh = removelast (n :: sh) ++ [3]).
  { rewrite <- El. by apply app_removelast_last. }
  split; [exact Hs|].
  cbn [ebind]. unfold add_list64, mul_float64, zip2.
  cbn [arr shape amap init]. rewrite Hv, broadcast_last. cbn [ebind].
  rewrite convert_output_recognized by done. reflexivity.
Qed.

Lemma ycbcr_to_sample m v img pre out i c :
  length m = 3 -> length (hd [] m) = 3 -> length v = 3 ->
  shape_of img = pre ++ [3] ->
  ycbcr_to m v img = inr out ->
  in_bounds (pre ++ [3]) (i ++ [c]) ->
  get NaN (arr out) (i ++ [c])
  = inverse_sample (dtype_of img) m v (last_axis (scaled img) 3 i) c.
Proof.
  intros Hm Hc Hv Hsh Hout Hi.
  destruct (inverse_error img) as [e|] eqn:Ee.
  { by rewrite (ycbcr_to_error m v img e) in Hout. }
  destruct (ycbcr_to_returns m v img Hm Hc Hv Ee) as (pre' & Hsh' & Hr).
  rewrite Hsh in Hsh'. apply app_inj_tail in Hsh' as [<- _].
  rewrite Hr in Hout. injection Hout as <-. cbn [dtype_of arr].
  rewrite (get_amap _ NaN) by (first [apply wf_init | done]).
  rewrite get_init by done.
  rewrite bidx_same by done. rewrite bidx_last by lia.
  rewrite (get_amap _ NaN) by (first [apply wf_init | done]).
  rewrite get_init by done.
  rewrite removelast_last, last_last, get_vector. reflexivity.
Qed.

Lemma ycbcr_to_shape m v img out :
  length m = 3 -> length (hd [] m) = 3 -> length v = 3 ->
  ycbcr_to m v img = inr out ->
  dtype_of out = dtype_of img /\ shape_of out = shape_of img
  /\ recognized (dtype_of img) /\ exists pre, shape_of img = pre ++ [3].
Proof.
  intros Hm Hc Hv Hout.
  destruct (inverse_error img) as [e|] eqn:Ee.
  { by rewrite (ycbcr_to_error m v img e) in Hout. }
  destruct (ycbcr_to_returns m v img Hm Hc Hv Ee) as (pre & Hsh & Hr).
  rewrite Hr in Hout. injection Hout as <-. cbn [dtype_of].
  split; [done|]. split.
  { unfold shape_of at 1. cbn [arr shape amap init]. by rewrite Hsh. }
  split; [|by exists pre]. apply is_recognized_spec.
  unfold inverse_error in Ee. by destruct (is_recognized _).
Qed.

Lemma inverse_error_shape img pre :
  recognized (dtype_of img) -> shape_of img = pre ++ [3] ->
  inverse_error img = None.
Proof.
  intros Hr Hp. apply is_recognized_spec in Hr.
  unfold inverse_error. rewrite Hr, Hp.
  destruct pre as [|x pre]; cbn [app]; [done|].
  change (x :: pre ++ [3]) with ((x :: pre) ++ [3]). by rewrite last_last.
Qed.

(** X12. [ycbcr2rgb] and [ycbcr2bgr] return exactly for an image of dtype
    uint8 or float32 with a last axis of length 3, and then the result has
    the dtype and the shape of the image.  Another dtype raises the
    [TypeError] that names it; an image without axes, or with a last axis
    of another length, raises NumPy's [ValueError]. *)
Theorem ycbcr2rgb_returns_or_raises (img : ndarray) :
  let ok := recognized (dtype_of img) /\ exists pre, shape_of img = pre ++ [3] in
  ((exists out, ycbcr2rgb img = inr out) <-> ok)
  /\ ((exists out, ycbcr2bgr img = inr out) <-> ok)
  /\ (forall out, ycbcr2rgb img = inr out \/ ycbcr2bgr img = inr out ->
        dtype_of out = dtype_of img /\ shape_of out = shape_of img)
  /\ (forall e, ycbcr2rgb img = inl e \/ ycbcr2bgr img = inl e ->
        if is_recognized (dtype_of img)
        then exists msg, e = ValueError msg
        else e = dtype_error img).
Proof.
  intros ok. rewrite ycbcr2rgb_unfold, ycbcr2bgr_unfold.
  assert (Hgen : forall m v, length m = 3 -> length (hd [] m) = 3 ->
                   length v = 3 ->
    ((exists out, ycbcr_to m v img = inr out) <-> ok)
    /\ (forall out, ycbcr_to m v img = inr out ->
          dtype_of out = dtype_of img /\ shape_of out = shape_of img)
    /\ (forall e, ycbcr_to m v img = inl e ->
          if is_recognized (dtype_of img)
          then exists msg, e = ValueError msg
          else e = dtype_error img)).
  { intros m v Hm Hc Hv. split; [split|split].
    - intros [out H].
      by destruct (ycbcr_to_shape m v img out Hm Hc Hv H) as (_ & _ & ? & ?).
    - intros [Hr [pre Hp]].
      destruct (ycbcr_to_returns m v img Hm Hc Hv
                  (inverse_error_shape img pre Hr Hp)) as (? & _ & ->).
      by eexists.
    - intros out H.
      by destruct (ycbcr_to_shape m v img out Hm Hc Hv H) as (? & ? & _).
    - intros e H.
      destruct (inverse_error img) as [e'|] eqn:Ee.
      + rewrite (ycbcr_to_error m v img e' Hm Hv Ee) in H.
        injection H as <-. unfold inverse_error in Ee.
        destruct (is_recognized (dtype_of img)); [|by inversion Ee].
        destruct (shape_of img); [inversion Ee; by eexists|].
        destruct (_ =? _); [done|]. inversion Ee; by eexists.
      + destruct (ycbcr_to_returns m v img Hm Hc Hv Ee) as (? & _ & Hr).
        by rewrite Hr in H. }
  destruct (Hgen rgb_matrix rgb_offsets) as (R1 & R2 & R3); [done..|].
  destruct (Hgen bgr_matrix bgr_offsets) as (B1 & B2 & B3); [done..|].
  split; [exact R1|]. split; [exact B1|]. split.
  - intros out [H|H]; [by apply R2|by apply B2].
  - intros e [H|H]; [by apply R3|by apply B3].
Qed.

Lemma reversed_sample t px c :
  c < 3 ->
  inverse_sample t bgr_matrix bgr_offsets px c
  = inverse_sample t rgb_matrix rgb_offsets px (2 - c).
Proof. intros Hc. destruct c as [|[|[|c]]]; [done..|lia]. Qed.

(** X13. [ycbcr2bgr] is [ycbcr2rgb] with the channels of the result in
    reverse order, bit for bit: the two raise the same exception on the
    same images, and where they return, the results have one dtype and
    shape and sample [c] of every pixel of the one is sample [2 - c] of
    the same pixel of the other. *)
Theorem ycbcr2bgr_reverses_channels (img : ndarray) :
  match ycbcr2rgb img, ycbcr2bgr img with
  | inr rgb, inr bgr =>
      dtype_of bgr = dtype_of rgb
      /\ shape_of bgr = shape_of rgb
      /\ forall i c, in_bounds (shape_of rgb) (i ++ [c]) ->
           get NaN (arr bgr) (i ++ [c]) = get NaN (arr rgb) (i ++ [2 - c])
  | inl e, inl e' => e = e'
  | _, _ => False
  end.
Proof.
  rewrite ycbcr2rgb_unfold, ycbcr2bgr_unfold.
  destruct (inverse_error img) as [e|] eqn:Ee.
  { by rewrite !(ycbcr_to_error _ _ img e) by done. }
  destruct (ycbcr_to_returns rgb_matrix rgb_offsets img) as (pre & Hsh & Hr);
    [done..|].
  destruct (ycbcr_to_returns bgr_matrix bgr_offsets img) as (pre' & _ & Hb);
    [done..|].
  destruct (ycbcr_to rgb_matrix rgb_offsets img) as [|rgb] eqn:Ergb; [done|].
  destruct (ycbcr_to bgr_matrix bgr_offsets img) as [|bgr] eqn:Ebgr; [done|].
  clear Hr Hb pre'.
  destruct (ycbcr_to_shape rgb_matrix rgb_offsets img rgb
              eq_refl eq_refl eq_refl Ergb) as (Hdr & Hsr & _ & _).
  destruct (ycbcr_to_shape bgr_matrix bgr_offsets img bgr
              eq_refl eq_refl eq_refl Ebgr) as (Hdb & Hsb & _ & _).
  split; [congruence|]. split; [congruence|].
  intros i c Hi. rewrite Hsr, Hsh in Hi.
  pose proof Hi as Hi'. apply in_bounds_snoc in Hi' as [Hpre Hc].
  rewrite (ycbcr_to_sample bgr_matrix bgr_offsets img pre bgr i c) by done.
  rewrite (ycbcr_to_sample rgb_matrix rgb_offsets img pre rgb i (2 - c));
    [by apply reversed_sample|done..|].
  apply in_bounds_snoc. split; [done|lia].
Qed.

Lemma last_axis_scaled img pre i :
  wf (arr img) -> shape_of img = pre ++ [3] -> in_bounds pre i ->
  last_axis (scaled img) 3 i
  = map (fun k => as64 (times_255 (normalize_sample (dtype_of img)
                                     (get NaN (arr img) (i ++ [k])))))
        (seq 0 3).
Proof.
  intros Hw Hs Hi. unfold scaled. rewrite amap_amap.
  by apply (last_axis_amap
              (fun x => times_255 (normalize_sample (dtype_of img) x))
              (arr img) pre).
Qed.

(** X14. What [ycbcr2rgb] computes on each pixel of a well-formed image: the
    three samples are normalized and scaled by 255 in float32; sample [c]
    of the result is their product with column [c] of the matrix in
    float64, summed from left to right, times 255.0, plus offset [c], and
    then rounded to nearest even and cast (uint8) or divided by 255 and
    cast (float32). *)
Theorem ycbcr2rgb_pixels
    (img out : ndarray) (pre i : list nat) (c : nat) :
  wf (arr img) ->
  shape_of img = pre ++ [3] ->
  ycbcr2rgb img = inr out ->
  in_bounds pre i -> c < 3 ->
  get NaN (arr out) (i ++ [c])
  = inverse_sample (dtype_of img) rgb_matrix rgb_offsets
      (map (fun k => as64 (times_255 (normalize_sample (dtype_of img)
                                        (get NaN (arr img) (i ++ [k])))))
           (seq 0 3))
      c.
Proof.
  intros Hw Hs Hout Hi Hc. rewrite ycbcr2rgb_unfold in Hout.
  rewrite (ycbcr_to_sample rgb_matrix rgb_offsets img pre out i c);
    [|done..|by apply in_bounds_snoc].
  by rewrite (last_axis_scaled img pre i).
Qed.

(** Two 8-bit YCbCr pixels, black and white. *)
Definition black_and_white : ndarray :=
  NdArray uint8 (Arr [2; 3] (map SInt [16; 128; 128; 235; 128; 128]%Z)).

Lemma ycbcr2rgb_pixels_witness :
  get NaN (Arr [2; 3] (map SInt [0; 0; 0; 255; 255; 255]%Z)) ([1] ++ [0])
  = inverse_sample uint8 rgb_matrix rgb_offsets
      (map (fun k => as64 (times_255 (normalize_sample uint8
                             (get NaN (arr black_and_white) ([1] ++ [k])))))
           (seq 0 3))
      0.
Proof.
  apply (ycbcr2rgb_pixels black_and_white
           (NdArray uint8 (Arr [2; 3] (map SInt [0; 0; 0; 255; 255; 255]%Z)))
           [2] [1] 0).
  - reflexivity.
  - reflexivity.
  - by vm_compute.
  - repeat constructor.
  - lia.
Defined.

(** ** The luma-only forward conversions *)

Definition luma_of (w : list float) (img : ndarray) : exc + ndarray :=
  ebind (_convert_input_type_range img) (fun a =>
  ebind (ebind (dot a w) (fun d => inr (unbox (add_float64 d (Fp.lit 16 1)))))
    (fun out_img =>
       match out_img with
       | PyArray out_img =>
           fst (_convert_output_type_range out_img (dtype_of img))
       | PyScalar _ | PyList _ => inl (AssertionError None)
       end)).

Definition rgb_luma_weights : list float :=
  [Fp.lit 65481 1000; Fp.lit 128553 1000; Fp.lit 24966 1000].
Definition bgr_luma_weights : list float :=
  [Fp.lit 24966 1000; Fp.lit 128553 1000; Fp.lit 65481 1000].

Lemma rgb2ycbcr_luma_unfold img :
  rgb2ycbcr img true = luma_of rgb_luma_weights img.
Proof. reflexivity. Qed.

Lemma bgr2ycbcr_luma_unfold img :
  bgr2ycbcr img true = luma_of bgr_luma_weights img.
Proof. reflexivity. Qed.

(** The luma of one pixel, from its three normalized samples. *)
Definition luma_sample (t : dtype) (w : list float) (pixel : list float)
    : scalar :=
  let product := SFloat (dot64 pixel w) in
  denormalize_sample t (SFloat (Fp.add f64 (as64 product) (Fp.lit 16 1))).

Lemma luma_of_unrecognized w img :
  ~ recognized (dtype_of img) -> luma_of w img = inl (dtype_error img).
Proof.
  intros Hr. unfold luma_of. rewrite convert_input_unrecognized; [done|].
  destruct (is_recognized (dtype_of img)) eqn:E; [|done].
  by apply is_recognized_spec in E.
Qed.

Lemma luma_of_recognized w img pre c :
  length w = 3 -> recognized (dtype_of img) -> shape_of img = pre ++ [c] ->
  luma_of w img
  = if c =? 3 then
      match pre with
      | [] => inl (AssertionError None)
      | _ =>
          inr (NdArray (dtype_of img)
                 (amap (denormalize_sample (dtype_of img))
                    (amap (fun s => SFloat (Fp.add f64 (as64 s) (Fp.lit 16 1)))
                       (init pre
                          (fun idx =>
                             SFloat (dot64
                               (last_axis
                                  (amap (normalize_sample (dtype_of img)) (arr img))
                                  3 idx) w))))))
      end
    else inl (ValueError "shapes not aligned").
Proof.
  intros Hw Hr Hs. apply is_recognized_spec in Hr. unfold luma_of.
  rewrite convert_input_recognized by done. cbn [ebind].
  unfold dot, shape_of. cbn [arr shape amap].
  change (shape (arr img)) with (shape_of img). rewrite Hs, Hw.
  assert (Hl : List.last (pre ++ [c]) 0 = c) by apply last_last.
  assert (Hrl : removelast (pre ++ [c]) = pre) by apply removelast_last.
  destruct (pre ++ [c]) as [|n sh] eqn:E; [by destruct pre|].
  rewrite Hl, Hrl. clear E Hl Hrl Hs.
  destruct (c =? 3); [|done]. cbn [ebind].
  unfold unbox, add_float64, shape_of. cbn [arr shape amap init].
  destruct pre as [|n' pre]; [done|].
  by rewrite convert_output_recognized.
Qed.

(** How a luma-only conversion [f] ends on an image whose shape is [pre]
    followed by a last axis of length [c]. *)
Definition luma_only_outcome (f : ndarray -> exc + ndarray)
    (img : ndarray) (pre : list nat) (c : nat) : Prop :=
  (~ recognized (dtype_of img) -> f img = inl (dtype_error img))
  /\ (recognized (dtype_of img) -> c <> 3 ->
      f img = inl (ValueError "shapes not aligned"))
  /\ (recognized (dtype_of img) -> c = 3 -> pre = [] ->
      f img = inl (AssertionError None))
  /\ (recognized (dtype_of img) -> c = 3 -> pre <> [] ->
      exists out, f img = inr out
                  /\ dtype_of out = dtype_of img /\ shape_of out = pre).

Lemma luma_of_outcome w img pre c :
  length w = 3 -> shape_of img = pre ++ [c] ->
  luma_only_outcome (luma_of w) img pre c.
Proof.
  intros Hw Hs. unfold luma_only_outcome.
  split; [by apply luma_of_unrecognized|].
  split; [|split].
  - intros Hr Hc. rewrite (luma_of_recognized w img pre c) by done.
    apply Nat.eqb_neq in Hc. by rewrite Hc.
  - intros Hr -> ->. by rewrite (luma_of_recognized w img [] 3).
  - intros Hr -> Hp. rewrite (luma_of_recognized w img pre 3) by done.
    cbn [Nat.eqb]. destruct pre as [|n pre]; [done|]. by eexists.
Qed.

(** X15. [rgb2ycbcr(img, y_only=True)] and [bgr2ycbcr(img, y_only=True)] on an
    image with at least one axis.  A dtype other than uint8 and float32
    raises the [TypeError] that names it; a last axis of length other than
    3 raises NumPy's [ValueError]; a bare triple of shape [(3,)] raises
    [AssertionError], since [np.dot] of two vectors is a NumPy scalar and
    not an array; every other image gives an array of the dtype of the
    image and of its shape without the last axis. *)
Theorem luma_only_conversions_outcomes
    (img : ndarray) (pre : list nat) (c : nat) :
  shape_of img = pre ++ [c] ->
  luma_only_outcome (fun img => rgb2ycbcr img true) img pre c
  /\ luma_only_outcome (fun img => bgr2ycbcr img true) img pre c.
Proof.
  intros Hs. split.
  - by apply (luma_of_outcome rgb_luma_weights).
  - by apply (luma_of_outcome bgr_luma_weights).
Qed.

Lemma luma_only_conversions_outcomes_witness :
  luma_only_outcome (fun img => rgb2ycbcr img true) red_pixel [1; 1] 3
  /\ luma_only_outcome (fun img => bgr2ycbcr img true) red_pixel [1; 1] 3.
Proof.
  apply (luma_only_conversions_outcomes red_pixel [1; 1] 3). reflexivity.
Defined.

Lemma luma_of_sample w img pre out i :
  length w = 3 ->
  wf (arr img) -> shape_of img = pre ++ [3] ->
  luma_of w img = inr out -> in_bounds pre i ->
  get NaN (arr out) i
  = luma_sample (dtype_of img) w
      (map (fun k => as64 (normalize_sample (dtype_of img)
                             (get NaN (arr img) (i ++ [k]))))
           (seq 0 3)).
Proof.
  intros Hw Hwf Hs Hout Hi.
  assert (Hr : recognized (dtype_of img)).
  { destruct (is_recognized (dtype_of img)) eqn:E;
      [by apply is_recognized_spec|].
    unfold luma_of in Hout.
    by rewrite convert_input_unrecognized in Hout. }
  rewrite (luma_of_recognized w img pre 3) in Hout by done.
  cbn [Nat.eqb] in Hout. destruct pre as [|n pre]; [done|].
  injection Hout as <-. cbn [arr].
  rewrite !(get_amap _ NaN NaN)
    by (first [apply wf_init | apply wf_amap, wf_init | done]).
  rewrite get_init by done.
  by rewrite (last_axis_amap (normalize_sample (dtype_of img)) (arr img)
                (n :: pre)).
Qed.

(** X16. What the luma-only conversions compute on each pixel of a
    well-formed image: the three samples are normalized in float32; the
    result is their product with the three BT.601 luma weights (in the
    order of the channels) in float64, summed from left to right, plus
    16.0, and then rounded to nearest even and cast (uint8) or divided by
    255 and cast (float32). *)
Theorem luma_only_conversions_pixels
    (img out : ndarray) (pre i : list nat) :
  wf (arr img) ->
  shape_of img = pre ++ [3] ->
  in_bounds pre i ->
  let pixel := map (fun k => as64 (normalize_sample (dtype_of img)
                                     (get NaN (arr img) (i ++ [k]))))
                   (seq 0 3) in
  (rgb2ycbcr img true = inr out ->
   get NaN (arr out) i = luma_sample (dtype_of img) rgb_luma_weights pixel)
  /\ (bgr2ycbcr img true = inr out ->
      get NaN (arr out) i = luma_sample (dtype_of img) bgr_luma_weights pixel).
Proof.
  intros Hwf Hs Hi pixel. split; intros Hout.
  - by apply (luma_of_sample rgb_luma_weights img pre out i).
  - by apply (luma_of_sample bgr_luma_weights img pre out i).
Qed.

Lemma luma_only_conversions_pixels_witness :
  get NaN (Arr [1; 1] [SInt 81]) [0; 0]
  = luma_sample uint8 rgb_luma_weights
      (map (fun k => as64 (normalize_sample uint8
                             (get NaN (arr red_pixel) ([0; 0] ++ [k]))))
           (seq 0 3)).
Proof.
  apply (luma_only_conversions_pixels red_pixel
           (NdArray uint8 (Arr [1; 1] [SInt 81])) [1; 1] [0; 0]).
  - reflexivity.
  - reflexivity.
  - repeat constructor.
  - by vm_compute.
Defined.

(** ** Eight-bit samples survive the way in and out *)

(** [.round().astype(np.uint8)] on a float32 sample. *)
Definition round_to_byte (s : scalar) : scalar :=
  convert uint8 (SFloat (Fp.rint f32 (as_float f32 s))).

Lemma byte_round_trip (z : Z) :
  (0 <= z < 256)%Z ->
  round_to_byte (times_255 (normalize_sample uint8 (SInt z))) = SInt z.
Proof.
  intros Hz.
  assert (H : forallb (fun n =>
                match round_to_byte
                        (times_255 (normalize_sample uint8 (SInt (Z.of_nat n))))
                with
                | SInt z' => Z.eqb z' (Z.of_nat n)
                | SFloat _ => false
                end)
                (seq 0 256) = true) by (by vm_compute).
  rewrite forallb_forall in H.
  specialize (H (Z.to_nat z)). rewrite Z2Nat.id in H by lia.
  assert (Hin : In (Z.to_nat z) (seq 0 256)) by (apply in_seq; lia).
  apply H in Hin.
  destruct (round_to_byte _) as [z'|x]; [|done].
  apply Z.eqb_eq in Hin. by subst.
Qed.

(** X17. On an 8-bit image, the way in followed by the way out is the
    identity: [_convert_output_type_range(_convert_input_type_range(img)
    * 255, np.uint8)], the composition [ycbcr2rgb] wraps around its matrix
    product, gives back every sample exactly. *)
Theorem uint8_range_round_trip (img : ndarray) :
  dtype_of img = uint8 ->
  well_typed img ->
  ebind (_convert_input_type_range img)
        (fun a => fst (_convert_output_type_range (mul_int32 a 255) uint8))
  = inr img.
Proof.
  intros Ht Hwt. rewrite convert_input_recognized by (by rewrite Ht).
  cbn [ebind]. unfold _convert_output_type_range, mul_int32, round, astype.
  cbn [existsb dtype_eqb orb negb dtype_of float_format arr fst].
  rewrite !amap_amap. destruct img as [t a]. cbn [dtype_of arr] in *.
  subst t. do 2 f_equal.
  apply (amap_id_Forall (has_dtype uint8)); [exact Hwt|].
  intros [z|x] Hx; [|done]. apply (byte_round_trip z). by apply Hx.
Qed.

Lemma uint8_range_round_trip_witness :
  ebind (_convert_input_type_range red_pixel)
        (fun a => fst (_convert_output_type_range (mul_int32 a 255) uint8))
  = inr red_pixel.
Proof.
  apply (uint8_range_round_trip red_pixel); [reflexivity|].
  unfold well_typed, red_pixel; simpl.
  repeat (constructor; [intros _; lia|]). constructor.
Defined.

(** ** The reference pixels of BT.601 in eight bits *)

(** X18. Wherever they sit in an 8-bit image: [ycbcr2rgb] sends YCbCr black
    (16, 128, 128) to RGB (0, 0, 0) and YCbCr white (235, 128, 128) to
    (255, 255, 255), and the luma-only [rgb2ycbcr] sends RGB black to 16
    and RGB white to 235. *)
Theorem reference_pixels_8bit
    (img out : ndarray) (pre i : list nat) :
  wf (arr img) ->
  dtype_of img = uint8 ->
  shape_of img = pre ++ [3] ->
  in_bounds pre i ->
  let pixel := map (fun k => get NaN (arr img) (i ++ [k])) (seq 0 3) in
  (ycbcr2rgb img = inr out ->
   (pixel = [SInt 16; SInt 128; SInt 128] ->
    forall c, c < 3 -> get NaN (arr out) (i ++ [c]) = SInt 0)
   /\ (pixel = [SInt 235; SInt 128; SInt 128] ->
       forall c, c < 3 -> get NaN (arr out) (i ++ [c]) = SInt 255))
  /\ (rgb2ycbcr img true = inr out ->
      (pixel = [SInt 0; SInt 0; SInt 0] -> get NaN (arr out) i = SInt 16)
      /\ (pixel = [SInt 255; SInt 255; SInt 255] ->
          get NaN (arr out) i = SInt 235)).
Proof.
  intros Hw Ht Hs Hi pixel. subst pixel. cbn [seq map]. split.
  - intros Hout. rewrite ycbcr2rgb_unfold in Hout.
    assert (Hg : forall c, c < 3 ->
      get NaN (arr out) (i ++ [c])
      = inverse_sample uint8 rgb_matrix rgb_offsets
          (map (fun k => as64 (times_255 (normalize_sample uint8
                                 (get NaN (arr img) (i ++ [k])))))
               (seq 0 3)) c).
    { intros c Hc.
      rewrite (ycbcr_to_sample rgb_matrix rgb_offsets img pre out i c);
        [|done..|by apply in_bounds_snoc].
      by rewrite (last_axis_scaled img pre i), Ht. }
    split; intros [= E0 E1 E2] c Hc; rewrite Hg by done;
      cbn [seq map]; rewrite E0, E1, E2;
      by destruct c as [|[|[|c]]]; [vm_compute..|lia].
  - intros Hout. rewrite rgb2ycbcr_luma_unfold in Hout.
    rewrite (luma_of_sample rgb_luma_weights img pre out i) by done.
    rewrite Ht. cbn [seq map].
    split; intros [= E0 E1 E2]; rewrite E0, E1, E2; by vm_compute.
Qed.

Lemma reference_pixels_8bit_witness :
  get NaN (Arr [2; 3] (map SInt [0; 0; 0; 255; 255; 255]%Z)) ([1] ++ [0])
  = SInt 255.
Proof.
  assert (Hw : wf (arr black_and_white)) by reflexivity.
  assert (Hi : in_bounds [2] [1]) by (repeat constructor).
  destruct (reference_pixels_8bit black_and_white
              (NdArray uint8 (Arr [2; 3] (map SInt [0; 0; 0; 255; 255; 255]%Z)))
              [2] [1] Hw eq_refl eq_refl Hi) as [Hrgb _].
  destruct Hrgb as [_ Hwhite]; [by vm_compute|].
  apply Hwhite; [reflexivity|lia].
Defined.

End NumpyReturns.

(* ===================================================================== *)
(** * Arrays with leading axes: selecting and stacking channels *)
(* ===================================================================== *)

Module NdMore.
Import Nd NdFacts.
Local Open Scope nat_scope.

Lemma size_app l1 l2 : size (l1 ++ l2) = size l1 * size l2.
Proof.
  unfold size. induction l1 as [|n l1 IH]; cbn [app fold_right]; [lia|].
  rewrite IH. lia.
Qed.

Lemma ravel_app p pre t r :
  length pre = length p ->
  ravel (p ++ t) (pre ++ r) = ravel p pre * size t + ravel t r.
Proof.
  revert pre. induction p as [|n p IH]; intros [|i pre] Hl; try done.
  cbn [app ravel]. rewrite IH by (cbn [length] in Hl; lia).
  rewrite size_app. lia.
Qed.

Lemma in_bounds_app p pre t r :
  length pre = length p ->
  in_bounds (p ++ t) (pre ++ r) <-> in_bounds p pre /\ in_bounds t r.
Proof.
  intros Hl. unfold in_bounds. split.
  - intros H. by apply Forall2_app_inv in H.
  - intros [H1 H2]. by apply Forall2_app.
Qed.

Lemma in_bounds_split p t idx :
  in_bounds (p ++ t) idx ->
  exists pre r, idx = pre ++ r /\ in_bounds p pre /\ in_bounds t r.
Proof.
  intros H. apply Forall2_app_inv_r in H as (pre & r & H1 & H2 & ->).
  by exists pre, r.
Qed.

Lemma in_bounds2 H W r :
  in_bounds [H; W] r -> exists h w, r = [h; w] /\ h < H /\ w < W.
Proof.
  intros Hr. unfold in_bounds in Hr.
  inversion Hr as [|h ? l1 ? Hh H1]; subst.
  inversion H1 as [|w ? l2 ? Hw H2]; subst.
  inversion H2; subst. by exists h, w.
Qed.

Lemma in_bounds3 C H W r :
  in_bounds [C; H; W] r ->
  exists c h w, r = [c; h; w] /\ c < C /\ h < H /\ w < W.
Proof.
  intros Hr. unfold in_bounds in Hr.
  inversion Hr as [|c ? l0 ? Hc H0]; subst.
  apply in_bounds2 in H0 as (h & w & -> & Hh & Hw). by exists c, h, w.
Qed.

(** ** [select] *)

Lemma in_bounds_select p n t i pre r :
  i < n -> in_bounds p pre -> in_bounds t r ->
  in_bounds (p ++ n :: t) (pre ++ i :: r).
Proof.
  intros Hi Hp Ht. apply in_bounds_app; [by apply in_bounds_length|].
  split; [done|]. by apply in_bounds_cons.
Qed.

Lemma get_select {A} (d : A) a p n t i pre r :
  shape a = p ++ n :: t -> i < n -> in_bounds p pre -> in_bounds t r ->
  get d (select d (length p) i a) (pre ++ r) = get d a (pre ++ i :: r).
Proof.
  intros Hs Hi Hp Ht. unfold select. rewrite Hs, delete_middle.
  pose proof (in_bounds_length _ _ Hp) as Hl.
  rewrite get_init by (by apply in_bounds_app).
  rewrite <- Hl. by rewrite take_app_length, drop_app_length.
Qed.

Lemma shape_select {A} (d : A) a p n t i :
  shape a = p ++ n :: t -> shape (select d (length p) i a) = p ++ t.
Proof. intros Hs. unfold select; cbn [shape init]. by rewrite Hs, delete_middle. Qed.

Lemma amap_select {A B} (g : A -> B) (d : A) (d' : B) v p n t i :
  wf v -> shape v = p ++ n :: t -> i < n ->
  amap g (select d (length p) i v) = select d' (length p) i (amap g v).
Proof.
  intros Hw Hs Hi. unfold select, init, amap at 1; cbn [shape data amap].
  f_equal. rewrite map_map. apply map_ext_in. intros k Hk. apply in_seq in Hk.
  rewrite Hs, delete_middle in *.
  destruct (in_bounds_split p t (unravel (p ++ t) k))
    as (pre & r & -> & Hp & Ht); [apply unravel_in_bounds; lia|].
  pose proof (in_bounds_length _ _ Hp) as Hl.
  rewrite <- Hl, take_app_length, drop_app_length.
  symmetry. apply get_amap; [done|]. rewrite Hs. by apply in_bounds_select.
Qed.

(** ** [unsqueeze] *)

Lemma shape_unsqueeze {A} (a : array A) p t :
  shape a = p ++ t -> shape (unsqueeze (length p) a) = p ++ 1 :: t.
Proof.
  intros Hs. unfold unsqueeze; cbn [shape].
  by rewrite Hs, take_app_length, drop_app_length.
Qed.

Lemma get_unsqueeze {A} (d : A) (a : array A) p t pre r :
  shape a = p ++ t -> length pre = length p ->
  get d (unsqueeze (length p) a) (pre ++ 0 :: r) = get d a (pre ++ r).
Proof.
  intros Hs Hl. unfold get. rewrite (shape_unsqueeze a p t Hs), Hs.
  cbn [unsqueeze data]. f_equal.
  rewrite !ravel_app by done. cbn [ravel]. unfold size. cbn [fold_right]. lia.
Qed.

(** ** [cat] along the axis after a prefix *)

Lemma same_but_prefix p c1 c2 t :
  same_but (length p) (p ++ c1 :: t) (p ++ c2 :: t) = true.
Proof.
  unfold same_but. rewrite !length_app. cbn [length].
  rewrite Nat.eqb_refl. cbn [andb].
  apply andb_true_intro. split; [apply Nat.ltb_lt; lia|].
  apply forallb_forall. intros k Hk. apply in_seq in Hk.
  destruct (decide (k = length p)) as [->|Hne];
    [by rewrite Nat.eqb_refl|].
  apply orb_true_iff. right. apply Nat.eqb_eq.
  destruct (decide (k < length p)) as [Hlt|Hge].
  - by rewrite !app_nth1.
  - rewrite !app_nth2 by lia.
    destruct (k - length p) as [|j] eqn:E; [lia|done].
Qed.

Lemma alter_prefix {A} (f : A -> A) p x t :
  alter f (length p) (p ++ x :: t) = p ++ f x :: t.
Proof. induction p as [|y p IH]; cbn; [done|]. by f_equal. Qed.

Lemma cat2_prefix {A} (d : A) p c1 c2 t (a b : array A) :
  shape a = p ++ c1 :: t -> shape b = p ++ c2 :: t ->
  cat2 d (length p) a b
  = Some (init (p ++ (c1 + c2) :: t)
            (fun idx =>
               if nth (length p) idx 0 <? c1 then get d a idx
               else get d b (alter (fun i => i - c1) (length p) idx))).
Proof.
  intros Ha Hb. unfold cat2. rewrite Ha, Hb, same_but_prefix.
  by rewrite !nth_middle, alter_prefix.
Qed.

(** Three arrays of one shape [p ++ t], each given a new axis after [p],
    concatenated along it. *)
Definition stack3 {A} (d : A) (p t : list nat) (x y z : array A) : array A :=
  init (p ++ 3 :: t)
    (fun idx =>
       if nth (length p) idx 0 <? 2
       then get d
              (init (p ++ 2 :: t)
                 (fun idx =>
                    if nth (length p) idx 0 <? 1
                    then get d (unsqueeze (length p) x) idx
                    else get d (unsqueeze (length p) y)
                           (alter (fun i => i - 1) (length p) idx)))
              idx
       else get d (unsqueeze (length p) z)
              (alter (fun i => i - 2) (length p) idx)).

Lemma cat_stack3 {A} (d : A) p t (x y z : array A) :
  shape x = p ++ t -> shape y = p ++ t -> shape z = p ++ t ->
  cat d (length p) (map (unsqueeze (length p)) [x; y; z])
  = Some (stack3 d p t x y z).
Proof.
  intros Hx Hy Hz. cbn [map cat cat_from].
  rewrite (cat2_prefix d p 1 1 t)
    by (by apply shape_unsqueeze).
  rewrite (cat2_prefix d p 2 1 t)
    by (done || by apply shape_unsqueeze).
  done.
Qed.

Lemma get_stack3 {A} (d : A) p t (x y z : array A) pre k r :
  shape x = p ++ t -> shape y = p ++ t -> shape z = p ++ t ->
  in_bounds p pre -> k < 3 -> in_bounds t r ->
  get d (stack3 d p t x y z) (pre ++ k :: r)
  = get d (nth k [x; y; z] x) (pre ++ r).
Proof.
  intros Hx Hy Hz Hp Hk Hr. unfold stack3.
  pose proof (in_bounds_length _ _ Hp) as Hl.
  rewrite get_init by (by apply in_bounds_select).
  rewrite <- Hl, !nth_middle, !alter_prefix.
  destruct k as [|[|[|k]]]; [| | |lia]; cbn [nth Nat.ltb Nat.leb Nat.sub].
  - rewrite get_init by (apply in_bounds_select; [lia|done..]).
    rewrite nth_middle. cbn [Nat.ltb Nat.leb].
    rewrite Hl. by apply (get_unsqueeze d x p t).
  - rewrite get_init by (apply in_bounds_select; [lia|done..]).
    rewrite nth_middle, alter_prefix. cbn [Nat.ltb Nat.leb Nat.sub].
    rewrite Hl. by apply (get_unsqueeze d y p t).
  - rewrite Hl. by apply (get_unsqueeze d z p t).
Qed.

(** ** Broadcasting one value per channel over an image *)

Lemma broadcast_channels p C H W :
  broadcast_shapes (p ++ [C; H; W]) [C; 1; 1] = Some (p ++ [C; H; W]).
Proof.
  unfold broadcast_shapes. rewrite rev_app_distr.
  cbn [rev app broadcast_rev Nat.eqb].
  assert (E : broadcast_rev (rev p) [] = Some (rev p)) by (by destruct (rev p)).
  rewrite E, Nat.eqb_refl.
  destruct (H =? 1), (W =? 1);
    cbn [rev app]; rewrite rev_involutive, <- ?app_assoc; done.
Qed.

Lemma bidx_channels C pre c h w :
  C <> 1 -> bidx [C; 1; 1] (pre ++ [c; h; w]) = [c; 0; 0].
Proof.
  intros HC. unfold bidx. rewrite length_app. cbn [length].
  replace (length pre + 3 - 3) with (length pre) by lia.
  rewrite drop_app_length. cbn [zip_with Nat.eqb].
  apply Nat.eqb_neq in HC. by rewrite HC.
Qed.

End NdMore.

(* ===================================================================== *)
(** * [rgb_to_xyz] and [linear_rgb_to_lab_norm], pixel by pixel *)
(* ===================================================================== *)

Section XyzAndLab.
Import Nd NdFacts NdMore Torch TorchFacts Wp WpMore.
Local Open Scope string_scope.
Local Open Scope list_scope.
Local Open Scope nat_scope.
Local Open Scope torch_scope.

Local Notation "x [*] y" := (Fp.mul f32 x y) (at level 40, left associativity).
Local Notation "x [/] y" := (Fp.div f32 x y) (at level 40, left associativity).
Local Notation "x [+] y" := (Fp.add f32 x y) (at level 50, left associativity).
Local Notation "x [-] y" := (Fp.sub f32 x y) (at level 50, left associativity).

(** ** The two functions on one pixel *)

(** [cr * r + cg * g + cb * b], summed from left to right. *)
Definition mix (r g b cr cg cb : float) : float :=
  r [*] cr [+] g [*] cg [+] b [*] cb.

Definition rgb_pixel_to_xyz (r g b : float) : list float :=
  [mix r g b (Fp.lit32 412453 1000000) (Fp.lit32 357580 1000000)
             (Fp.lit32 180423 1000000);
   mix r g b (Fp.lit32 212671 1000000) (Fp.lit32 715160 1000000)
             (Fp.lit32 72169 1000000);
   mix r g b (Fp.lit32 19334 1000000) (Fp.lit32 119193 1000000)
             (Fp.lit32 950227 1000000)].

Definition d65_white : list float :=
  [Fp.lit32 95047 100000; Fp.lit32 1 1; Fp.lit32 108883 100000].

(** One XYZ sample of channel [c]: divided by the white point, then the
    cube root above the threshold, through the reference power, and the
    line below it. *)
Definition lab_curve (c : nat) (v : float) : float :=
  let threshold := Fp.lit32 8856 1000000 in
  let vn := v [/] nth c d65_white zero in
  if Fp.ltb threshold vn
  then Fp.pow f32 (clamp1 (Some threshold) None vn) (Fp.lit 1 3)
  else vn [*] Fp.lit32 7787 1000 [+] Fp.lit32 4 29.

Definition xyz_pixel_to_lab (x y z : float) : list float :=
  let fx := lab_curve 0 x in
  let fy := lab_curve 1 y in
  let fz := lab_curve 2 z in
  [(fy [*] Fp.of_Z f32 116 [-] Fp.of_Z f32 16) [/] Fp.of_Z f32 100;
   ((fx [-] fy) [*] Fp.of_Z f32 500 [+] Fp.of_Z f32 128) [/] Fp.of_Z f32 255;
   ((fy [-] fz) [*] Fp.of_Z f32 200 [+] Fp.of_Z f32 128) [/] Fp.of_Z f32 255].

Definition rgb_pixel_to_lab (r g b : float) : list float :=
  xyz_pixel_to_lab (nth 0 (rgb_pixel_to_xyz r g b) zero)
                   (nth 1 (rgb_pixel_to_xyz r g b) zero)
                   (nth 2 (rgb_pixel_to_xyz r g b) zero).

(** ** Images and planes computed pixel by pixel from an image [a] of
    shape [p ++ [3; H; W]] *)

Section Planes.
Variables (p : list nat) (H W : nat) (a : array float).

Definition image_of (G : float -> float -> float -> nat -> float)
    (b : array float) : Prop :=
  wf b /\ shape b = p ++ [3; H; W]
  /\ forall pre c h w, in_bounds p pre -> c < 3 -> h < H -> w < W ->
       get zero b (pre ++ [c; h; w])
       = G (get zero a (pre ++ [0; h; w])) (get zero a (pre ++ [1; h; w]))
           (get zero a (pre ++ [2; h; w])) c.

Definition plane_of (g : float -> float -> float -> float)
    (b : array float) : Prop :=
  wf b /\ shape b = p ++ [H; W]
  /\ forall pre h w, in_bounds p pre -> h < H -> w < W ->
       get zero b (pre ++ [h; w])
       = g (get zero a (pre ++ [0; h; w])) (get zero a (pre ++ [1; h; w]))
           (get zero a (pre ++ [2; h; w])).

Ltac in_bounds_tac :=
  repeat first [apply in_bounds_nil | apply in_bounds_cons | lia].

Lemma in_image pre c h w :
  in_bounds p pre -> c < 3 -> h < H -> w < W ->
  in_bounds (p ++ [3; H; W]) (pre ++ [c; h; w]).
Proof. intros. apply in_bounds_select; [done..|]. in_bounds_tac. Qed.

Lemma in_plane pre h w :
  in_bounds p pre -> h < H -> w < W ->
  in_bounds (p ++ [H; W]) (pre ++ [h; w]).
Proof.
  intros Hp Hh Hw. apply in_bounds_app; [by apply in_bounds_length|].
  split; [done|]. in_bounds_tac.
Qed.

Lemma image_self :
  wf a -> shape a = p ++ [3; H; W] ->
  image_of (fun r g b c => nth c [r; g; b] zero) a.
Proof.
  intros Hw Hs. split; [done|]. split; [done|].
  intros pre c h w Hp Hc Hh Hw'. by destruct c as [|[|[|c]]]; [| | |lia].
Qed.

Lemma image_of_ext G G' b :
  (forall r g b c, c < 3 -> G r g b c = G' r g b c) ->
  image_of G b -> image_of G' b.
Proof.
  intros HG (Hw & Hs & Hg). split; [done|]. split; [done|].
  intros pre c h w Hp Hc Hh Hw'. rewrite Hg by done. by apply HG.
Qed.

Lemma plane_select G b i :
  image_of G b -> i < 3 ->
  plane_of (fun r g b => G r g b i) (select zero (length p) i b).
Proof.
  intros (Hw & Hs & Hg) Hi. split; [apply wf_init|].
  split; [by apply (shape_select zero b p 3 [H; W])|].
  intros pre h w Hp Hh Hw'.
  rewrite (get_select zero b p 3 [H; W]) by (done || in_bounds_tac).
  by apply Hg.
Qed.

Lemma plane_amap f g b :
  plane_of g b -> plane_of (fun r g' b' => f (g r g' b')) (amap f b).
Proof.
  intros (Hw & Hs & Hg). split; [by apply wf_amap|]. split; [done|].
  intros pre h w Hp Hh Hw'.
  rewrite (get_amap _ zero) by (done || rewrite Hs; by apply in_plane).
  by rewrite Hg.
Qed.

Lemma plane_zip f g1 g2 b1 b2 :
  plane_of g1 b1 -> plane_of g2 b2 ->
  plane_of (fun r g b => f (g1 r g b) (g2 r g b)) (zip_same zero zero f b1 b2).
Proof.
  intros (Hw1 & Hs1 & Hg1) (Hw2 & Hs2 & Hg2). split; [apply wf_init|].
  split; [done|]. intros pre h w Hp Hh Hw'.
  rewrite (get_zip_same _ _ zero)
    by (congruence || rewrite Hs1; by apply in_plane).
  by rewrite Hg1, Hg2.
Qed.

Lemma image_stack g0 g1 g2 b0 b1 b2 :
  plane_of g0 b0 -> plane_of g1 b1 -> plane_of g2 b2 ->
  image_of (fun r g b c => nth c [g0 r g b; g1 r g b; g2 r g b] zero)
           (stack3 zero p [H; W] b0 b1 b2).
Proof.
  intros (Hw0 & Hs0 & Hg0) (Hw1 & Hs1 & Hg1) (Hw2 & Hs2 & Hg2).
  split; [apply wf_init|]. split; [done|].
  intros pre c h w Hp Hc Hh Hw'.
  rewrite get_stack3 by (done || in_bounds_tac).
  destruct c as [|[|[|c]]]; [| | |lia]; cbn [nth]; auto.
Qed.

Lemma image_amap f G b :
  image_of G b -> image_of (fun r g b' c => f (G r g b' c)) (amap f b).
Proof.
  intros (Hw & Hs & Hg). split; [by apply wf_amap|]. split; [done|].
  intros pre c h w Hp Hc Hh Hw'.
  rewrite (get_amap _ zero) by (done || rewrite Hs; by apply in_image).
  by rewrite Hg.
Qed.

Lemma image_where (pr : float -> bool) G0 Gx Gy b0 bx by_ :
  image_of G0 b0 -> image_of Gx bx -> image_of Gy by_ ->
  image_of (fun r g b c => if pr (G0 r g b c) then Gx r g b c else Gy r g b c)
           (where_same (amap pr b0) bx by_).
Proof.
  intros (Hw0 & Hs0 & Hg0) (Hwx & Hsx & Hgx) (Hwy & Hsy & Hgy).
  split; [apply wf_init|]. split; [cbn [shape where_same zip_same amap init]; done|].
  intros pre c h w Hp Hc Hh Hw'.
  rewrite get_where_same
    by (cbn [shape amap]; congruence || rewrite Hsx; by apply in_image).
  rewrite (get_amap _ zero false) by (done || rewrite Hs0; by apply in_image).
  by rewrite Hg0, Hgx, Hgy.
Qed.

(** One value per channel, broadcast over the image. *)
Definition per_channel (f : float -> float -> float) (b : array float)
    (v : list float) : array float :=
  init (p ++ [3; H; W])
    (fun idx => f (get zero b (bidx (p ++ [3; H; W]) idx))
                  (get zero (Arr [3; 1; 1] v) (bidx [3; 1; 1] idx))).

Lemma zip2_per_channel f b v :
  shape b = p ++ [3; H; W] ->
  zip2 zero zero f b (Arr [3; 1; 1] v) = Some (per_channel f b v).
Proof.
  intros Hs. unfold zip2. rewrite Hs. cbn [shape].
  by rewrite broadcast_channels.
Qed.

Lemma image_per_channel f G b v :
  image_of G b ->
  image_of (fun r g b' c => f (G r g b' c) (nth c v zero)) (per_channel f b v).
Proof.
  intros (Hw & Hs & Hg). split; [apply wf_init|]. split; [done|].
  intros pre c h w Hp Hc Hh Hw'. unfold per_channel.
  rewrite get_init by (by apply in_image).
  rewrite bidx_same by (by apply in_image).
  rewrite bidx_channels by lia. rewrite Hg by done. f_equal.
  unfold get. cbn [shape data ravel]. unfold size. cbn [fold_right].
  f_equal. lia.
Qed.

End Planes.

(** ** The library calls on such tensors *)

Lemma wp_getitem_axis3 i x a p n t s (Q : Tensor -> store -> Prop) :
  denotes s x a -> shape a = p ++ n :: t -> length t = 2 -> i < n ->
  (forall y, denotes s y (select zero (length p) i a) -> Q y s) ->
  wp (getitem_axis3_from_end i x) s Q.
Proof.
  intros Hx Hs Ht Hi HQ. unfold getitem_axis3_from_end, dim_from_end, ndim.
  pose proof (denotes_shape _ _ _ Hx) as Hsx. rewrite <- Hsx, Hs.
  assert (Hl : length (p ++ n :: t) = length p + 3)
    by (rewrite length_app; cbn [length]; lia).
  rewrite Hl.
  replace (length p + 3 <? 3) with false by (symmetry; apply Nat.ltb_ge; lia).
  replace (length p + 3 - 3) with (length p) by lia.
  rewrite nth_middle.
  replace (n <=? i) with false by (symmetry; apply Nat.leb_gt; lia).
  apply wp_ret, HQ. destruct Hx as (Hb & Hw & Hr).
  split; [done|]. split; [apply wf_init|].
  unfold read; cbn [base view].
  rewrite (amap_select _ 0 zero _ p n t) by (done || by rewrite Hsx in Hs).
  fold (read s x). by rewrite Hr.
Qed.

Lemma wp_stack3 x y z ax ay az p t s (Q : Tensor -> store -> Prop) :
  denotes s x ax -> denotes s y ay -> denotes s z az ->
  shape ax = p ++ t -> shape ay = p ++ t -> shape az = p ++ t ->
  length t = 2 ->
  (forall r s', s `prefix_of` s' -> denotes s' r (stack3 zero p t ax ay az) ->
                Q r s') ->
  wp (stack_axis3_from_end [x; y; z]) s Q.
Proof.
  intros Hx Hy Hz Hsx Hsy Hsz Ht HQ. unfold stack_axis3_from_end, load_all.
  apply wp_bind.
  apply wp_bind, (wp_load x ax); [done|].
  apply wp_bind, wp_bind, (wp_load y ay); [done|].
  apply wp_bind, wp_bind, (wp_load z az); [done|].
  apply wp_bind, wp_ret, wp_ret, wp_ret, wp_ret.
  cbn [forallb andb]. rewrite Hsx, Hsy, Hsz.
  rewrite !bool_decide_eq_true_2 by done. cbn [andb].
  assert (Hl : length (p ++ t) = length p + 2) by (rewrite length_app; lia).
  rewrite Hl.
  replace (length p + 2 <? 2) with false by (symmetry; apply Nat.ltb_ge; lia).
  replace (length p + 2 - 2) with (length p) by lia.
  apply wp_bind, (wp_of_option _ _ (stack3 zero p t ax ay az));
    [by apply cat_stack3|].
  apply wp_new; [apply wf_init|done].
Qed.

Lemma wp_append_two_axes x n l s (Q : Tensor -> store -> Prop) :
  denotes s x (Arr [n] l) ->
  (forall y, denotes s y (Arr [n; 1; 1] l) -> Q y s) ->
  wp (getitem_append_two_axes x) s Q.
Proof.
  intros Hx HQ. unfold getitem_append_two_axes, ndim.
  pose proof (denotes_shape _ _ _ Hx) as Hsx. cbn [shape] in Hsx.
  rewrite <- Hsx. cbn [length Nat.ltb Nat.leb app].
  apply wp_ret, HQ. destruct Hx as (Hb & Hw & Hr).
  destruct x as [bx [sh d]]. unfold tshape in Hsx. cbn [view shape] in Hsx.
  subst sh. unfold read, amap, reshape, wf in *.
  cbn [base view shape data] in *. injection Hr as Hd.
  split; [done|]. split.
  2:{ by subst l. }
  unfold wf, reshape. cbn [view shape data app].
  rewrite Hw. unfold size. cbn [fold_right]. lia.
Qed.

(** ** [rgb_to_xyz] *)

Lemma wp_mix r g b R G Bl p H W a gr gg gb cr cg cb s
    (Q : Tensor -> store -> Prop) :
  denotes s r R -> denotes s g G -> denotes s b Bl ->
  plane_of p H W a gr R -> plane_of p H W a gg G -> plane_of p H W a gb Bl ->
  (forall t s' X, s `prefix_of` s' -> denotes s' t X ->
     plane_of p H W a
       (fun x y z => mix (gr x y z) (gg x y z) (gb x y z) cr cg cb) X ->
     Q t s') ->
  wp (let* tr := mul_s r cr in
      let* tg := mul_s g cg in
      let* trg := add tr tg in
      let* tb := mul_s b cb in
      add trg tb) s Q.
Proof.
  intros Hr Hg Hb Pr Pg Pb HQ. unfold mul_s, add.
  apply wp_bind. eapply wp_map_t; [exact Hr|]. intros tr s1 Hp1 Htr.
  apply (denotes_prefix _ _ _ _ Hp1) in Hg, Hb.
  pose proof (plane_amap p H W a (fun v => v [*] cr) _ _ Pr) as Ptr.
  apply wp_bind. eapply wp_map_t; [exact Hg|]. intros tg s2 Hp2 Htg.
  apply (denotes_prefix _ _ _ _ Hp2) in Htr, Hb.
  pose proof (plane_amap p H W a (fun v => v [*] cg) _ _ Pg) as Ptg.
  apply wp_bind. eapply wp_zip_t; [exact Htr|exact Htg| |].
  { apply zip2_same_shape. destruct Ptr as (_ & -> & _).
    by destruct Ptg as (_ & -> & _). }
  intros trg s3 Hp3 Htrg. apply (denotes_prefix _ _ _ _ Hp3) in Hb.
  pose proof (plane_zip p H W a (Fp.add f32) _ _ _ _ Ptr Ptg) as Ptrg.
  apply wp_bind. eapply wp_map_t; [exact Hb|]. intros tb s4 Hp4 Htb.
  apply (denotes_prefix _ _ _ _ Hp4) in Htrg.
  pose proof (plane_amap p H W a (fun v => v [*] cb) _ _ Pb) as Ptb.
  eapply wp_zip_t; [exact Htrg|exact Htb| |].
  { apply zip2_same_shape. destruct Ptrg as (_ & -> & _).
    by destruct Ptb as (_ & -> & _). }
  intros t s5 Hp5 Ht. eapply HQ; [|exact Ht|].
  - etrans; [exact Hp1|]. etrans; [exact Hp2|]. etrans; [exact Hp3|].
    etrans; [exact Hp4|exact Hp5].
  - exact (plane_zip p H W a (Fp.add f32) _ _ _ _ Ptrg Ptb).
Qed.

Lemma shape_checks_pass (x : Tensor) p H W :
  tshape x = p ++ [3; H; W] ->
  (ndim x <? 3) || negb (dim_from_end x 3 =? 3) = false.
Proof.
  intros Hs. unfold dim_from_end, ndim. rewrite Hs.
  assert (Hl : length (p ++ [3; H; W]) = length p + 3)
    by (rewrite length_app; cbn [length]; lia).
  rewrite Hl.
  replace (length p + 3 <? 3) with false by (symmetry; apply Nat.ltb_ge; lia).
  replace (length p + 3 - 3) with (length p) by lia.
  by rewrite nth_middle.
Qed.

Lemma rgb_to_xyz_image
    (image : Tensor) (a : array float) (s : store) (p : list nat) (H W : nat) :
  denotes s image a ->
  tshape image = p ++ [3; H; W] ->
  wp (rgb_to_xyz image) s
     (fun t s' =>
        exists r, denotes s' t r
          /\ image_of p H W a
               (fun r g b c => nth c (rgb_pixel_to_xyz r g b) zero) r).
Proof.
  intros Hx Hsh.
  pose proof (denotes_shape _ _ _ Hx) as Ha. rewrite Hsh in Ha.
  pose proof (denotes_wf _ _ _ Hx) as Hwa.
  pose proof (image_self p H W a Hwa Ha) as Ia.
  unfold rgb_to_xyz. rewrite (shape_checks_pass image p H W Hsh). cbv zeta.
  apply wp_bind. eapply (wp_getitem_axis3 0 _ _ p 3 [H; W]);
    [exact Hx|exact Ha|done|lia|]. intros r Hr.
  apply wp_bind. eapply (wp_getitem_axis3 1 _ _ p 3 [H; W]);
    [exact Hx|exact Ha|done|lia|]. intros g Hg.
  apply wp_bind. eapply (wp_getitem_axis3 2 _ _ p 3 [H; W]);
    [exact Hx|exact Ha|done|lia|]. intros b Hb.
  pose proof (plane_select p H W a _ _ 0 Ia ltac:(lia)) as Pr.
  pose proof (plane_select p H W a _ _ 1 Ia ltac:(lia)) as Pg.
  pose proof (plane_select p H W a _ _ 2 Ia ltac:(lia)) as Pb.
  cbn [nth] in Pr, Pg, Pb.
  apply wp_bind. eapply (wp_mix r g b); [exact Hr|exact Hg|exact Hb|exact Pr|exact Pg|exact Pb|].
  intros x s1 X Hp1 HX PX. apply (denotes_prefix _ _ _ _ Hp1) in Hr, Hg, Hb.
  apply wp_bind. eapply (wp_mix r g b); [exact Hr|exact Hg|exact Hb|exact Pr|exact Pg|exact Pb|].
  intros y s2 Y Hp2 HY PY. apply (denotes_prefix _ _ _ _ Hp2) in Hr, Hg, Hb, HX.
  apply wp_bind. eapply (wp_mix r g b); [exact Hr|exact Hg|exact Hb|exact Pr|exact Pg|exact Pb|].
  intros z s3 Z Hp3 HZ PZ. apply (denotes_prefix _ _ _ _ Hp3) in HX, HY.
  eapply (wp_stack3 _ _ _ _ _ _ p [H; W]);
    [exact HX|exact HY|exact HZ| | | |done|].
  1-3: match goal with
       | Hpl : plane_of _ _ _ _ _ ?A |- shape ?A = _ =>
           by destruct Hpl as (_ & ? & _)
       end.
  intros t s4 _ Ht. eexists. split; [exact Ht|].
  eapply image_of_ext; [|exact (image_stack p H W a _ _ _ _ _ _ PX PY PZ)].
  intros r0 g0 b0 c Hc. by destruct c as [|[|[|c]]]; [| | |lia].
Qed.

(** ** [linear_rgb_to_lab_norm] *)

Lemma plane_shape p H W a g b : plane_of p H W a g b -> shape b = p ++ [H; W].
Proof. by intros (_ & ? & _). Qed.

Lemma image_shape p H W a G b : image_of p H W a G b -> shape b = p ++ [3; H; W].
Proof. by intros (_ & ? & _). Qed.

Lemma linear_rgb_to_lab_norm_image
    (lin_rgb : Tensor) (a : array float) (s : store) (p : list nat) (H W : nat) :
  denotes s lin_rgb a ->
  tshape lin_rgb = p ++ [3; H; W] ->
  wp (linear_rgb_to_lab_norm lin_rgb) s
     (fun t s' =>
        exists r, denotes s' t r
          /\ image_of p H W a
               (fun r g b c => nth c (rgb_pixel_to_lab r g b) zero) r).
Proof.
  intros Hx Hsh.
  unfold linear_rgb_to_lab_norm.
  rewrite (shape_checks_pass lin_rgb p H W Hsh). cbv zeta.
  unfold tensor, clamp, div, sub, add_s, sub_s, mul_s, div_s, pow_s.
  apply wp_bind.
  eapply wp_mono; [by apply (rgb_to_xyz_image lin_rgb a s p H W)|].
  intros xyz s1 Hp1 (X & HX & IX). cbv beta. clear Hx Hp1 s.
  apply wp_bind. fold d65_white. apply wp_new; [done|].
  intros wt s2 Hp Hwt. frame.
  apply wp_bind. eapply wp_append_two_axes; [exact Hwt|]. intros wh Hwh.
  apply wp_bind. eapply wp_zip_t; [exact HX|exact Hwh| |].
  { apply (zip2_per_channel p H W). by eapply image_shape. }
  intros xn s3 Hp Hxn. frame.
  pose proof (image_per_channel p H W a (Fp.div f32) _ _ d65_white IX) as IN.
  set (XN := per_channel p H W (Fp.div f32) X d65_white) in *.
  apply wp_bind. eapply wp_map_t; [exact Hxn|]. intros cl s4 Hp Hcl. frame.
  pose proof (image_amap p H W a
                (clamp1 (Some (Fp.lit32 8856 1000000)) None) _ _ IN) as ICl.
  apply wp_bind. eapply wp_map_t; [exact Hcl|]. intros pw s5 Hp Hpw. frame.
  pose proof (image_amap p H W a
                (fun v => Fp.pow f32 v (Fp.lit 1 3)) _ _ ICl) as IPw.
  apply wp_bind. eapply wp_map_t; [exact Hxn|]. intros s0 s6 Hp Hs0. frame.
  pose proof (image_amap p H W a
                (fun v => v [*] Fp.lit32 7787 1000) _ _ IN) as IS0.
  apply wp_bind. eapply wp_map_t; [exact Hs0|]. intros sc s7 Hp Hsc. frame.
  pose proof (image_amap p H W a
                (fun v => v [+] Fp.lit32 4 29) _ _ IS0) as ISc.
  apply wp_bind. eapply wp_gt_s; [exact Hxn|].
  apply wp_bind. eapply wp_where_same; [exact Hpw|exact Hsc| | |].
  { cbn [shape amap]. done. }
  { cbn [shape amap]. done. }
  intros xi s8 Hp Hxi. frame.
  pose proof (image_where p H W a
                (fun v => Fp.ltb (Fp.lit32 8856 1000000) v) _ _ _ _ _ _
                IN IPw ISc) as II.
  set (XI := where_same _ _ _) in *.
  pose proof (image_shape _ _ _ _ _ _ II) as HsI.
  apply wp_bind. eapply (wp_getitem_axis3 0 _ _ p 3 [H; W]);
    [exact Hxi|exact HsI|done|lia|]. intros x Hx.
  apply wp_bind. eapply (wp_getitem_axis3 1 _ _ p 3 [H; W]);
    [exact Hxi|exact HsI|done|lia|]. intros y Hy.
  apply wp_bind. eapply (wp_getitem_axis3 2 _ _ p 3 [H; W]);
    [exact Hxi|exact HsI|done|lia|]. intros z Hz.
  pose proof (plane_select p H W a _ _ 0 II ltac:(lia)) as Px.
  pose proof (plane_select p H W a _ _ 1 II ltac:(lia)) as Py.
  pose proof (plane_select p H W a _ _ 2 II ltac:(lia)) as Pz.
  (* L = ((116.0 * y) - 16.0) / 100 *)
  apply wp_bind. eapply wp_map_t; [exact Hy|]. intros l0 s9 Hp Hl0. frame.
  pose proof (plane_amap p H W a (fun v => v [*] Fp.of_Z f32 116) _ _ Py) as Pl0.
  apply wp_bind. eapply wp_map_t; [exact Hl0|]. intros l1 s10 Hp Hl1. frame.
  pose proof (plane_amap p H W a (fun v => v [-] Fp.of_Z f32 16) _ _ Pl0) as Pl1.
  apply wp_bind. eapply wp_map_t; [exact Hl1|]. intros L s11 Hp HL. frame.
  pose proof (plane_amap p H W a (fun v => v [/] Fp.of_Z f32 100) _ _ Pl1) as PL.
  (* a = ((500.0 * (x - y)) + 128) / 255 *)
  apply wp_bind. eapply wp_zip_t; [exact Hx|exact Hy| |].
  { apply zip2_same_shape.
    by rewrite (plane_shape _ _ _ _ _ _ Px), (plane_shape _ _ _ _ _ _ Py). }
  intros a0 s12 Hp Ha0. frame.
  pose proof (plane_zip p H W a (Fp.sub f32) _ _ _ _ Px Py) as Pa0.
  apply wp_bind. eapply wp_map_t; [exact Ha0|]. intros a1 s13 Hp Ha1. frame.
  pose proof (plane_amap p H W a (fun v => v [*] Fp.of_Z f32 500) _ _ Pa0) as Pa1.
  apply wp_bind. eapply wp_map_t; [exact Ha1|]. intros a2 s14 Hp Ha2. frame.
  pose proof (plane_amap p H W a (fun v => v [+] Fp.of_Z f32 128) _ _ Pa1) as Pa2.
  apply wp_bind. eapply wp_map_t; [exact Ha2|]. intros a3 s15 Hp Ha3. frame.
  pose proof (plane_amap p H W a (fun v => v [/] Fp.of_Z f32 255) _ _ Pa2) as Pa3.
  (* _b = (200.0 * (y - z) + 128) / 255 *)
  apply wp_bind. eapply wp_zip_t; [exact Hy|exact Hz| |].
  { apply zip2_same_shape.
    by rewrite (plane_shape _ _ _ _ _ _ Py), (plane_shape _ _ _ _ _ _ Pz). }
  intros b0 s16 Hp Hb0. frame.
  pose proof (plane_zip p H W a (Fp.sub f32) _ _ _ _ Py Pz) as Pb0.
  apply wp_bind. eapply wp_map_t; [exact Hb0|]. intros b1 s17 Hp Hb1. frame.
  pose proof (plane_amap p H W a (fun v => v [*] Fp.of_Z f32 200) _ _ Pb0) as Pb1.
  apply wp_bind. eapply wp_map_t; [exact Hb1|]. intros b2 s18 Hp Hb2. frame.
  pose proof (plane_amap p H W a (fun v => v [+] Fp.of_Z f32 128) _ _ Pb1) as Pb2.
  apply wp_bind. eapply wp_map_t; [exact Hb2|]. intros b3 s19 Hp Hb3. frame.
  pose proof (plane_amap p H W a (fun v => v [/] Fp.of_Z f32 255) _ _ Pb2) as Pb3.
  eapply (wp_stack3 _ _ _ _ _ _ p [H; W]);
    [exact HL|exact Ha3|exact Hb3
    |exact (plane_shape _ _ _ _ _ _ PL)
    |exact (plane_shape _ _ _ _ _ _ Pa3)
    |exact (plane_shape _ _ _ _ _ _ Pb3)|done|].
  intros t s20 _ Ht. eexists. split; [exact Ht|].
  eapply image_of_ext; [|exact (image_stack p H W a _ _ _ _ _ _ PL Pa3 Pb3)].
  intros r0 g0 b' c Hc. by destruct c as [|[|[|c]]]; [| | |lia].
Qed.

(** X19. [rgb_to_xyz] on a tensor of shape [(..., 3, H, W)] with any leading
    axes: the call returns a tensor of the same shape whose pixel at each
    place is the matrix product of the pixel of the input at that place:
    X, Y and Z are each [cr * r + cg * g + cb * b] with the coefficients
    of the source, summed from left to right. *)
Theorem rgb_to_xyz_pixels
    (image : Tensor) (a : array float) (s : store) (p : list nat) (H W : nat) :
  denotes s image a ->
  tshape image = p ++ [3; H; W] ->
  wp (rgb_to_xyz image) s
     (fun t s' =>
        exists r, denotes s' t r /\ tshape t = tshape image
          /\ forall pre c h w,
               in_bounds p pre -> c < 3 -> h < H -> w < W ->
               get zero r (pre ++ [c; h; w])
               = nth c (rgb_pixel_to_xyz (get zero a (pre ++ [0; h; w]))
                                         (get zero a (pre ++ [1; h; w]))
                                         (get zero a (pre ++ [2; h; w]))) zero).
Proof.
  intros Hx Hsh.
  eapply wp_mono; [by apply (rgb_to_xyz_image image a s p H W)|].
  intros t s' _ (r & Hr & (Hw & Hs & Hg)). exists r.
  split; [done|]. split; [|done].
  by rewrite <- (denotes_shape _ _ _ Hr), Hs.
Qed.

Lemma rgb_to_xyz_pixels_witness :
  wp (rgb_to_xyz rank3_white) rank3_store
     (fun t s' =>
        exists r, denotes s' t r /\ tshape t = tshape rank3_white
          /\ forall pre c h w,
               in_bounds [] pre -> c < 3 -> h < 1 -> w < 1 ->
               get zero r (pre ++ [c; h; w])
               = nth c (rgb_pixel_to_xyz
                          (get zero (read rank3_store rank3_white) (pre ++ [0; h; w]))
                          (get zero (read rank3_store rank3_white) (pre ++ [1; h; w]))
                          (get zero (read rank3_store rank3_white) (pre ++ [2; h; w])))
                       zero).
Proof.
  apply (rgb_to_xyz_pixels rank3_white (read rank3_store rank3_white)
           rank3_store [] 1 1).
  - split; [simpl; lia|]. split; [apply wf_iota|reflexivity].
  - reflexivity.
Defined.

(** ** The pixels that do not reach [torch.pow]

    [torch.where] takes the line [7.787 v + 4/29] wherever the XYZ value
    over the white point is not above 0.008856, not-a-number included. *)

Definition lab_threshold : float := Fp.lit32 8856 1000000.

Definition white_ratio (c : nat) (v : float) : float :=
  v [/] nth c d65_white zero.

Definition lab_line (c : nat) (v : float) : float :=
  white_ratio c v [*] Fp.lit32 7787 1000 [+] Fp.lit32 4 29.

Definition on_line (c : nat) (v : float) : bool :=
  negb (Fp.ltb lab_threshold (white_ratio c v)).

Lemma lab_curve_line (c : nat) (v : float) :
  on_line c v = true -> lab_curve c v = lab_line c v.
Proof.
  unfold on_line, lab_curve, lab_line, white_ratio, lab_threshold. cbv zeta.
  by destruct (Fp.ltb _ _).
Qed.

(** A store with a 1x3x1x2 tensor: a dark pixel (1/200, 1/200, 1/200) and
    a bright one (1/2, 1/4, 1). *)
Definition lab_store : store :=
  [ [Fp.lit32 1 200; Fp.lit32 1 2; Fp.lit32 1 200;
     Fp.lit32 1 4; Fp.lit32 1 200; Fp.of_Z f32 1] ].
Definition lab_img : Tensor := mkTensor 0 (iota [1; 3; 1; 2]).

(** X20. [linear_rgb_to_lab_norm] on a tensor of shape [(..., 3, H, W)] with any
    leading axes: the call returns a tensor of the same shape, and at each
    pixel the channels whose XYZ values, over the D65 white point, are
    not above 0.008856 are computed from the pixel of the input at that
    place, through the line [f v = 7.787 v + 4/29]:
    [L = (116 fy - 16) / 100] where Y is such,
    [a = (500 (fx - fy) + 128) / 255] where X and Y are, and
    [b = (200 (fy - fz) + 128) / 255] where Y and Z are. *)
Theorem linear_rgb_to_lab_norm_pixels
    (lin_rgb : Tensor) (a : array float) (s : store) (p : list nat) (H W : nat) :
  denotes s lin_rgb a ->
  tshape lin_rgb = p ++ [3; H; W] ->
  wp (linear_rgb_to_lab_norm lin_rgb) s
     (fun t s' =>
        exists r, denotes s' t r /\ tshape t = tshape lin_rgb
          /\ forall pre h w, in_bounds p pre -> h < H -> w < W ->
               let xyz := rgb_pixel_to_xyz (get zero a (pre ++ [0; h; w]))
                                           (get zero a (pre ++ [1; h; w]))
                                           (get zero a (pre ++ [2; h; w])) in
               let x := nth 0 xyz zero in
               let y := nth 1 xyz zero in
               let z := nth 2 xyz zero in
               let lab c := get zero r (pre ++ [c; h; w]) in
               (on_line 1 y = true ->
                lab 0 = (lab_line 1 y [*] Fp.of_Z f32 116 [-] Fp.of_Z f32 16)
                        [/] Fp.of_Z f32 100)
               /\ (on_line 0 x = true -> on_line 1 y = true ->
                   lab 1 = ((lab_line 0 x [-] lab_line 1 y) [*] Fp.of_Z f32 500
                            [+] Fp.of_Z f32 128) [/] Fp.of_Z f32 255)
               /\ (on_line 1 y = true -> on_line 2 z = true ->
                   lab 2 = ((lab_line 1 y [-] lab_line 2 z) [*] Fp.of_Z f32 200
                            [+] Fp.of_Z f32 128) [/] Fp.of_Z f32 255)).
Proof.
  intros Hx Hsh.
  eapply wp_mono; [by apply (linear_rgb_to_lab_norm_image lin_rgb a s p H W)|].
  intros t s' _ (r & Hr & (Hw & Hs & Hg)). exists r.
  split; [done|]. split; [by rewrite <- (denotes_shape _ _ _ Hr), Hs|].
  intros pre h w Hp Hh Hw' xyz x y z lab. subst lab. cbv beta.
  rewrite !Hg by (done || lia).
  unfold rgb_pixel_to_lab, xyz_pixel_to_lab. fold xyz. fold x y z.
  cbn [nth].
  split; [|split].
  - intros Hy. by rewrite (lab_curve_line 1 y Hy).
  - intros Hx' Hy. by rewrite (lab_curve_line 0 x Hx'), (lab_curve_line 1 y Hy).
  - intros Hy Hz. by rewrite (lab_curve_line 1 y Hy), (lab_curve_line 2 z Hz).
Qed.

Lemma linear_rgb_to_lab_norm_pixels_witness :
  (let xyz := rgb_pixel_to_xyz (Fp.lit32 1 200) (Fp.lit32 1 200)
                               (Fp.lit32 1 200) in
   map (fun c => on_line c (nth c xyz zero)) [0; 1; 2] = [true; true; true])
  /\ wp (linear_rgb_to_lab_norm lab_img) lab_store
       (fun t s' =>
          exists r, denotes s' t r /\ tshape t = tshape lab_img
            /\ forall pre h w, in_bounds [1] pre -> h < 1 -> w < 2 ->
                 let at_ c := get zero (read lab_store lab_img)
                                (pre ++ [c; h; w]) in
                 let xyz := rgb_pixel_to_xyz (at_ 0) (at_ 1) (at_ 2) in
                 let x := nth 0 xyz zero in
                 let y := nth 1 xyz zero in
                 let z := nth 2 xyz zero in
                 let lab c := get zero r (pre ++ [c; h; w]) in
                 (on_line 1 y = true ->
                  lab 0 = (lab_line 1 y [*] Fp.of_Z f32 116 [-] Fp.of_Z f32 16)
                          [/] Fp.of_Z f32 100)
                 /\ (on_line 0 x = true -> on_line 1 y = true ->
                     lab 1 = ((lab_line 0 x [-] lab_line 1 y) [*] Fp.of_Z f32 500
                              [+] Fp.of_Z f32 128) [/] Fp.of_Z f32 255)
                 /\ (on_line 1 y = true -> on_line 2 z = true ->
                     lab 2 = ((lab_line 1 y [-] lab_line 2 z) [*] Fp.of_Z f32 200
                              [+] Fp.of_Z f32 128) [/] Fp.of_Z f32 255)).
Proof.
  split; [by vm_compute|].
  apply (linear_rgb_to_lab_norm_pixels lab_img (read lab_store lab_img)
           lab_store [1] 1 2).
  - split; [simpl; lia|]. split; [apply wf_iota|reflexivity].
  - reflexivity.
Defined.

(** X21. Wherever a white pixel (1, 1, 1) sits in a tensor of shape
    [(..., 3, H, W)], [linear_rgb_to_lab_norm] puts L within 1/10000 of 1
    and a and b within 1/10000 of 128/255 at that place, and wherever a
    black pixel (0, 0, 0) sits, L within 1/10000 of 0: the result at a
    pixel does not depend on the rest of the tensor. *)
Theorem lab_of_white_and_black_pixels
    (lin_rgb : Tensor) (a : array float) (s : store) (p : list nat) (H W : nat) :
  denotes s lin_rgb a ->
  tshape lin_rgb = p ++ [3; H; W] ->
  wp (linear_rgb_to_lab_norm lin_rgb) s
     (fun t s' =>
        exists r, denotes s' t r
          /\ forall pre h w, in_bounds p pre -> h < H -> w < W ->
               let at_ c := get zero a (pre ++ [c; h; w]) in
               let lab c := get zero r (pre ++ [c; h; w]) in
               let eps := (1 # 10000)%Q in
               (at_ 0 = Fp.of_Z f32 1 -> at_ 1 = Fp.of_Z f32 1 ->
                at_ 2 = Fp.of_Z f32 1 ->
                Fp.close_to eps 1 (lab 0) = true
                /\ Fp.close_to eps (128 # 255) (lab 1) = true
                /\ Fp.close_to eps (128 # 255) (lab 2) = true)
               /\ (at_ 0 = Fp.of_Z f32 0 -> at_ 1 = Fp.of_Z f32 0 ->
                   at_ 2 = Fp.of_Z f32 0 ->
                   Fp.close_to eps 0 (lab 0) = true)).
Proof.
  intros Hx Hsh.
  eapply wp_mono; [by apply (linear_rgb_to_lab_norm_image lin_rgb a s p H W)|].
  intros t s' _ (r & Hr & (Hw & Hs & Hg)). exists r.
  split; [done|]. intros pre h w Hp Hh Hw' at_ lab eps. subst at_ lab.
  split.
  - intros E0 E1 E2. rewrite !Hg by (done || lia). rewrite E0, E1, E2.
    by vm_compute.
  - intros E0 E1 E2. rewrite !Hg by (done || lia). rewrite E0, E1, E2.
    by vm_compute.
Qed.

Lemma lab_of_white_and_black_pixels_witness :
  wp (linear_rgb_to_lab_norm rank3_white) rank3_store
     (fun t s' =>
        exists r, denotes s' t r
          /\ forall pre h w, in_bounds [] pre -> h < 1 -> w < 1 ->
               let at_ c := get zero (read rank3_store rank3_white)
                              (pre ++ [c; h; w]) in
               let lab c := get zero r (pre ++ [c; h; w]) in
               let eps := (1 # 10000)%Q in
               (at_ 0 = Fp.of_Z f32 1 -> at_ 1 = Fp.of_Z f32 1 ->
                at_ 2 = Fp.of_Z f32 1 ->
                Fp.close_to eps 1 (lab 0) = true
                /\ Fp.close_to eps (128 # 255) (lab 1) = true
                /\ Fp.close_to eps (128 # 255) (lab 2) = true)
               /\ (at_ 0 = Fp.of_Z f32 0 -> at_ 1 = Fp.of_Z f32 0 ->
                   at_ 2 = Fp.of_Z f32 0 ->
                   Fp.close_to eps 0 (lab 0) = true)).
Proof.
  apply (lab_of_white_and_black_pixels rank3_white
           (read rank3_store rank3_white) rank3_store [] 1 1).
  - split; [simpl; lia|]. split; [apply wf_iota|reflexivity].
  - reflexivity.
Defined.

End XyzAndLab.

(* ===================================================================== *)
(** * Which results share storage with the arguments *)
(* ===================================================================== *)

Section Aliasing.
Import Nd NdFacts Torch TorchFacts Wp WpMore.
Local Open Scope string_scope.
Local Open Scope list_scope.
Local Open Scope nat_scope.
Local Open Scope torch_scope.

Lemma fresh_raise e : fresh (raise e).
Proof. by intros s t s' H. Qed.

Lemma fresh_of_new {A} (m : M A) (k : A -> array float) :
  grows m -> fresh (let* a := m in new (k a)).
Proof. intros Hm. apply fresh_bind; [done|]. intros a. apply fresh_new. Qed.

Lemma fresh_zip_t f x y : fresh (zip_t f x y).
Proof.
  unfold zip_t. apply fresh_bind; [grows_all|]. intros a.
  apply fresh_bind; [grows_all|]. intros b.
  apply fresh_bind; [grows_all|]. intros r. apply fresh_new.
Qed.

Lemma fresh_where cond x y : fresh (where_ cond x y).
Proof.
  unfold where_. apply fresh_bind; [grows_all|]. intros a.
  apply fresh_bind; [grows_all|]. intros b.
  apply fresh_bind; [grows_all|]. intros pk.
  apply fresh_bind; [grows_all|]. intros r. apply fresh_new.
Qed.

Lemma fresh_matmul x w : fresh (matmul x w).
Proof.
  unfold matmul. apply fresh_bind; [grows_all|]. intros a.
  apply fresh_bind; [grows_all|]. intros b.
  apply fresh_bind; [grows_all|]. intros r. apply fresh_new.
Qed.

Lemma fresh_cat ax l : fresh (cat ax l).
Proof.
  unfold cat. apply fresh_bind; [grows_all|]. intros a.
  apply fresh_bind; [grows_all|]. intros r. apply fresh_new.
Qed.

Lemma fresh_stack l : fresh (stack_axis3_from_end l).
Proof.
  unfold stack_axis3_from_end. apply fresh_bind; [grows_all|].
  intros [|a rest]; [apply fresh_raise|].
  destruct (forallb _ _); [|apply fresh_raise].
  destruct (_ <? _); [apply fresh_raise|].
  apply fresh_bind; [grows_all|]. intros r. apply fresh_new.
Qed.

(** A chain of library calls: each step before the last only allocates,
    and the last makes a new tensor. *)
Ltac fresh_all :=
  repeat lazymatch goal with
  | |- fresh (bind _ _) => apply fresh_bind; [grows_all|intros ?]
  | |- fresh (raise _) => apply fresh_raise
  | |- fresh (new _) => apply fresh_new
  | |- fresh (map_t _ _) => apply fresh_map_t
  | |- fresh (zip_t _ _ _) => apply fresh_zip_t
  | |- fresh (where_ _ _ _) => apply fresh_where
  | |- fresh (matmul _ _) => apply fresh_matmul
  | |- fresh (cat _ _) => apply fresh_cat
  | |- fresh (stack_axis3_from_end _) => apply fresh_stack
  end.

Lemma fresh_ycbcr2rgb_pt img : fresh (ycbcr2rgb_pt img).
Proof. unfold ycbcr2rgb_pt, mul_s, sub_s, div_s, add, sub. fresh_all. Qed.

Lemma fresh_rgb_to_luma img : fresh (rgb_to_luma img).
Proof.
  unfold rgb_to_luma. destruct (_ || _); [apply fresh_raise|].
  unfold tensor, clamp, add_s, sub_s, mul_s, div_s, pow_s, mul.
  fresh_all. destruct (_ =? _); grows_all.
Qed.

Lemma fresh_rgb_to_linear_rgb image : fresh (rgb_to_linear_rgb image).
Proof.
  unfold rgb_to_linear_rgb. destruct (_ || _); [apply fresh_raise|].
  unfold add_s, div_s, pow_s. fresh_all.
Qed.

Lemma grows_rgb_to_xyz image : grows (rgb_to_xyz image).
Proof.
  unfold rgb_to_xyz. destruct (_ || _); [apply grows_raise|].
  unfold mul_s, add. grows_all.
Qed.

Lemma fresh_rgb_to_xyz image : fresh (rgb_to_xyz image).
Proof.
  unfold rgb_to_xyz. destruct (_ || _); [apply fresh_raise|].
  unfold mul_s, add. fresh_all.
Qed.

Lemma fresh_linear_rgb_to_lab_norm lin_rgb : fresh (linear_rgb_to_lab_norm lin_rgb).
Proof.
  unfold linear_rgb_to_lab_norm. destruct (_ || _); [apply fresh_raise|].
  unfold tensor, clamp, add_s, sub_s, mul_s, div_s, pow_s, div, sub.
  apply fresh_bind; [apply grows_rgb_to_xyz|]. intros xyz. fresh_all.
Qed.

(** A slice of a tensor is a view: same storage, store untouched. *)
Lemma fresh_then_slice (m : M Tensor) lo hi :
  fresh m -> fresh (let* t := m in getitem_axis1 lo hi t).
Proof.
  intros Hm s t s' H. rewrite run_bind in H.
  destruct (m s) as [[e|t0] s1] eqn:E; [done|].
  apply Hm in E. unfold getitem_axis1 in H.
  destruct (_ <? _); [done|]. by inversion H; subst.
Qed.

(** The splice of the inverse dispatcher: the write keeps the number of
    storages, and the conversion that follows allocates its result. *)
Lemma fresh_splice lo hi img ref :
  fresh (let* img_yuv := rgb2ycbcr_pt ref false in
         let* _ := setitem_axis1 lo hi img_yuv img in
         ycbcr2rgb_pt img_yuv).
Proof.
  intros s t s' H. rewrite run_bind in H.
  pose proof (grows_rgb2ycbcr_pt ref false s) as Hg.
  destruct (rgb2ycbcr_pt ref false s) as [[e|yuv] s1] eqn:E1; [done|].
  cbn [snd] in Hg. apply prefix_length in Hg.
  rewrite run_bind in H.
  assert (Hlen : length (snd (setitem_axis1 lo hi yuv img s1)) = length s1).
  { unfold setitem_axis1.
    destruct (_ <? _); [done|]. rewrite run_bind. cbn [load].
    destruct (broadcast_shapes _ _); [|done].
    destruct (decide _); [|done].
    cbn [snd]. by rewrite length_insert. }
  destruct (setitem_axis1 lo hi yuv img s1) as [[e|[]] s2] eqn:E2; [done|].
  cbn [snd] in Hlen. apply fresh_ycbcr2rgb_pt in H. lia.
Qed.

(** X22. Which results alias the argument.  Every conversion returns a tensor
    on a storage allocated during the call, so writing into the result
    cannot change the argument; so do the dispatchers for the tags
    ['yuv444'], ['y'] and ['uv'].  For the tag ['rgb'] both dispatchers
    return the very tensor they were given, storage and all, and leave
    the store as it was. *)
Theorem results_on_new_storage
    (x : Tensor) (ref : option Tensor) (y_only : bool) :
  fresh (rgb2ycbcr_pt x y_only)
  /\ fresh (ycbcr2rgb_pt x)
  /\ fresh (rgb_to_luma x)
  /\ fresh (rgb_to_linear_rgb x)
  /\ fresh (rgb_to_xyz x)
  /\ fresh (linear_rgb_to_lab_norm x)
  /\ fresh (rgb2pixelformat_pt x "yuv444")
  /\ fresh (rgb2pixelformat_pt x "y")
  /\ fresh (pixelformat2rgb_pt x ref "yuv444")
  /\ fresh (pixelformat2rgb_pt x ref "y")
  /\ fresh (pixelformat2rgb_pt x ref "uv")
  /\ (forall s, rgb2pixelformat_pt x "rgb" s = (inr x, s))
  /\ (forall s, pixelformat2rgb_pt x ref "rgb" s = (inr x, s)).
Proof.
  split; [apply fresh_rgb2ycbcr_pt|].
  split; [apply fresh_ycbcr2rgb_pt|].
  split; [apply fresh_rgb_to_luma|].
  split; [apply fresh_rgb_to_linear_rgb|].
  split; [apply fresh_rgb_to_xyz|].
  split; [apply fresh_linear_rgb_to_lab_norm|].
  split; [apply fresh_rgb2ycbcr_pt|].
  split; [apply (fresh_then_slice _ 0 (Some 1)), fresh_rgb2ycbcr_pt|].
  split; [apply fresh_ycbcr2rgb_pt|].
  split; [destruct ref; [apply fresh_splice|apply fresh_raise]|].
  split; [destruct ref; [apply fresh_splice|apply fresh_raise]|].
  done.
Qed.

End Aliasing.

(* ===================================================================== *)
(** * The slice assignment of the inverse dispatcher *)
(* ===================================================================== *)

Module SetItem.
Import Nd NdFacts NdMore Torch TorchFacts Wp WpMore.
Local Open Scope string_scope.
Local Open Scope list_scope.
Local Open Scope nat_scope.
Local Open Scope torch_scope.

Ltac in_bounds_tac :=
  repeat first [apply in_bounds_nil | apply in_bounds_cons | lia].

(** ** The value, stripped of leading axes of length 1 and expanded *)

Lemma strip_ones_suffix sh : exists ones, sh = ones ++ strip_ones sh.
Proof.
  induction sh as [|n sh [ones IH]]; [by exists []|].
  destruct n as [|[|n]]; [by exists []| |by exists []].
  exists (1 :: ones). cbn [strip_ones app]. by f_equal.
Qed.

Lemma strip_ones_length sh : length (strip_ones sh) <= length sh.
Proof.
  destruct (strip_ones_suffix sh) as [ones E].
  rewrite E at 2. rewrite length_app. lia.
Qed.

Lemma broadcast_rev_prefix l m : broadcast_rev l (l ++ m) = Some (l ++ m).
Proof.
  induction l as [|x l IH]; cbn [app broadcast_rev]; [by destruct m|].
  by rewrite IH, Nat.eqb_refl.
Qed.

Lemma broadcast_strip sh : broadcast_shapes (strip_ones sh) sh = Some sh.
Proof.
  destruct (strip_ones_suffix sh) as [ones E]. unfold broadcast_shapes.
  rewrite E at 2. rewrite rev_app_distr, broadcast_rev_prefix.
  by rewrite <- rev_app_distr, rev_involutive, <- E.
Qed.

Lemma ravel_strip sh idx :
  in_bounds sh idx ->
  ravel (strip_ones sh) (bidx (strip_ones sh) idx) = ravel sh idx.
Proof.
  intros Hb. induction Hb as [|i n idx sh Hi Hb IH]; [done|].
  destruct (decide (n = 1)) as [->|Hn].
  - assert (i = 0) as -> by lia. cbn [strip_ones ravel].
    rewrite <- IH. f_equal. unfold bidx. cbn [length].
    pose proof (strip_ones_length sh) as Hl.
    pose proof (Forall2_length _ _ _ Hb) as Hl'.
    replace (S (length idx) - length (strip_ones sh))
      with (S (length idx - length (strip_ones sh))) by lia.
    done.
  - assert (E : strip_ones (n :: sh) = n :: sh)
      by (by destruct n as [|[|n]]).
    rewrite E. rewrite bidx_same; [done|]. by constructor.
Qed.

Lemma data_broadcast_strip (b : array float) :
  wf b ->
  data (broadcast_to zero (shape b) (reshape (strip_ones (shape b)) b))
  = data b.
Proof.
  intros Hw. unfold broadcast_to, init. cbn [data shape reshape].
  transitivity (map (fun p => nth p (data b) zero) (seq 0 (length (data b))));
    [|apply map_nth_seq].
  rewrite Hw. apply map_ext_in. intros k Hk. apply in_seq in Hk.
  unfold get. cbn [shape data reshape].
  rewrite ravel_strip by (apply unravel_in_bounds; lia).
  by rewrite ravel_unravel by lia.
Qed.

(** ** Writing a list of samples at a list of distinct positions *)

Lemma write_all_cons p v ps vs c :
  write_all (p :: ps) (v :: vs) c = write_all ps vs (<[p := v]> c).
Proof. done. Qed.

Lemma write_all_length ps vs c : length (write_all ps vs c) = length c.
Proof.
  revert vs c. induction ps as [|p ps IH]; intros [|v vs] c; try done.
  rewrite write_all_cons, IH. apply length_insert.
Qed.

Lemma write_all_other ps vs c q :
  ~ In q ps -> write_all ps vs c !! q = c !! q.
Proof.
  revert vs c. induction ps as [|p ps IH]; intros [|v vs] c Hq; try done.
  rewrite write_all_cons, IH by (intros ?; apply Hq; by right).
  apply list_lookup_insert_ne. intros ->. apply Hq. by left.
Qed.

Lemma write_all_at ps vs c k q v :
  List.NoDup ps -> ps !! k = Some q -> vs !! k = Some v -> q < length c ->
  write_all ps vs c !! q = Some v.
Proof.
  revert vs c k. induction ps as [|p ps IH]; intros [|v0 vs] c k Hnd Hp Hv Hq;
    try done.
  rewrite write_all_cons. inversion Hnd as [|? ? Hnotin Hnd']; subst.
  destruct k as [|k]; cbn in Hp, Hv.
  - injection Hp as ->. injection Hv as ->.
    rewrite write_all_other by done. by apply list_lookup_insert_eq.
  - apply (IH vs _ k); [done..|]. by rewrite length_insert.
Qed.

(** ** The positions a channel slice of a contiguous tensor covers *)

Section Positions.
Variables (N C H W lo : nat).
Hypothesis Hfit : lo + C <= 3.

(** The position of the sample [k] of the slice in the storage. *)
Definition position (k : nat) : nat :=
  ravel [N; 3; H; W] (alter (fun i => i + lo) 1 (unravel [N; C; H; W] k)).

Lemma slice_shape hi :
  hi = lo + C ->
  alter (fun n => Nat.min hi n - Nat.min lo n) 1 [N; 3; H; W] = [N; C; H; W].
Proof. intros ->. cbn [alter list_alter]. do 2 f_equal. lia. Qed.

Lemma shifted_in_bounds idx :
  in_bounds [N; C; H; W] idx ->
  in_bounds [N; 3; H; W] (alter (fun i => i + lo) 1 idx).
Proof.
  intros Hi. apply in_bounds4' in Hi as (n & c & h & w & -> & ? & ? & ? & ?).
  cbn [alter list_alter]. in_bounds_tac.
Qed.

Lemma slice_positions hi :
  hi = lo + C ->
  data (slice 0 1 lo hi (iota [N; 3; H; W]))
  = map position (seq 0 (size [N; C; H; W])).
Proof.
  intros Hhi. unfold slice, init. cbn [data shape iota].
  rewrite (slice_shape hi Hhi). apply map_ext_in. intros k Hk.
  apply in_seq in Hk. unfold position.
  apply (get_iota [N; 3; H; W]), shifted_in_bounds, unravel_in_bounds. lia.
Qed.

Lemma position_of n c h w :
  n < N -> c < C -> h < H -> w < W ->
  position (ravel [N; C; H; W] [n; c; h; w])
  = ravel [N; 3; H; W] [n; c + lo; h; w].
Proof.
  intros Hn Hc Hh Hw. unfold position.
  by rewrite unravel_ravel by in_bounds_tac.
Qed.

Lemma position_inv k idx :
  k < size [N; C; H; W] -> in_bounds [N; 3; H; W] idx ->
  position k = ravel [N; 3; H; W] idx ->
  exists n c h w, idx = [n; c + lo; h; w] /\ c < C
                  /\ k = ravel [N; C; H; W] [n; c; h; w].
Proof.
  intros Hk Hi E. unfold position in E.
  pose proof (unravel_in_bounds _ _ Hk) as Hu.
  pose proof (shifted_in_bounds _ Hu) as Hs.
  apply (f_equal (unravel [N; 3; H; W])) in E.
  rewrite !unravel_ravel in E by done.
  pose proof (ravel_unravel _ _ Hk) as Hr.
  apply in_bounds4' in Hu as (n & c & h & w & Eu & ? & ? & ? & ?).
  rewrite Eu in E, Hr. cbn [alter list_alter] in E.
  exists n, c, h, w. by rewrite <- E, Hr.
Qed.

Lemma position_inj k k' :
  k < size [N; C; H; W] -> k' < size [N; C; H; W] ->
  position k = position k' -> k = k'.
Proof.
  intros Hk Hk' E.
  pose proof (unravel_in_bounds _ _ Hk') as Hu'.
  destruct (position_inv k _ Hk (shifted_in_bounds _ Hu') E)
    as (n & c & h & w & E1 & Hc & ->).
  pose proof (ravel_unravel _ _ Hk') as Hr. rewrite <- Hr.
  apply in_bounds4' in Hu' as (n' & c' & h' & w' & Eu & ? & ? & ? & ?).
  rewrite Eu in *. cbn [alter list_alter] in E1.
  injection E1 as -> Ec -> ->. by replace c with c' by lia.
Qed.

Lemma positions_NoDup :
  List.NoDup (map position (seq 0 (size [N; C; H; W]))).
Proof.
  apply NoDup_map_NoDup_ForallPairs; [|apply seq_NoDup].
  intros k k' Hk Hk' E. apply in_seq in Hk, Hk'.
  apply position_inj; [lia..|done].
Qed.

(** What the storage holds at each place of the tensor after the slice
    was assigned the samples [vs]. *)
Lemma written_cell (vs c0 : list float) n c h w :
  length vs = size [N; C; H; W] ->
  size [N; 3; H; W] <= length c0 ->
  n < N -> c < 3 -> h < H -> w < W ->
  nth (ravel [N; 3; H; W] [n; c; h; w])
      (write_all (map position (seq 0 (size [N; C; H; W]))) vs c0) zero
  = if (lo <=? c) && (c <? lo + C)
    then nth (ravel [N; C; H; W] [n; c - lo; h; w]) vs zero
    else nth (ravel [N; 3; H; W] [n; c; h; w]) c0 zero.
Proof.
  intros Hvs Hc0 Hn Hc Hh Hw.
  assert (Hq : ravel [N; 3; H; W] [n; c; h; w] < size [N; 3; H; W])
    by (apply ravel_lt; in_bounds_tac).
  rewrite (nth_lookup (write_all _ _ _)).
  destruct ((lo <=? c) && (c <? lo + C)) eqn:E.
  - apply andb_prop in E as [E1 E2].
    apply Nat.leb_le in E1. apply Nat.ltb_lt in E2.
    set (k := ravel [N; C; H; W] [n; c - lo; h; w]).
    assert (Hk : k < size [N; C; H; W]) by (apply ravel_lt; in_bounds_tac).
    rewrite (write_all_at _ vs c0 k _ (nth k vs zero)); [done| | | |lia].
    + apply positions_NoDup.
    + destruct (nth_lookup_or_length
                  (map position (seq 0 (size [N; C; H; W]))) k 0) as [El|El];
        [|rewrite length_map, length_seq in El; lia].
      rewrite El. f_equal.
      rewrite (nth_indep _ 0 (position 0))
        by (by rewrite length_map, length_seq).
      rewrite (map_nth position (seq 0 (size [N; C; H; W])) 0 k).
      rewrite seq_nth by done. cbn [Nat.add]. unfold k.
      rewrite position_of by lia. do 3 f_equal. lia.
    + destruct (nth_lookup_or_length vs k zero) as [El|El]; [done|lia].
  - rewrite write_all_other; [by rewrite nth_lookup|].
    intros Hin. apply in_map_iff in Hin as (k & Ek & Hk).
    apply in_seq in Hk.
    destruct (position_inv k [n; c; h; w]) as (n' & c' & h' & w' & Ei & Hc' & _);
      [lia|in_bounds_tac|done|].
    injection Ei as -> -> -> ->.
    apply andb_false_iff in E as [E|E];
      [apply Nat.leb_gt in E|apply Nat.ltb_ge in E]; lia.
Qed.

End Positions.

(** ** The assignment *)

(** The image [Y] with the channels [lo .. lo + C - 1] replaced by the
    channels of [b]. *)
Definition spliced (lo C : nat) (Y b : array float) : array float :=
  init (shape Y)
    (fun idx =>
       match idx with
       | [n; c; h; w] =>
           if (lo <=? c) && (c <? lo + C) then get zero b [n; c - lo; h; w]
           else get zero Y idx
       | _ => zero
       end).

Lemma setitem_axis1_spec lo hi C yuv img Y b (s1 : store) N H W :
  denotes s1 yuv Y -> view yuv = iota [N; 3; H; W] ->
  size [N; 3; H; W] <= length (cells s1 (base yuv)) ->
  denotes s1 img b -> shape b = [N; C; H; W] ->
  default 3 hi = lo + C -> lo + C <= 3 ->
  exists s2,
    setitem_axis1 lo hi yuv img s1 = (inr tt, s2)
    /\ denotes s2 yuv (spliced lo C Y b).
Proof.
  intros Hy Hv Hlen Hi Hb Hhi Hfit.
  pose proof (denotes_wf _ _ _ Hi) as Hwb.
  destruct Hy as (Hby & Hwy & Hry). destruct Hi as (_ & _ & Hri).
  unfold setitem_axis1, ndim, tshape, slice_view. rewrite Hv.
  cbn [shape iota length Nat.ltb Nat.leb nth]. rewrite Hhi.
  rewrite run_bind. cbn [load]. rewrite Hri.
  assert (Hts : shape (slice 0 1 lo (lo + C) (iota [N; 3; H; W]))
                = [N; C; H; W]).
  { unfold slice. cbn [shape init iota]. by apply slice_shape. }
  rewrite Hts. cbn [shape reshape]. rewrite Hb, broadcast_strip.
  destruct (decide ([N; C; H; W] = [N; C; H; W])) as [_|Hne]; [|done].
  eexists. split; [reflexivity|].
  split; [by rewrite length_insert|]. split; [done|].
  unfold read. rewrite Hv. unfold cells at 1.
  rewrite list_lookup_insert_eq by done. cbn [default from_option id].
  assert (Hd : data (broadcast_to zero [N; C; H; W]
                       (reshape (strip_ones [N; C; H; W]) b)) = data b).
  { rewrite <- Hb. by apply data_broadcast_strip. }
  rewrite Hd.
  rewrite (slice_positions N C H W lo Hfit (lo + C) eq_refl).
  assert (HsY : shape Y = [N; 3; H; W]) by (by rewrite <- Hry; unfold read; rewrite Hv).
  assert (HgY : forall idx, in_bounds [N; 3; H; W] idx ->
            get zero Y idx = nth (ravel [N; 3; H; W] idx) (cells s1 (base yuv)) zero).
  { intros idx Hidx. rewrite <- Hry. unfold read. rewrite Hv.
    rewrite (get_amap _ 0 zero) by (first [apply wf_iota | done]).
    by rewrite get_iota. }
  apply (array_ext zero);
    [apply wf_amap, wf_iota|apply wf_init
    |unfold spliced; cbn [shape amap iota init]; by rewrite HsY|].
  intros idx Hidx. cbn [shape amap iota] in Hidx.
  rewrite (get_amap _ 0 zero) by (first [apply wf_iota | done]).
  rewrite get_iota by done.
  unfold spliced. rewrite get_init by (by rewrite HsY).
  pose proof Hidx as Hidx'.
  apply in_bounds4' in Hidx as (n & c & h & w & -> & Hn & Hc & Hh & Hw).
  rewrite (written_cell N C H W lo Hfit (data b) (cells s1 (base yuv)) n c h w);
    [|by rewrite Hwb, Hb|done..].
  destruct ((lo <=? c) && (c <? lo + C)); [|by rewrite HgY].
  unfold get. by rewrite Hb.
Qed.

End SetItem.

(* ===================================================================== *)
(** * The inverse dispatcher with a reference image *)
(* ===================================================================== *)

Section Splice.
Import Nd NdFacts NdMore Torch TorchFacts Wp WpMore SetItem.
Local Open Scope string_scope.
Local Open Scope list_scope.
Local Open Scope nat_scope.
Local Open Scope torch_scope.

Local Notation "x [*] y" := (Fp.mul f32 x y) (at level 40, left associativity).
Local Notation "x [/] y" := (Fp.div f32 x y) (at level 40, left associativity).
Local Notation "x [+] y" := (Fp.add f32 x y) (at level 50, left associativity).
Local Notation "x [-] y" := (Fp.sub f32 x y) (at level 50, left associativity).

Ltac in_bounds_tac :=
  repeat first [apply in_bounds_nil | apply in_bounds_cons | lia].

(** [ycbcr2rgb_pt] on a tensor that holds a YCbCr image, from any store:
    the rule used below for the last step of the splice. *)
Lemma ycbcr2rgb_pt_denotes
    (img : Tensor) (a : array float) (s : store) (N H W : nat) :
  denotes s img a ->
  tshape img = [N; 3; H; W] ->
  wp (ycbcr2rgb_pt img) s (fun t s' => denotes s' t (ycbcr_image_to_rgb a)).
Proof.
  intros Hx Hsh.
  pose proof (denotes_shape _ _ _ Hx) as Ha. rewrite Hsh in Ha.
  pose proof (denotes_wf _ _ _ Hx) as Hwa.
  unfold ycbcr2rgb_pt, add_s, sub_s, mul_s, div_s, add, sub.
  apply wp_bind. eapply wp_map_t; [exact Hx|]. intros t0 s0 Hpre H0. frame.
  set (a0 := amap _ a) in *.
  assert (Hs0 : shape a0 = [N; 3; H; W]) by done.
  assert (Hws : forall c off k, c < 3 ->
            shape (weighted a0 c off k) = [N; 1; H; W])
    by (intros; by apply weighted_shape).
  apply wp_bind. eapply wp_getitem_axis1; [exact H0|by rewrite Hs0|].
  intros y Hy.
  apply wp_bind. eapply wp_getitem_axis1; [exact H0|by rewrite Hs0|].
  intros cb Hcb.
  apply wp_bind. eapply wp_getitem_axis1; [exact H0|by rewrite Hs0|].
  intros cr Hcr.
  cbn [default from_option id] in Hy, Hcb, Hcr.
  eapply (wp_weighted a0 0); [exact Hy|]. intros r1 s1 Hpre Hr1. frame.
  eapply (wp_weighted a0 2); [exact Hcr|]. intros r2 s2 Hpre Hr2. frame.
  apply wp_bind. eapply wp_zip_t;
    [exact Hr1|exact Hr2|apply zip2_same_shape; by rewrite !Hws by lia|].
  intros r s3 Hpre Hr. frame.
  eapply (wp_weighted a0 0); [exact Hy|]. intros g1 s4 Hpre Hg1. frame.
  eapply (wp_weighted a0 1); [exact Hcb|]. intros g2 s5 Hpre Hg2. frame.
  apply wp_bind. eapply wp_zip_t;
    [exact Hg1|exact Hg2|apply zip2_same_shape; by rewrite !Hws by lia|].
  intros g12 s6 Hpre Hg12. frame.
  eapply (wp_weighted a0 2); [exact Hcr|]. intros g3 s7 Hpre Hg3. frame.
  apply wp_bind. eapply wp_zip_t;
    [exact Hg12|exact Hg3|
     apply zip2_same_shape; cbn [shape zip_same init]; by rewrite !Hws by lia|].
  intros g s8 Hpre Hg. frame.
  eapply (wp_weighted a0 0); [exact Hy|]. intros b1 s9 Hpre Hb1. frame.
  eapply (wp_weighted a0 1); [exact Hcb|]. intros b2 s10 Hpre Hb2. frame.
  apply wp_bind. eapply wp_zip_t;
    [exact Hb1|exact Hb2|apply zip2_same_shape; by rewrite !Hws by lia|].
  intros b s11 Hpre Hb. frame.
  apply wp_bind. eapply wp_cat3;
    [exact Hr|exact Hg|exact Hb|
     apply (cat_channels N H W); cbn [shape zip_same init]; by rewrite Hws by lia|
     apply wf_init|].
  intros rgb s12 Hpre Hrgb. frame.
  eapply wp_map_t; [exact Hrgb|]. intros t s13 _ Ht.
  eapply denotes_eq; [exact Ht|]. clear -Ha Hwa Hs0 Hws.
  apply (array_ext zero);
    [apply wf_amap, wf_init|apply wf_init|
     unfold ycbcr_image_to_rgb; cbn [shape amap channels init]; by rewrite Ha|].
  intros idx Hidx. change (in_bounds [N; 3; H; W] idx) in Hidx.
  apply in_bounds4' in Hidx as (n & c & h & w & -> & Hn & Hc & Hh & Hw).
  assert (Hget : forall k, k < 3 ->
            get zero a0 [n; k; h; w] = get zero a [n; k; h; w] [*] Fp.lit32 255 1).
  { intros k Hk. unfold a0. rewrite (get_amap _ zero); [done|done|].
    rewrite Ha. in_bounds_tac. }
  rewrite (get_amap _ zero) by (first [apply wf_init | in_bounds_tac]).
  rewrite get_channels by done.
  unfold ycbcr_image_to_rgb. rewrite get_init by (rewrite Ha; in_bounds_tac).
  unfold ycbcr_pixel_to_rgb.
  destruct c as [|[|[|c]]]; [| | |lia]; cbn [nth].
  - rewrite (get_zip_same _ _ zero);
      [|by rewrite !Hws by lia|rewrite Hws by lia; in_bounds_tac].
    rewrite !(weighted_get _ _ _ _ N H W) by (done || lia).
    by rewrite !Hget by lia.
  - rewrite (get_zip_same _ _ zero);
      [|cbn [shape zip_same init]; by rewrite !Hws by lia
       |cbn [shape zip_same init]; rewrite Hws by lia; in_bounds_tac].
    rewrite (get_zip_same _ _ zero);
      [|by rewrite !Hws by lia|rewrite Hws by lia; in_bounds_tac].
    rewrite !(weighted_get _ _ _ _ N H W) by (done || lia).
    by rewrite !Hget by lia.
  - rewrite (get_zip_same _ _ zero);
      [|by rewrite !Hws by lia|rewrite Hws by lia; in_bounds_tac].
    rewrite !(weighted_get _ _ _ _ N H W) by (done || lia).
    by rewrite !Hget by lia.
Qed.

(** The three steps of the two reference paths. *)
Lemma splice_denotes lo hi C (img ref : Tensor) (a b : array float)
    (s : store) (N H W : nat) :
  denotes s img b -> denotes s ref a ->
  tshape img = [N; C; H; W] -> tshape ref = [N; 3; H; W] ->
  default 3 hi = lo + C -> lo + C <= 3 ->
  wp (let* img_yuv := rgb2ycbcr_pt ref false in
      let* _ := setitem_axis1 lo hi img_yuv img in
      ycbcr2rgb_pt img_yuv) s
     (fun t s' =>
        denotes s' t
          (ycbcr_image_to_rgb (spliced lo C (rgb_image_to_ycbcr a) b))).
Proof.
  intros Hi Hr Hsi Hsr Hhi Hfit.
  pose proof (denotes_shape _ _ _ Hi) as Hb. rewrite Hsi in Hb.
  destruct (rgb2ycbcr_pt_full_denotes ref a s N H W Hr Hsr)
    as (yuv & s1 & E1 & Hp1 & HY & Hv & Hfresh & Hlen).
  apply (denotes_prefix _ _ _ _ Hp1) in Hi.
  destruct (setitem_axis1_spec lo hi C yuv img (rgb_image_to_ycbcr a) b
              s1 N H W) as (s2 & E2 & HY2); [done|done|lia|done..|].
  pose proof (setitem_axis1_above lo hi yuv img s s1 Hp1 Hfresh) as Hp2.
  rewrite E2 in Hp2. cbn [snd] in Hp2.
  destruct (ycbcr2rgb_pt_denotes yuv
              (spliced lo C (rgb_image_to_ycbcr a) b) s2 N H W HY2)
    as (t & s3 & E3 & Hp3 & Ht); [unfold tshape; by rewrite Hv|].
  exists t, s3. split; [|split; [by etrans|done]].
  rewrite (run_bind_ok _ _ _ _ _ E1). by rewrite (run_bind_ok _ _ _ _ _ E2).
Qed.

(** X23. [pixelformat2rgb_pt] with a reference image [(N, 3, H, W)] and the
    tag ['y'] (the input a luma plane [(N, 1, H, W)]) or ['uv'] (the
    input two chroma planes [(N, 2, H, W)]): the call returns a new
    tensor holding the RGB conversion of the image that has the input's
    channels in place of the luma, or of the chroma, of the BT.601
    conversion of the reference, and the other channels of that
    conversion as they are. *)
Theorem pixelformat2rgb_pt_splices
    (img ref : Tensor) (a b : array float) (s : store) (N H W : nat)
    (fmt : string) (lo C : nat) :
  (fmt = "y" /\ lo = 0 /\ C = 1) \/ (fmt = "uv" /\ lo = 1 /\ C = 2) ->
  denotes s img b -> denotes s ref a ->
  tshape img = [N; C; H; W] -> tshape ref = [N; 3; H; W] ->
  wp (pixelformat2rgb_pt img (Some ref) fmt) s
     (fun t s' =>
        denotes s' t
          (ycbcr_image_to_rgb (spliced lo C (rgb_image_to_ycbcr a) b))).
Proof.
  intros [(-> & -> & ->)|(-> & -> & ->)] Hi Hr Hsi Hsr;
    unfold pixelformat2rgb_pt; cbn [String.eqb Ascii.eqb Bool.eqb].
  - apply (splice_denotes 0 (Some 1) 1 img ref a b s N H W);
      [done|done|done|done|reflexivity|lia].
  - apply (splice_denotes 1 None 2 img ref a b s N H W);
      [done|done|done|done|reflexivity|lia].
Qed.

Lemma pixelformat2rgb_pt_splices_witness :
  wp (pixelformat2rgb_pt luma_img (Some luma_ref) "y") luma_store
     (fun t s' =>
        denotes s' t
          (ycbcr_image_to_rgb
             (spliced 0 1 (rgb_image_to_ycbcr (read luma_store luma_ref))
                      (read luma_store luma_img)))).
Proof.
  apply (pixelformat2rgb_pt_splices luma_img luma_ref
           (read luma_store luma_ref) (read luma_store luma_img)
           luma_store 1 1 2 "y" 0 1).
  - by left.
  - split; [simpl; lia|]. split; [apply wf_iota|reflexivity].
  - split; [simpl; lia|]. split; [apply wf_iota|reflexivity].
  - reflexivity.
  - reflexivity.
Defined.

(** Putting the luma of an image back into the image itself. *)
Lemma spliced_own_luma (Y : array float) N H W :
  wf Y -> shape Y = [N; 3; H; W] ->
  spliced 0 1 Y (slice zero 1 0 1 Y) = Y.
Proof.
  intros Hw Hs. apply (array_ext zero); [apply wf_init|done|done|].
  intros idx Hidx. cbn [shape spliced init] in Hidx.
  unfold spliced. rewrite get_init by done. rewrite Hs in Hidx.
  apply in_bounds4' in Hidx as (n & c & h & w & -> & Hn & Hc & Hh & Hw').
  destruct c as [|c]; cbn [Nat.leb Nat.ltb andb Nat.add Nat.sub]; [|done].
  rewrite get_slice by (rewrite Hs; cbn [alter list_alter]; in_bounds_tac).
  done.
Qed.

(** X24. The luma round trip with the image as its own reference computes
    what the full round trip computes: for an RGB batch [(N, 3, H, W)],
    [pixelformat2rgb_pt(rgb2pixelformat_pt(img, 'y'), img, 'y')] and
    [pixelformat2rgb_pt(rgb2pixelformat_pt(img, 'yuv444'), None,
    'yuv444')] both return a new tensor holding the inverse conversion of
    the forward conversion of the image, sample for sample the same. *)
Theorem luma_round_trip_is_full_round_trip
    (img : Tensor) (a : array float) (s : store) (N H W : nat) :
  denotes s img a ->
  tshape img = [N; 3; H; W] ->
  wp (let* y := rgb2pixelformat_pt img "y" in
      pixelformat2rgb_pt y (Some img) "y") s
     (fun t s' =>
        denotes s' t (ycbcr_image_to_rgb (rgb_image_to_ycbcr a)))
  /\ wp (let* yuv := rgb2pixelformat_pt img "yuv444" in
         pixelformat2rgb_pt yuv None "yuv444") s
       (fun t s' =>
          denotes s' t (ycbcr_image_to_rgb (rgb_image_to_ycbcr a))).
Proof.
  intros Hx Hsh.
  pose proof (denotes_shape _ _ _ Hx) as Ha. rewrite Hsh in Ha.
  assert (Hfs : shape (rgb_image_to_ycbcr a) = [N; 3; H; W])
    by (unfold rgb_image_to_ycbcr; cbn [shape init]; by rewrite Ha).
  unfold rgb2pixelformat_pt, pixelformat2rgb_pt.
  cbn [String.eqb Ascii.eqb Bool.eqb]. split.
  - apply wp_bind. apply wp_bind.
    eapply wp_mono; [by apply (rgb2ycbcr_pt_full_denotes img a s N H W)|].
    intros yuv s1 Hp1 (Hyuv & _ & _ & _). cbv beta.
    eapply wp_getitem_axis1; [exact Hyuv|by rewrite Hfs|].
    intros y Hy. cbn [default from_option id] in Hy.
    apply (denotes_prefix _ _ _ _ Hp1) in Hx.
    eapply wp_mono.
    { apply (splice_denotes 0 (Some 1) 1 y img a
               (slice zero 1 0 1 (rgb_image_to_ycbcr a)) s1 N H W);
        [exact Hy|exact Hx| |done|done|lia].
      rewrite <- (denotes_shape _ _ _ Hy). cbn [shape slice init].
      by rewrite Hfs. }
    intros t s' _ Ht. cbv beta in Ht.
    by rewrite (spliced_own_luma _ N H W) in Ht by (done || apply wf_init).
  - apply wp_bind.
    eapply wp_mono; [by apply (rgb2ycbcr_pt_full_denotes img a s N H W)|].
    intros yuv s1 Hp1 (Hyuv & Hv & _ & _). cbv beta.
    apply (ycbcr2rgb_pt_denotes yuv (rgb_image_to_ycbcr a) s1 N H W Hyuv).
    unfold tshape. by rewrite Hv.
Qed.

Lemma luma_round_trip_is_full_round_trip_witness :
  wp (let* y := rgb2pixelformat_pt luma_ref "y" in
      pixelformat2rgb_pt y (Some luma_ref) "y") luma_store
     (fun t s' =>
        denotes s' t
          (ycbcr_image_to_rgb
             (rgb_image_to_ycbcr (read luma_store luma_ref))))
  /\ wp (let* yuv := rgb2pixelformat_pt luma_ref "yuv444" in
         pixelformat2rgb_pt yuv None "yuv444") luma_store
       (fun t s' =>
          denotes s' t
            (ycbcr_image_to_rgb
               (rgb_image_to_ycbcr (read luma_store luma_ref)))).
Proof.
  apply (luma_round_trip_is_full_round_trip luma_ref
           (read luma_store luma_ref) luma_store 1 1 2).
  - split; [simpl; lia|]. split; [apply wf_iota|reflexivity].
  - reflexivity.
Defined.

(** ** A value with the wrong number of channels *)

Lemma strip_ones_channels N C H W :
  C <> 1 ->
  strip_ones [N; C; H; W] = if N =? 1 then [C; H; W] else [N; C; H; W].
Proof.
  intros HC. destruct N as [|[|N]]; [done| |done].
  by destruct C as [|[|C]].
Qed.

Lemma expansion_refused N C T H W sh :
  C <> 1 -> C <> T ->
  broadcast_shapes (strip_ones [N; C; H; W]) [N; T; H; W] = Some sh ->
  sh <> [N; T; H; W].
Proof.
  intros HC HT. rewrite strip_ones_channels by done.
  apply Nat.eqb_neq in HC. apply Nat.eqb_neq in HT.
  unfold broadcast_shapes.
  destruct (N =? 1) eqn:EN; cbn [rev app broadcast_rev];
    rewrite ?Nat.eqb_refl, HT, HC;
    destruct (T =? 1); try done;
    intros [= <-]; intros [= E]; subst;
    by rewrite Nat.eqb_refl in HT.
Qed.

Lemma setitem_axis1_refuses lo hi T (yuv img : Tensor) (b : array float)
    (s1 : store) N C H W :
  view yuv = iota [N; 3; H; W] ->
  read s1 img = b -> shape b = [N; C; H; W] ->
  default 3 hi = lo + T -> lo + T <= 3 ->
  C <> 1 -> C <> T ->
  fst (setitem_axis1 lo hi yuv img s1)
  = inl (RuntimeError "expanded size must match the existing size").
Proof.
  intros Hv Hri Hb Hhi Hfit HC HT.
  unfold setitem_axis1, ndim, tshape, slice_view. rewrite Hv.
  cbn [shape iota length Nat.ltb Nat.leb nth]. rewrite Hhi.
  rewrite run_bind. cbn [load]. rewrite Hri.
  assert (Hts : shape (slice 0 1 lo (lo + T) (iota [N; 3; H; W]))
                = [N; T; H; W]).
  { unfold slice. cbn [shape init iota]. by apply slice_shape. }
  rewrite Hts. cbn [shape reshape]. rewrite Hb.
  destruct (broadcast_shapes _ _) as [sh|] eqn:E; [|done].
  apply expansion_refused in E; [|done..].
  by destruct (decide (sh = [N; T; H; W])).
Qed.

(** X25. The slice assignment expands its value as PyTorch does, and refuses
    what does not expand: with a reference [(N, 3, H, W)], the tag ['y']
    and an input of [C] channels, [C] not 1, and the tag ['uv'] and an
    input of [C] channels, [C] neither 1 nor 2, raise [RuntimeError]. *)
Theorem pixelformat2rgb_pt_refuses_channels
    (img ref : Tensor) (a b : array float) (s : store) (N C H W : nat)
    (fmt : string) :
  (fmt = "y" /\ C <> 1) \/ (fmt = "uv" /\ C <> 1 /\ C <> 2) ->
  denotes s img b -> denotes s ref a ->
  tshape img = [N; C; H; W] -> tshape ref = [N; 3; H; W] ->
  fst (pixelformat2rgb_pt img (Some ref) fmt s)
  = inl (RuntimeError "expanded size must match the existing size").
Proof.
  intros Hfmt Hi Hr Hsi Hsr.
  pose proof (denotes_shape _ _ _ Hi) as Hb. rewrite Hsi in Hb.
  destruct (rgb2ycbcr_pt_full_denotes ref a s N H W Hr Hsr)
    as (yuv & s1 & E1 & Hp1 & HY & Hv & Hfresh & Hlen).
  apply (denotes_prefix _ _ _ _ Hp1) in Hi. destruct Hi as (_ & _ & Hri).
  destruct Hfmt as [(-> & HC)|(-> & HC1 & HC2)];
    unfold pixelformat2rgb_pt; cbn [String.eqb Ascii.eqb Bool.eqb];
    rewrite (run_bind_ok _ _ _ _ _ E1), run_bind.
  - pose proof (setitem_axis1_refuses 0 (Some 1) 1 yuv img b s1 N C H W
                  Hv Hri Hb eq_refl ltac:(lia) HC HC) as E.
    destruct (setitem_axis1 0 (Some 1) yuv img s1) as [[e|u] s2];
      cbn [fst] in E; [|done]. by injection E as ->.
  - pose proof (setitem_axis1_refuses 1 None 2 yuv img b s1 N C H W
                  Hv Hri Hb eq_refl ltac:(lia) HC1 HC2) as E.
    destruct (setitem_axis1 1 None yuv img s1) as [[e|u] s2];
      cbn [fst] in E; [|done]. by injection E as ->.
Qed.

Lemma pixelformat2rgb_pt_refuses_channels_witness :
  fst (pixelformat2rgb_pt luma_ref (Some luma_ref) "y" luma_store)
  = inl (RuntimeError "expanded size must match the existing size").
Proof.
  apply (pixelformat2rgb_pt_refuses_channels luma_ref luma_ref
           (read luma_store luma_ref) (read luma_store luma_ref)
           luma_store 1 3 1 2 "y").
  - left. split; [reflexivity|lia].
  - split; [simpl; lia|]. split; [apply wf_iota|reflexivity].
  - split; [simpl; lia|]. split; [apply wf_iota|reflexivity].
  - reflexivity.
  - reflexivity.
Defined.

End Splice.

(* ===================================================================== *)
(** * What [ycbcr2rgb_pt] does with shapes it does not check *)
(* ===================================================================== *)

Section Unchecked.
Import Nd NdFacts NdMore Torch TorchFacts Wp WpMore.
Local Open Scope string_scope.
Local Open Scope list_scope.
Local Open Scope nat_scope.
Local Open Scope torch_scope.

(** Broadcasting two channel counts. *)
Definition broadcast_dim (c1 c2 : nat) : option nat :=
  if c1 =? c2 then Some c1
  else if c1 =? 1 then Some c2
  else if c2 =? 1 then Some c1
  else None.

Lemma broadcast_axis1 N H W c1 c2 c :
  broadcast_dim c1 c2 = Some c ->
  broadcast_shapes [N; c1; H; W] [N; c2; H; W] = Some [N; c; H; W].
Proof.
  unfold broadcast_dim, broadcast_shapes. cbn [rev app broadcast_rev].
  rewrite !Nat.eqb_refl.
  destruct (c1 =? c2); [by intros [= <-]|].
  destruct (c1 =? 1); [by intros [= <-]|].
  destruct (c2 =? 1); [by intros [= <-]|done].
Qed.

Lemma zip2_axis1 (f : float -> float -> float) (a b : array float)
    N H W c1 c2 c :
  shape a = [N; c1; H; W] -> shape b = [N; c2; H; W] ->
  broadcast_dim c1 c2 = Some c ->
  exists r, zip2 zero zero f a b = Some r /\ shape r = [N; c; H; W].
Proof.
  intros Ha Hb Hc. unfold zip2.
  rewrite Ha, Hb, (broadcast_axis1 N H W c1 c2 c Hc). by eexists.
Qed.

Lemma cat3_axis1 (a b c : array float) N H W c1 c2 c3 :
  shape a = [N; c1; H; W] -> shape b = [N; c2; H; W] ->
  shape c = [N; c3; H; W] ->
  exists r, Nd.cat zero 1 [a; b; c] = Some r /\ wf r
            /\ shape r = [N; c1 + c2 + c3; H; W].
Proof.
  intros Ha Hb Hc. unfold Nd.cat, cat_from.
  unfold cat2 at 1. rewrite Ha, Hb, same_but_channels.
  cbn [nth alter list_alter].
  unfold cat2. cbn [shape init]. rewrite Hc, same_but_channels.
  cbn [nth alter list_alter]. eexists. split; [done|].
  split; [apply wf_init|done].
Qed.

Lemma slice_channels (a : array float) N C H W lo hi :
  shape a = [N; C; H; W] ->
  shape (slice zero 1 lo hi a) = [N; Nat.min hi C - Nat.min lo C; H; W].
Proof. intros Ha. unfold slice. cbn [shape init]. by rewrite Ha. Qed.

(** One step [k * (x - off)] of the source on a tensor known by its
    shape. *)
Lemma wp_centered {B} x a sh off k s (K : Tensor -> M B)
    (Q : B -> store -> Prop) :
  denotes s x a -> shape a = sh ->
  (forall t a' s', s `prefix_of` s' -> denotes s' t a' -> shape a' = sh ->
                   wp (K t) s' Q) ->
  wp (let* u := map_t (fun v => Fp.sub f32 v off) x in
      let* t := map_t (fun v => Fp.mul f32 v k) u in
      K t) s Q.
Proof.
  intros Hx Hs HK.
  apply wp_bind. eapply wp_map_t; [exact Hx|]. intros u s1 Hp1 Hu.
  apply wp_bind. eapply wp_map_t; [exact Hu|]. intros t s2 Hp2 Ht.
  eapply HK; [by etrans|exact Ht|done].
Qed.

(** The shape of the result on a four-axis tensor with [C] channels:
    slices past the last channel are empty, and an empty operand makes a
    sum empty. *)
Lemma ycbcr2rgb_pt_shape (img : Tensor) (a : array float) (s : store)
    (N C H W ry rb rr cr_ cg cb_ cgg : nat) :
  denotes s img a ->
  tshape img = [N; C; H; W] ->
  ry = Nat.min 1 C - Nat.min 0 C ->
  rb = Nat.min 2 C - Nat.min 1 C ->
  rr = Nat.min 3 C - Nat.min 2 C ->
  broadcast_dim ry rr = Some cr_ ->
  broadcast_dim ry rb = Some cgg ->
  broadcast_dim cgg rr = Some cg ->
  broadcast_dim ry rb = Some cb_ ->
  wp (ycbcr2rgb_pt img) s (fun t _ => tshape t = [N; cr_ + cg + cb_; H; W]).
Proof.
  intros Hx Hsh Ery Erb Err Bcr Bgg Bcg Bcb.
  pose proof (denotes_shape _ _ _ Hx) as Ha. rewrite Hsh in Ha.
  unfold ycbcr2rgb_pt, add_s, sub_s, mul_s, div_s, add, sub.
  apply wp_bind. eapply wp_map_t; [exact Hx|]. intros t0 s0 Hpre H0. frame.
  set (a0 := amap _ a) in *.
  assert (Hs0 : shape a0 = [N; C; H; W]) by done.
  apply wp_bind. eapply wp_getitem_axis1; [exact H0|by rewrite Hs0|].
  intros y Hy.
  apply wp_bind. eapply wp_getitem_axis1; [exact H0|by rewrite Hs0|].
  intros cb Hcb.
  apply wp_bind. eapply wp_getitem_axis1; [exact H0|by rewrite Hs0|].
  intros cr Hcr.
  cbn [default from_option id] in Hy, Hcb, Hcr.
  pose proof (slice_channels a0 N C H W 0 1 Hs0) as Sy.
  pose proof (slice_channels a0 N C H W 1 2 Hs0) as Sb.
  pose proof (slice_channels a0 N C H W 2 3 Hs0) as Sr.
  rewrite <- Ery in Sy. rewrite <- Erb in Sb. rewrite <- Err in Sr.
  (* r *)
  eapply wp_centered; [exact Hy|exact Sy|]. intros r1 R1 s1 Hpre Hr1 SR1. frame.
  eapply wp_centered; [exact Hcr|exact Sr|]. intros r2 R2 s2 Hpre Hr2 SR2. frame.
  destruct (zip2_axis1 (Fp.add f32) R1 R2 N H W ry rr cr_ SR1 SR2 Bcr)
    as (R & ER & SR).
  apply wp_bind. eapply wp_zip_t; [exact Hr1|exact Hr2|exact ER|].
  intros r s3 Hpre Hr. frame.
  (* g *)
  eapply wp_centered; [exact Hy|exact Sy|]. intros g1 G1 s4 Hpre Hg1 SG1. frame.
  eapply wp_centered; [exact Hcb|exact Sb|]. intros g2 G2 s5 Hpre Hg2 SG2. frame.
  destruct (zip2_axis1 (Fp.sub f32) G1 G2 N H W ry rb cgg SG1 SG2 Bgg)
    as (G12 & EG12 & SG12).
  apply wp_bind. eapply wp_zip_t; [exact Hg1|exact Hg2|exact EG12|].
  intros g12 s6 Hpre Hg12. frame.
  eapply wp_centered; [exact Hcr|exact Sr|]. intros g3 G3 s7 Hpre Hg3 SG3. frame.
  destruct (zip2_axis1 (Fp.sub f32) G12 G3 N H W cgg rr cg SG12 SG3 Bcg)
    as (G & EG & SG).
  apply wp_bind. eapply wp_zip_t; [exact Hg12|exact Hg3|exact EG|].
  intros g s8 Hpre Hg. frame.
  (* b *)
  eapply wp_centered; [exact Hy|exact Sy|]. intros b1 B1 s9 Hpre Hb1 SB1. frame.
  eapply wp_centered; [exact Hcb|exact Sb|]. intros b2 B2 s10 Hpre Hb2 SB2. frame.
  destruct (zip2_axis1 (Fp.add f32) B1 B2 N H W ry rb cb_ SB1 SB2 Bcb)
    as (Bl & EB & SB).
  apply wp_bind. eapply wp_zip_t; [exact Hb1|exact Hb2|exact EB|].
  intros b s11 Hpre Hb. frame.
  destruct (cat3_axis1 R G Bl N H W cr_ cg cb_ SR SG SB) as (RGB & EC & WC & SC).
  apply wp_bind. eapply wp_cat3; [exact Hr|exact Hg|exact Hb|exact EC|exact WC|].
  intros rgb s12 Hpre Hrgb. frame.
  eapply wp_map_t; [exact Hrgb|]. intros t s13 _ Ht.
  by rewrite <- (denotes_shape _ _ _ Ht).
Qed.

(** X26. [ycbcr2rgb_pt] has no shape check.  A tensor of fewer than four axes
    is turned away by PyTorch's indexing with [IndexError].  A batch with
    one channel is not turned away at all: the chroma slices are empty,
    so the call returns a tensor with no channels, [(N, 0, H, W)]; with
    two channels it returns one channel, [(N, 1, H, W)]; with three or
    more it returns three. *)
Theorem ycbcr2rgb_pt_on_unchecked_shapes
    (img : Tensor) (a : array float) (s : store) (N C H W : nat) :
  denotes s img a ->
  (ndim img < 4 ->
   fst (ycbcr2rgb_pt img s) = inl (IndexError "too many indices for tensor"))
  /\ (tshape img = [N; C; H; W] ->
      wp (ycbcr2rgb_pt img) s
         (fun t _ =>
            tshape t = [N; (match C with
                            | 0 | 1 => 0
                            | 2 => 1
                            | _ => 3
                            end); H; W])).
Proof.
  intros Hx. split.
  - intros Hn. unfold ycbcr2rgb_pt, mul_s, map_t.
    rewrite run_bind. cbn [bind load new].
    unfold getitem_axis1. cbn [ndim tshape view shape iota].
    change (shape (amap _ (read s img))) with (tshape img).
    change (ndim {| base := length s; view := iota (tshape img) |})
      with (ndim img).
    apply Nat.ltb_lt in Hn. by rewrite Hn.
  - intros Hsh.
    destruct C as [|[|[|C]]].
    + by apply (ycbcr2rgb_pt_shape img a s N 0 H W 0 0 0 0 0 0 0).
    + by apply (ycbcr2rgb_pt_shape img a s N 1 H W 1 0 0 0 0 0 0).
    + by apply (ycbcr2rgb_pt_shape img a s N 2 H W 1 1 0 0 0 1 1).
    + apply (ycbcr2rgb_pt_shape img a s N (S (S (S C))) H W 1 1 1 1 1 1 1);
        try done; cbn [Nat.min Nat.sub]; lia.
Qed.

Lemma ycbcr2rgb_pt_on_unchecked_shapes_witness :
  fst (ycbcr2rgb_pt rank3_white rank3_store)
  = inl (IndexError "too many indices for tensor")
  /\ wp (ycbcr2rgb_pt luma_img) luma_store
        (fun t _ => tshape t = [1; 0; 1; 2]).
Proof.
  assert (H3 : denotes rank3_store rank3_white (read rank3_store rank3_white))
    by (split; [simpl; lia|]; split; [apply wf_iota|reflexivity]).
  assert (H1 : denotes luma_store luma_img (read luma_store luma_img))
    by (split; [simpl; lia|]; split; [apply wf_iota|reflexivity]).
  split.
  - apply (proj1 (ycbcr2rgb_pt_on_unchecked_shapes rank3_white _ rank3_store
                    0 0 0 0 H3)).
    by vm_compute.
  - apply (proj2 (ycbcr2rgb_pt_on_unchecked_shapes luma_img _ luma_store
                    1 1 1 2 H1)).
    reflexivity.
Defined.

End Unchecked.
